(** * BookServer-API: the request handlers over the in-memory stores

    A shallow embedding of the handlers of [authHandler/auth.go] and
    [apiHandler] (the same functions appear once more in [main.go]) together
    with the data of [dataHandler/data.go].

    - Go strings are byte strings: [string].
    - The two package-level maps [CredentialList] and [BookList] are finite
      maps keyed by strings ([gmap string _]); a handler receives the store
      and returns the store it leaves behind.
    - [http.ResponseWriter] is a record that is threaded through the handler;
      [time.Now()] is an argument of the handlers that read the clock.
    - [encoding/json] and [jwx/jwt] are not part of the repository: they are
      the fields of the class [Libs].
    - The package [jws] of jwx, which the repository carries, is the module
      [jws]: [Sign], [Verify], [Parse] and the splitting of a compact
      serialization. Byte slices are lists of bytes; the signers, verifiers,
      key providers and codecs it calls are the fields of the class
      [jws.Lib]; the package's table of signers is passed to [Sign] and
      returned by it. *)

From Stdlib Require Import ZArith Ascii String.
From stdpp Require Import base option strings list gmap.

Open Scope Z_scope.
Open Scope string_scope.

(** ** dataHandler/data.go *)

Module Author.
Record t := mk { Name : string; Home : string }.
End Author.

Module Book.
Record t := mk {
  Name : string;
  Authors : list Author.t;
  ISBN : string;
  Genre : string;
  Pub : string
}.
End Book.

Module Credentials.
Record t := mk { Username : string; Password : string }.
End Credentials.

Abbreviation BookDB := (gmap string Book.t).
Abbreviation CredentialDB := (gmap string string).

(** The package-level variables [CredentialList] and [BookList]. *)
Record Store := mkStore {
  CredentialList : CredentialDB;
  BookList : BookDB
}.

Definition author1 : Author.t := Author.mk "Sadia Sornaly" "Korea".
Definition author2 : Author.t := Author.mk "Shahana" "America".
Definition book1 : Book.t :=
  Book.mk "Book 1" [author1; author2] "ISBN 1" "Thriller" "Unknown".
Definition book2 : Book.t :=
  Book.mk "Book 2" [author1] "ISBN 2" "Science Fiction" "Tor Books".

Definition Init : Store :=
  {| CredentialList := <["Admin" := "5678"]> (<["sabnaj" := "1234"]> ∅);
     BookList := <[Book.ISBN book2 := book2]> (<[Book.ISBN book1 := book1]> ∅) |}.

(** ** time *)

(** A [time.Time] is an instant, counted in nanoseconds; a [time.Duration]
    is a number of nanoseconds. *)
Definition Time := Z.
Definition Minute : Z := 60 * 1000000000.
Definition Time_Add (t : Time) (d : Z) : Time := t + d.

(** ** net/http: cookies, requests and the response writer *)

Module Cookie.
Record t := mk { Name : string; Value : string; Expires : Time }.
End Cookie.

Definition StatusOK : Z := 200.
Definition StatusCreated : Z := 201.
Definition StatusBadRequest : Z := 400.
Definition StatusNotFound : Z := 404.
Definition StatusMethodNotAllowed : Z := 405.
Definition StatusConflict : Z := 409.
Definition StatusInternalServerError : Z := 500.
Definition MethodPost : string := "POST".

(** What a handler can read of [*http.Request]: the method, the body
    ([None] when reading the body stream fails), the URL parameters that
    chi's route context carries, and the cookies the client sent. *)
Record Request := mkRequest {
  Method : string;
  Body : option string;
  URLParams : list (string * string);
  Cookies : list Cookie.t
}.

(** [chi.URLParam]: the value of the last parameter named [key], the empty
    string when there is none. *)
Fixpoint URLParam_from (ps : list (string * string)) (key : string) (acc : string) : string :=
  match ps with
  | [] => acc
  | (k, v) :: ps' => URLParam_from ps' key (if String.eqb k key then v else acc)
  end.

Definition URLParam (r : Request) (key : string) : string :=
  URLParam_from (URLParams r) key "".

(** The response as the server builds it. [status] is [None] until the
    header is written; once it is, the header fields (and so the cookies) are
    fixed. [writeFails] says whether [Write] reports an error to the handler
    (a body that is not allowed, a connection that is gone). *)
Record ResponseWriter := mkResponse {
  header : gmap string string;
  cookies : list Cookie.t;
  status : option Z;
  body : string;
  writeFails : bool
}.

Definition NewResponse (fails : bool) : ResponseWriter :=
  {| header := ∅; cookies := []; status := None; body := ""; writeFails := fails |}.

Definition WriteHeader (code : Z) (w : ResponseWriter) : ResponseWriter :=
  match status w with
  | Some _ => w
  | None => {| header := header w; cookies := cookies w; status := Some code;
               body := body w; writeFails := writeFails w |}
  end.

(** [w.Write(data)]: writes the header with 200 when no header was written
    yet, then appends to the body; the boolean is [true] when an error is
    returned. *)
Definition Write (data : string) (w : ResponseWriter) : ResponseWriter * bool :=
  let w1 := WriteHeader StatusOK w in
  if writeFails w1 then (w1, true)
  else ({| header := header w1; cookies := cookies w1; status := status w1;
           body := body w1 +:+ data; writeFails := writeFails w1 |}, false).

Definition Header_Set (k v : string) (w : ResponseWriter) : ResponseWriter :=
  match status w with
  | Some _ => w
  | None => {| header := <[k := v]> (header w); cookies := cookies w; status := None;
               body := body w; writeFails := writeFails w |}
  end.

Definition Header_Del (k : string) (w : ResponseWriter) : ResponseWriter :=
  match status w with
  | Some _ => w
  | None => {| header := delete k (header w); cookies := cookies w; status := None;
               body := body w; writeFails := writeFails w |}
  end.

(** [http.SetCookie]: one more [Set-Cookie] field. *)
Definition SetCookie (c : Cookie.t) (w : ResponseWriter) : ResponseWriter :=
  match status w with
  | Some _ => w
  | None => {| header := header w; cookies := cookies w ++ [c]; status := None;
               body := body w; writeFails := writeFails w |}
  end.

(** The line feed that [fmt.Fprintln] and [Encoder.Encode] append. *)
Definition LF : string := String "010"%char "".

(** [http.Error]: a plain-text reply with the given status; the error of
    the final write is dropped. *)
Definition Error (msg : string) (code : Z) (w : ResponseWriter) : ResponseWriter :=
  let w := Header_Del "Content-Length" w in
  let w := Header_Set "Content-Type" "text/plain; charset=utf-8" w in
  let w := Header_Set "X-Content-Type-Options" "nosniff" w in
  let w := WriteHeader code w in
  fst (Write (msg +:+ LF) w).

(** ** The libraries the handlers call *)

Inductive SignatureAlgorithm := HS256 | NoSignature.

(** The claims handed to [jwt.NewBuilder()], in the order of the calls. *)
Inductive Claim :=
| Audience (aud : list string)
| Expiration (exp : Time).

Class Libs := {
  (** the token type of [jwt] *)
  Token : Type;
  (** [json.NewDecoder(body).Decode(&cred)] on a zero [Credentials] *)
  json_Decode_Credentials : string -> option Credentials.t;
  (** [json.Unmarshal(body, &user)] on a zero [Credentials] *)
  json_Unmarshal_Credentials : string -> option Credentials.t;
  (** [json.NewDecoder(body).Decode(&book)] on a zero [Book] *)
  json_Decode_Book : string -> option Book.t;
  (** the bytes [json.NewEncoder(w).Encode(bookList)] writes *)
  json_Marshal_BookDB : BookDB -> option string;
  (** [jwt.NewBuilder()....Build()] *)
  jwt_Build : list Claim -> option Token;
  (** [jwt.Sign(token, jwt.WithKey(alg, key))]: the compact serialization *)
  jwt_Sign : Token -> SignatureAlgorithm -> string -> option string
}.

Definition Secret : string := "this_is_my_secret_key".

(** ** authHandler/auth.go *)

Section Handlers.
Context `{L : Libs}.

(** Decoding the request body; a body that cannot be read does not decode. *)
Definition decodeBody {A : Type} (dec : string -> option A) (r : Request) : option A :=
  match Body r with
  | None => None
  | Some bytes => dec bytes
  end.

Definition Login (w : ResponseWriter) (r : Request) (now : Time) (s : Store)
  : ResponseWriter * Store :=
  match decodeBody json_Decode_Credentials r with
  | None => (Error "Cannot decode data" StatusBadRequest w, s)
  | Some cred =>
    match CredentialList s !! Credentials.Username cred with
    | None => (Error "User not found" StatusNotFound w, s)
    | Some password =>
      if negb (String.eqb password (Credentials.Password cred)) then
        (Error "Wrong password" StatusNotFound w, s)
      else
        (* JWT token generation *)
        let et := Time_Add now (20 * Minute) in
        match jwt_Build [Audience ["sabnaj"]; Expiration et] with
        | None => (Error "Cannot create token" StatusInternalServerError w, s)
        | Some token =>
          match jwt_Sign token HS256 Secret with
          | None => (Error "Cannot sign token" StatusInternalServerError w, s)
          | Some signed =>
            let w := SetCookie {| Cookie.Name := "jwt"; Cookie.Value := signed;
                                  Cookie.Expires := et |} w in
            let w := fst (Write "Login successful" w) in
            (WriteHeader StatusOK w, s)
          end
        end
    end
  end.

(** The zero value of the [Value] field is the empty string. *)
Definition Logout (w : ResponseWriter) (_ : Request) (now : Time) (s : Store)
  : ResponseWriter * Store :=
  let w := SetCookie {| Cookie.Name := "jwt"; Cookie.Value := "";
                        Cookie.Expires := now |} w in
  (WriteHeader StatusOK w, s).

Definition SignIn (w : ResponseWriter) (r : Request) (s : Store)
  : ResponseWriter * Store :=
  if negb (String.eqb (Method r) MethodPost) then
    (Error "Invalid request method" StatusMethodNotAllowed w, s)
  else
    (* Read the request body *)
    match Body r with
    | None => (Error "Unable to read request body" StatusBadRequest w, s)
    | Some bytes =>
      match json_Unmarshal_Credentials bytes with
      | None => (Error "Invalid JSON format" StatusBadRequest w, s)
      | Some user =>
        (* Check if user already exists *)
        match CredentialList s !! Credentials.Username user with
        | Some _ => (Error "User already exists" StatusConflict w, s)
        | None =>
          (* Add user to the map *)
          let s := {| CredentialList :=
                        <[Credentials.Username user := Credentials.Password user]>
                          (CredentialList s);
                      BookList := BookList s |} in
          let w := WriteHeader StatusCreated w in
          (fst (Write ("User " +:+ Credentials.Username user
                         +:+ " registered successfully") w), s)
        end
      end
    end.

(** ** apiHandler *)

Definition getAllBooks (w : ResponseWriter) (_ : Request) (s : Store)
  : ResponseWriter * Store :=
  let w := Header_Set "Content-Type" "application/json" w in
  match json_Marshal_BookDB (BookList s) with
  | None => (Error "Cannot encode data" StatusInternalServerError w, s)
  | Some bytes =>
    let (w, err) := Write (bytes +:+ LF) w in
    if err then (Error "Cannot encode data" StatusInternalServerError w, s)
    else (WriteHeader StatusOK w, s)
  end.

Definition AddNewBook (w : ResponseWriter) (r : Request) (s : Store)
  : ResponseWriter * Store :=
  match decodeBody json_Decode_Book r with
  | None => (Error "Cannot decode data" StatusBadRequest w, s)
  | Some book =>
    if (String.length (Book.Name book) =? 0)%nat
       || (String.length (Book.ISBN book) =? 0)%nat
       || (length (Book.Authors book) =? 0)%nat then
      (Error "Invalid Data Entry" StatusBadRequest w, s)
    else
      match BookList s !! Book.ISBN book with
      | Some _ => (Error "Book already exists" StatusConflict w, s)
      | None =>
        let s := {| CredentialList := CredentialList s;
                    BookList := <[Book.ISBN book := book]> (BookList s) |} in
        (WriteHeader StatusCreated w, s)
      end
  end.

Definition deleteBook (w : ResponseWriter) (r : Request) (s : Store)
  : ResponseWriter * Store :=
  let ISBN := URLParam r "ISBN" in
  if (String.length ISBN =? 0)%nat then
    (Error "Invalid ISBN" StatusBadRequest w, s)
  else
    match BookList s !! ISBN with
    | None => (Error "Book does not exist" StatusNotFound w, s)
    | Some _ =>
      let s := {| CredentialList := CredentialList s;
                  BookList := delete ISBN (BookList s) |} in
      (WriteHeader StatusOK w, s)
    end.

Definition updateBook (w : ResponseWriter) (r : Request) (s : Store)
  : ResponseWriter * Store :=
  let ISBN := URLParam r "ISBN" in
  if (String.length ISBN =? 0)%nat then
    (Error "Invalid ISBN" StatusBadRequest w, s)
  else
    match BookList s !! ISBN with
    | None => (Error "Book does not exist" StatusNotFound w, s)
    | Some _ =>
      match decodeBody json_Decode_Book r with
      | None => (Error "Cannot decode data" StatusBadRequest w, s)
      | Some newBook =>
        let s := {| CredentialList := CredentialList s;
                    BookList := <[ISBN := newBook]> (BookList s) |} in
        let (w, err) := Write "Book updated successfully" w in
        let w := if err then Error "Can not write data" StatusInternalServerError w
                 else w in
        (WriteHeader StatusOK w, s)
      end
    end.

End Handlers.

(** ** A table-driven instance of the libraries

    Enough of [encoding/json] and [jwt] to run the handlers: a body decodes
    when it is listed, the builder keeps its claims, and signing with
    [HS256] yields a compact serialization (with [NoSignature] and a key it
    is refused, as [jws.Sign] does). *)

Fixpoint assoc {A : Type} (tbl : list (string * A)) (k : string) : option A :=
  match tbl with
  | [] => None
  | (k', a) :: tbl' => if String.eqb k' k then Some a else assoc tbl' k
  end.

Definition tableLibs (creds : list (string * Credentials.t))
    (books : list (string * Book.t)) : Libs :=
  {| Token := list Claim;
     json_Decode_Credentials := assoc creds;
     json_Unmarshal_Credentials := assoc creds;
     json_Decode_Book := assoc books;
     json_Marshal_BookDB := fun _ => Some "{}";
     jwt_Build := fun claims => Some claims;
     jwt_Sign := fun _ alg _ =>
       match alg with
       | HS256 => Some "header.payload.signature"
       | NoSignature => None
       end |}.

Definition dune : Book.t :=
  Book.mk "Dune" [Author.mk "Herbert" ""] "ISBN-9" "" "".

Definition sampleLibs : Libs :=
  tableLibs
    [ ("{username:alice,password:pw1}", Credentials.mk "alice" "pw1");
      ("{username:alice,password:pw2}", Credentials.mk "alice" "pw2");
      ("{username:sabnaj,password:1234}", Credentials.mk "sabnaj" "1234");
      ("{username:alice,password:wrong}", Credentials.mk "alice" "wrong");
      ("{username:sabnaj,password:wrong}", Credentials.mk "sabnaj" "wrong") ]
    [ ("{name:Dune,isbn:ISBN-9,authors:[{name:Herbert}]}", dune);
      ("{isbn:ISBN 1}", Book.mk "" [] "ISBN 1" "" "");
      ("{name:Book 1,isbn:ISBN 1,authors:[{name:Shahana}],genre:Poetry}",
       Book.mk "Book 1" [Author.mk "Shahana" ""] "ISBN 1" "Poetry" "") ].

Definition post (bytes : string) : Request :=
  {| Method := "POST"; Body := Some bytes; URLParams := []; Cookies := [] |}.

Definition put (isbn bytes : string) : Request :=
  {| Method := "PUT"; Body := Some bytes; URLParams := [("ISBN", isbn)]; Cookies := [] |}.

(** A response that reports an error: a status of 400 or more. *)
Definition isError (w : ResponseWriter) : bool :=
  match status w with
  | Some code => (400 <=? code)%Z
  | None => false
  end.


(** Whether [updateBook] reaches one of its four calls of [http.Error]: for
    an empty ISBN, for a book that does not exist, for a body that does not
    decode, and when the write of the confirmation returns an error. *)
Definition updateBook_fails `{L : Libs} (w : ResponseWriter) (r : Request) (s : Store)
  : bool :=
  let ISBN := URLParam r "ISBN" in
  if (String.length ISBN =? 0)%nat then true
  else
    match BookList s !! ISBN with
    | None => true
    | Some _ =>
      match decodeBody json_Decode_Book r with
      | None => true
      | Some _ => (Write "Book updated successfully" w).2
      end
    end.

(** The routes of [RunServer], as calls of the handlers; the two handlers
    that read the clock carry its reading. *)
Inductive Call :=
| CallSignIn
| CallLogin (now : Time)
| CallLogout (now : Time)
| CallAddNewBook
| CallUpdateBook
| CallDeleteBook
| CallGetAllBooks.

Definition run `{L : Libs} (c : Call) (w : ResponseWriter) (r : Request) (s : Store)
  : ResponseWriter * Store :=
  match c with
  | CallSignIn => SignIn w r s
  | CallLogin now => Login w r now s
  | CallLogout now => Logout w r now s
  | CallAddNewBook => AddNewBook w r s
  | CallUpdateBook => updateBook w r s
  | CallDeleteBook => deleteBook w r s
  | CallGetAllBooks => getAllBooks w r s
  end.

(** The stores the server can be in: [Init], then one handler call after
    another, each on a response writer and a request of its own. *)
Inductive reachable `{L : Libs} : Store -> Prop :=
| reachable_Init : reachable Init
| reachable_run (s : Store) (c : Call) (w : ResponseWriter) (r : Request) :
    reachable s -> reachable (run c w r s).2.

(** A sequence of calls, each with its response writer and request, from
    the first to the last; the result is the store the last one leaves. *)
Fixpoint runAll `{L : Libs} (calls : list (Call * ResponseWriter * Request))
    (s : Store) : Store :=
  match calls with
  | [] => s
  | (c, w, r) :: calls' => runAll calls' (run c w r s).2
  end.

(** The part of [Login] that follows the password check, named so that the
    lemmas below can speak about it; [Login_password_matches] relates the two. *)
Definition issue `{L : Libs} (w : ResponseWriter) (now : Time) : ResponseWriter :=
  match jwt_Build [Audience ["sabnaj"]; Expiration (Time_Add now (20 * Minute))] with
  | None => Error "Cannot create token" StatusInternalServerError w
  | Some token =>
    match jwt_Sign token HS256 Secret with
    | None => Error "Cannot sign token" StatusInternalServerError w
    | Some signed =>
      WriteHeader StatusOK
        (Write "Login successful"
           (SetCookie {| Cookie.Name := "jwt"; Cookie.Value := signed;
                         Cookie.Expires := Time_Add now (20 * Minute) |} w)).1
    end
  end.

(** One key of one map is written or removed, nothing else. *)
Definition singleKeyChange (s s' : Store) : Prop :=
  (exists u p, CredentialList s' = <[u := p]> (CredentialList s)
               /\ BookList s' = BookList s)
  \/ (exists k b, BookList s' = <[k := b]> (BookList s)
                  /\ CredentialList s' = CredentialList s)
  \/ (exists k, BookList s' = delete k (BookList s)
                /\ CredentialList s' = CredentialList s).

(** A Book Store as [AddNewBook] fills it: every record sits under its own
    ISBN, which is not empty, and has a name and at least one author. *)
Definition wellFormed (s : Store) : Prop :=
  map_Forall (fun (k : string) (b : Book.t) =>
                Book.ISBN b = k /\ k <> "" /\ Book.Name b <> ""
                /\ Book.Authors b <> []) (BookList s).

Definition isUpdate (c : Call) : bool :=
  match c with
  | CallUpdateBook => true
  | _ => false
  end.

(** ** jwx/jws: signing, splitting and parsing a serialization *)

Module jws.

Abbreviation bytes := (list ascii).

(** A returned value or the text of the returned error. *)
Inductive result (A : Type) :=
| Ok (a : A)
| Err (msg : string).
Arguments Ok {A} a.
Arguments Err {A} msg.

(** [fmtInvalid = 1 << iota], [fmtCompact], [fmtJSON], [fmtJSONPretty], [fmtMax]. *)
Definition fmtInvalid : Z := 1.
Definition fmtCompact : Z := 2.
Definition fmtJSON : Z := 4.
Definition fmtJSONPretty : Z := 8.
Definition fmtMax : Z := 16.

(** [jwa.SignatureAlgorithm] is a string type; [jwa.NoSignature] is "none". *)
Definition NoSignature : string := "none".

(** The [alg] of [WithKey] is a [jwa.KeyAlgorithm]: a signature algorithm
    or an algorithm of another family. *)
Inductive KeyAlgorithm :=
| SignatureAlg (alg : string)
| OtherAlg (name : string).

(** *** bytes *)

(** [bytes.IndexByte]: the index of the first [c] in [s]; [None] for -1. *)
Fixpoint IndexByte (s : bytes) (c : ascii) : option nat :=
  match s with
  | [] => None
  | b :: s' => if Ascii.eqb b c then Some 0%nat else S <$> IndexByte s' c
  end.

(** [bytes.Index]: the index of the first instance of [sep] in [s]. *)
Fixpoint Index (s sep : bytes) : option nat :=
  match s with
  | [] => if bool_decide (sep = []) then Some 0%nat else None
  | _ :: s' =>
    if bool_decide (sep `prefix_of` s) then Some 0%nat else S <$> Index s' sep
  end.

(** [bytes.Cut]: [s] around the first instance of [sep]. *)
Definition Cut (s sep : bytes) : bytes * bytes * bool :=
  match Index s sep with
  | Some i => (take i s, drop (i + length sep) s, true)
  | None => (s, [], false)
  end.

(** *** SplitCompact *)

Definition tokenDelim : bytes := ["."%char].

Definition SplitCompact (src : bytes) : result (bytes * bytes * bytes) :=
  let '(protected, s, ok) := Cut src tokenDelim in
  if negb ok then (* no period found *)
    Err "invalid number of segments"
  else
    let '(payload, s, ok) := Cut s tokenDelim in
    if negb ok then (* only one period found *)
      Err "invalid number of segments"
    else
      let '(signature, _, ok) := Cut s tokenDelim in
      if ok then (* three periods found *)
        Err "invalid number of segments"
      else Ok (protected, payload, signature).

Definition SplitCompactString (src : string) : result (bytes * bytes * bytes) :=
  SplitCompact (list_ascii_of_string src).

(** *** SplitCompactReader *)

(** What a call of [rdr.Read(buf)] returns besides the bytes: nil ([None]),
    [io.EOF] or another error. *)
Inductive ioError :=
| EOF
| ReadError (msg : string).

(** An [io.Reader]: one of the in-memory readers that [readAll] reads at
    once ([*bytes.Reader], [*bytes.Buffer], [*strings.Reader]), or any other
    reader, given by what its calls of [Read] return, in order. *)
Inductive Reader :=
| InMemory (data : bytes)
| Stream (reads : list (bytes * option ioError)).

Definition readAll (rdr : Reader) : option bytes :=
  match rdr with
  | InMemory data => Some data
  | Stream _ => None
  end.

(** The variables of [SplitCompactReader]'s loop. *)
Module Splitter.
Record t := mk {
  protected : bytes;
  payload : bytes;
  signature : bytes;
  periods : nat;
  state : nat;
  sofar : bytes
}.
End Splitter.

Definition newSplitter : Splitter.t :=
  Splitter.mk [] [] [] 0 0 [].

(** The end of the inner loop's body: the segment [sofar[:i]] goes to the
    variable that [state] names, and the buffer is shortened past [i]. *)
Definition capture (sp : Splitter.t) (i : nat) : Splitter.t :=
  let seg := take i (Splitter.sofar sp) in
  let sp :=
    match Splitter.state sp with
    | 0%nat => Splitter.mk seg (Splitter.payload sp) (Splitter.signature sp)
                 (Splitter.periods sp) 1 (Splitter.sofar sp)
    | 1%nat => Splitter.mk (Splitter.protected sp) seg (Splitter.signature sp)
                 (Splitter.periods sp) 2 (Splitter.sofar sp)
    | 2%nat => Splitter.mk (Splitter.protected sp) (Splitter.payload sp) seg
                 (Splitter.periods sp) 2 (Splitter.sofar sp)
    | _ => sp
    end in
  if (i <? length (Splitter.sofar sp))%nat then
    Splitter.mk (Splitter.protected sp) (Splitter.payload sp) (Splitter.signature sp)
      (Splitter.periods sp) (Splitter.state sp) (drop (i + 1) (Splitter.sofar sp))
  else sp.

Definition countPeriod (sp : Splitter.t) : Splitter.t :=
  Splitter.mk (Splitter.protected sp) (Splitter.payload sp) (Splitter.signature sp)
    (S (Splitter.periods sp)) (Splitter.state sp) (Splitter.sofar sp).

(** The inner loop, [for loop := true; loop; { ... }]. Every turn but the
    last shortens [sofar], so [S (length sofar)] turns are enough. *)
Fixpoint innerLoop (fuel : nat) (eof : bool) (sp : Splitter.t) : Splitter.t :=
  match fuel with
  | O => sp
  | S fuel' =>
    match IndexByte (Splitter.sofar sp) "."%char with
    | None =>
      if eof then (* no '.' found -> process rest and exit *)
        capture sp (length (Splitter.sofar sp))
      else (* no '.' found -> exit and read next bytes *)
        sp
    | Some i => (* '.' found *)
      innerLoop fuel' eof (capture (countPeriod sp) i)
    end
  end.

(** [sofar = append(sofar, buf[:n]...)] *)
Definition append (sp : Splitter.t) (chunk : bytes) : Splitter.t :=
  Splitter.mk (Splitter.protected sp) (Splitter.payload sp) (Splitter.signature sp)
    (Splitter.periods sp) (Splitter.state sp) (Splitter.sofar sp ++ chunk).

(** The inner loop run on the buffer as it stands. *)
Definition turn (eof : bool) (sp : Splitter.t) : Splitter.t :=
  innerLoop (S (length (Splitter.sofar sp))) eof sp.

(** The outer loop; [None] when the reads run out before an error or the
    end of the input (the reader never ends). *)
Fixpoint readLoop (reads : list (bytes * option ioError)) (sp : Splitter.t)
  : option (result Splitter.t) :=
  match reads with
  | [] => None
  | (chunk, err) :: reads' =>
    match err with
    | Some (ReadError msg) => Some (Err ("unexpected end of input: " +:+ msg))
    | Some EOF => Some (Ok (turn true (append sp chunk)))
    | None => readLoop reads' (turn false (append sp chunk))
    end
  end.

Definition SplitCompactReader (rdr : Reader)
  : option (result (bytes * bytes * bytes)) :=
  match readAll rdr with
  | Some data => Some (SplitCompact data)
  | None =>
    match rdr with
    | InMemory _ => None
    | Stream reads =>
      match readLoop reads newSplitter with
      | None => None
      | Some (Err msg) => Some (Err msg)
      | Some (Ok sp) =>
        if negb (Splitter.periods sp =? 2)%nat then
          Some (Err "invalid number of segments")
        else
          Some (Ok (Splitter.protected sp, Splitter.payload sp, Splitter.signature sp))
      end
    end
  end.

(** *** Messages, and the parts of jwx and of the standard library that the
    functions below call *)

Module Signature.
Record t (Headers : Type) := mk {
  headers : option Headers;
  protected : option Headers;
  signature : bytes;
  detached : bool
}.
Arguments mk {Headers} _ _ _ _.
Arguments headers {Headers} _.
Arguments protected {Headers} _.
Arguments signature {Headers} _.
Arguments detached {Headers} _.
End Signature.

Module Message.
Record t (Headers : Type) := mk {
  payload : option bytes;
  signatures : list (Signature.t Headers);
  b64 : bool
}.
Arguments mk {Headers} _ _ _.
Arguments payload {Headers} _.
Arguments signatures {Headers} _.
Arguments b64 {Headers} _.
End Message.

(** The options of [Parse]: [WithCompact()], [WithJSON()] (an
    [identSerialization] with the format as its value) and any other. *)
Inductive ParseOption :=
| ParseSerialization (format : Z)
| OtherParseOption.

(** The variables of [Verify] that its options set. *)
Module VerifyVars.
Record t (KeyProvider KeyUsed Context : Type) := mk {
  detachedPayload : option bytes;
  keyProviders : list KeyProvider;
  keyUsed : option KeyUsed;
  ctx : Context;
  validateKey : bool;
  parseOptions : list ParseOption
}.
Arguments mk {KeyProvider KeyUsed Context} _ _ _ _ _ _.
Arguments detachedPayload {KeyProvider KeyUsed Context} _.
Arguments keyProviders {KeyProvider KeyUsed Context} _.
Arguments keyUsed {KeyProvider KeyUsed Context} _.
Arguments ctx {KeyProvider KeyUsed Context} _.
Arguments validateKey {KeyProvider KeyUsed Context} _.
Arguments parseOptions {KeyProvider KeyUsed Context} _.
End VerifyVars.

Class Lib := {
  Headers : Type;
  Value : Type;
  Key : Type;
  JwkKey : Type;
  Signer : Type;
  Verifier : Type;
  KeyProvider : Type;
  Context : Type;
  KeyUsed : Type;
  (** [base64.Decode], [base64.EncodeToString] *)
  base64_Decode : bytes -> string + bytes;
  base64_EncodeToString : bytes -> bytes;
  (** [json.Unmarshal(data, hdr)] on [NewHeaders()]; [hdr.Get(name)]; the type
      assertion [v.(bool)] *)
  json_Unmarshal_Headers : bytes -> string + Headers;
  Headers_Get : Headers -> string -> option Value;
  Value_bool : Value -> option bool;
  (** [json.Unmarshal(data, &m)] on a zero [Message] *)
  json_Unmarshal_Message : bytes -> string + Message.t Headers;
  (** [unicode.IsSpace] and the rune of [utf8.DecodeRune] *)
  unicode_IsSpace : Z -> bool;
  utf8_DecodeRune : bytes -> Z;
  (** [NewSigner(alg)], [noneSigner{}] *)
  NewSigner : string -> string + Signer;
  noneSigner : Signer;
  (** [protected.Set(AlgorithmKey, signer.Algorithm())], on [NewHeaders()]
      when [protected] is nil; and [protected.Set(KeyIDKey, kid)] when the key
      is a [jwk.Key] with a key id *)
  Headers_Set_alg : option Headers -> Signer -> string + Headers;
  Headers_Set_kid : Headers -> option Key -> string + Headers;
  (** [key.(jwk.Key)], [jwk.FromRaw(key)], [jwkKey.Validate()] *)
  Key_asJwk : option Key -> option JwkKey;
  jwk_FromRaw : option Key -> string + JwkKey;
  JwkKey_Validate : JwkKey -> option string;
  (** [sig.Sign(payload, signer, key)] *)
  Signature_Sign : Signature.t Headers -> option bytes -> Signer -> option Key
                   -> string + Signature.t Headers;
  (** [json.Marshal], [json.MarshalIndent] and [Compact] of a message *)
  json_Marshal_Message : Message.t Headers -> string + bytes;
  json_MarshalIndent_Message : Message.t Headers -> string + bytes;
  Compact : Message.t Headers -> bool -> string + bytes;
  (** [&staticKeyProvider{alg, key}], [kp.FetchKeys(ctx, &sink, sig, msg)] with
      the pairs it leaves in the sink, [context.Background()] *)
  staticKeyProvider : string -> Key -> KeyProvider;
  FetchKeys : KeyProvider -> Context -> Signature.t Headers -> Message.t Headers
              -> string + list (string * Key);
  Background : Context;
  (** the raw buffer of a protected header, when it has one that is not nil;
      [json.Marshal(sig.protected)] *)
  rawBuffer : option Headers -> option bytes;
  json_Marshal_Headers : option Headers -> string + bytes;
  (** [NewVerifier(alg)]; [verifier.Verify(buf, signature, key)], [true] for a
      nil error and the error's text otherwise *)
  NewVerifier : string -> string + Verifier;
  Verifier_Verify : Verifier -> bytes -> bytes -> Key -> option string;
  (** [blackmagic.AssignIfCompatible(keyUsed, key)] *)
  AssignIfCompatible : KeyUsed -> Key -> option string
}.

Section Functions.
Context `{Lb : Lib}.

(** *** validateKeyBeforeUse *)

Definition validateKeyBeforeUse (key : option Key) : option string :=
  match Key_asJwk key with
  | Some jwkKey => JwkKey_Validate jwkKey
  | None =>
    match jwk_FromRaw key with
    | inl err => Some ("could not convert key to jwk.Key for validation: " +:+ err)
    | inr converted => JwkKey_Validate converted
    end
  end.

(** *** Sign *)

Record payloadSigner := mkPayloadSigner {
  signer : Signer;
  key : option Key;
  protected : option Headers;
  public : option Headers
}.

Inductive SignOption :=
| WithSerialization (format : Z)
| WithInsecureNoSignature (protected : option Headers)
| WithKey (alg : KeyAlgorithm) (key : Key) (public protected : option Headers)
| WithDetachedPayload (payload : option bytes)
| WithValidateKey (v : bool)
| OtherSignOption.

(** Why [Sign] returns an error. *)
Inductive SignError :=
| NotSignatureAlgorithm   (* expected algorithm to be of type jwa.SignatureAlgorithm *)
| NoneWithKey             (* "none" (jwa.NoSignature) cannot be used with jws.WithKey *)
| MakeSignerFailed (why : string)    (* failed to create signer *)
| PayloadNotNil           (* payload must be nil when WithDetachedPayload is specified *)
| NoSigners               (* no signers available *)
| MultipleSigners         (* cannot have multiple signers for compact serialization *)
| SetAlgFailed (why : string)        (* failed to set "alg" header *)
| SetKidFailed (why : string)        (* failed to set "kid" header *)
| KeyInvalid (why : string)          (* the key does not validate *)
| SignatureFailed (i : nat) (why : string)  (* failed to generate signature for signer #i *)
| SerializeFailed (why : string)
| InvalidFormat.          (* invalid serialization format *)

(** [makeSigner], on the package's table [signers] of the signers made so
    far: the table answers first, [NewSigner] otherwise, and its signer is
    kept. *)
Definition makeSigner (signers : gmap string Signer) (alg : string) (key : Key)
    (public protected : option Headers)
  : (string + payloadSigner) * gmap string Signer :=
  match signers !! alg with
  | Some sg => (inr (mkPayloadSigner sg (Some key) protected public), signers)
  | None =>
    match NewSigner alg with
    | inl err => (inl ("failed to create payload signer: " +:+ err), signers)
    | inr v =>
      (inr (mkPayloadSigner v (Some key) protected public), <[alg := v]> signers)
    end
  end.

(** The local variables of [Sign] that the options set. *)
Record settings := mkSettings {
  payload : option bytes;
  format : Z;
  signers : list payloadSigner;
  detached : bool;
  noneSignature : option payloadSigner;
  validateKey : bool
}.

(** The loop over the options. *)
Fixpoint readOptions (options : list SignOption) (st : settings)
    (table : gmap string Signer) : (SignError + settings) * gmap string Signer :=
  match options with
  | [] => (inr st, table)
  | option :: options' =>
    match option with
    | WithSerialization f =>
      readOptions options'
        (mkSettings (payload st) f (signers st)
           (detached st) (noneSignature st)
           (validateKey st)) table
    | WithInsecureNoSignature prot =>
      (* only the last one is used (we overwrite previous values) *)
      readOptions options'
        (mkSettings (payload st) (format st) (signers st)
           (detached st)
           (Some (mkPayloadSigner noneSigner None prot None))
           (validateKey st)) table
    | WithKey (OtherAlg _) _ _ _ => (inl NotSignatureAlgorithm, table)
    | WithKey (SignatureAlg alg) k pub prot =>
      (* No, we don't accept "none" here. *)
      if String.eqb alg NoSignature then (inl NoneWithKey, table)
      else
        match makeSigner table alg k pub prot with
        | (inl err, table') => (inl (MakeSignerFailed err), table')
        | (inr ps, table') =>
          readOptions options'
            (mkSettings (payload st) (format st)
               (signers st ++ [ps]) (detached st)
               (noneSignature st) (validateKey st)) table'
        end
    | WithDetachedPayload p =>
      match payload st with
      | Some _ => (inl PayloadNotNil, table)
      | None =>
        readOptions options'
          (mkSettings p (format st) (signers st) true
             (noneSignature st) (validateKey st)) table
      end
    | WithValidateKey v =>
      readOptions options'
        (mkSettings (payload st) (format st) (signers st)
           (detached st) (noneSignature st) v) table
    | OtherSignOption => readOptions options' st table
    end
  end.

(** The body of the loop over the signers, for signer number [i]. *)
Definition signOne (st : settings) (i : nat) (ps : payloadSigner)
  : SignError + Signature.t Headers :=
  match Headers_Set_alg (protected ps) (signer ps) with
  | inl err => inl (SetAlgFailed err)
  | inr protected =>
    match Headers_Set_kid protected (key ps) with
    | inl err => inl (SetKidFailed err)
    | inr protected =>
      let sig := Signature.mk (public ps) (Some protected) [] (detached st) in
      match (if validateKey st then validateKeyBeforeUse (key ps) else None) with
      | Some err => inl (KeyInvalid err)
      | None =>
        match Signature_Sign sig (payload st) (signer ps) (key ps) with
        | inl err => inl (SignatureFailed i err)
        | inr sig => inr sig
        end
      end
    end
  end.

(** The loop over the signers: the first failure ends it. *)
Fixpoint signAll (st : settings) (i : nat) (todo : list payloadSigner)
    (done : list (Signature.t Headers)) : SignError + list (Signature.t Headers) :=
  match todo with
  | [] => inr done
  | ps :: todo' =>
    match signOne st i ps with
    | inl err => inl err
    | inr sig => signAll st (S i) todo' (done ++ [sig])
    end
  end.

Definition serialize (st : settings) (result : Message.t Headers)
  : SignError + bytes :=
  let wrap (r : string + bytes) : SignError + bytes :=
    match r with
    | inl err => inl (SerializeFailed err)
    | inr out => inr out
    end in
  if (format st =? fmtJSON)%Z then wrap (json_Marshal_Message result)
  else if (format st =? fmtJSONPretty)%Z then
    wrap (json_MarshalIndent_Message result)
  else if (format st =? fmtCompact)%Z then
    wrap (Compact result (detached st))
  else inl InvalidFormat.

(** [Sign], given the table of signers and returning it. *)
Definition Sign (data : option bytes) (options : list SignOption)
    (table : gmap string Signer) : (SignError + bytes) * gmap string Signer :=
  match readOptions options (mkSettings data fmtCompact [] false None false)
          table with
  | (inl err, table') => (inl err, table')
  | (inr st, table') =>
    let all :=
      match noneSignature st with
      | Some none => (signers st ++ [none])%list
      | None => signers st
      end in
    let lsigner := length all in
    if (lsigner =? 0)%nat then (inl NoSigners, table')
    else if (format st =? fmtCompact)%Z && negb (lsigner =? 1)%nat then
      (inl MultipleSigners, table')
    else
      match signAll st 0 all [] with
      | inl err => (inl err, table')
      | inr sigs =>
        (serialize st (Message.mk (payload st) sigs false), table')
      end
  end.

(** What the options ask for: a [WithKey] that can be used (a signature
    algorithm other than "none"), and how many signers they name. *)
Definition usableKey (option : SignOption) : Prop :=
  match option with
  | WithKey (SignatureAlg alg) _ _ _ => alg <> NoSignature
  | WithKey (OtherAlg _) _ _ _ => False
  | _ => True
  end.

Definition isKey (option : SignOption) : bool :=
  match option with
  | WithKey _ _ _ _ => true
  | _ => false
  end.

Definition isNone (option : SignOption) : bool :=
  match option with
  | WithInsecureNoSignature _ => true
  | _ => false
  end.

Definition isSerialization (option : SignOption) : bool :=
  match option with
  | WithSerialization _ => true
  | _ => false
  end.

Definition isDetached (option : SignOption) : bool :=
  match option with
  | WithDetachedPayload _ => true
  | _ => false
  end.

Definition signerCount (options : list SignOption) : nat :=
  length (filter (fun o => isKey o = true) options)
  + (if existsb isNone options then 1 else 0).

(** The keys the options hand over, in order, and whether the options ask
    for their validation (the last [WithValidateKey] decides). *)
Fixpoint keysOf (options : list SignOption) : list (option Key) :=
  match options with
  | [] => []
  | WithKey _ k _ _ :: options' => Some k :: keysOf options'
  | _ :: options' => keysOf options'
  end.

Fixpoint validating (options : list SignOption) (v : bool) : bool :=
  match options with
  | [] => v
  | WithValidateKey v' :: options' => validating options' v'
  | _ :: options' => validating options' v
  end.

(** *** Parse *)

(** get the value of b64 header field. If the field does not exist, returns
    true (default). Otherwise return the value specified by the header
    field. *)
Definition getB64Value (hdr : Headers) : bool :=
  match Headers_Get hdr "b64" with
  | None => true (* default *)
  | Some b64raw =>
    match Value_bool b64raw with
    | None => false
    | Some b64 => b64
    end
  end.

Definition parse (protected payload signature : bytes) : result (Message.t Headers) :=
  match base64_Decode protected with
  | inl err => Err ("failed to decode protected headers: " +:+ err)
  | inr decodedHeader =>
    match json_Unmarshal_Headers decodedHeader with
    | inl err => Err ("failed to parse JOSE headers: " +:+ err)
    | inr hdr =>
      let b64 := getB64Value hdr in
      match (if negb b64 then inr payload else base64_Decode payload) with
      | inl err => Err ("failed to decode payload: " +:+ err)
      | inr decodedPayload =>
        match base64_Decode signature with
        | inl err => Err ("failed to decode signature: " +:+ err)
        | inr decodedSignature =>
          Ok (Message.mk (Some decodedPayload)
                [Signature.mk None (Some hdr) decodedSignature false] b64)
        end
      end
    end
  end.

Definition parseCompact (data : bytes) : result (Message.t Headers) :=
  match SplitCompact data with
  | Err err => Err ("invalid compact serialization format: " +:+ err)
  | Ok (protected, payload, signature) => parse protected payload signature
  end.

Definition parseJSON (data : bytes) : result (Message.t Headers) :=
  match json_Unmarshal_Message data with
  | inl err => Err ("failed to unmarshal jws message: " +:+ err)
  | inr m => Ok m
  end.

(** The formats the options of [Parse] ask for, or-ed together. *)
Fixpoint formatsOf (options : list ParseOption) (formats : Z) : Z :=
  match options with
  | [] => formats
  | ParseSerialization f :: options' =>
    formatsOf options'
      (if (f =? fmtJSON)%Z then Z.lor formats fmtJSON
       else if (f =? fmtCompact)%Z then Z.lor formats fmtCompact
       else formats)
  | OtherParseOption :: options' => formatsOf options' formats
  end.

(** [utf8.RuneSelf] *)
Definition RuneSelf : Z := 128.

(** [rune(b)] for a byte [b] *)
Definition runeOf (b : ascii) : Z := Z.of_nat (nat_of_ascii b).

(** The loop of the automatic detection, over the bytes [rest] of [src]
    that are still to be looked at. *)
Fixpoint detect (src rest : bytes) : result (Message.t Headers) :=
  match rest with
  | [] => Err "invalid byte sequence"
  | b :: rest' =>
    let r := runeOf b in
    let r := if (RuneSelf <=? r)%Z then utf8_DecodeRune src else r in
    if negb (unicode_IsSpace r) then
      if (r =? 123)%Z (* '{' *) then parseJSON src else parseCompact src
    else detect src rest'
  end.

Definition Parse (src : bytes) (options : list ParseOption)
  : result (Message.t Headers) :=
  let formats := formatsOf options 0 in
  (* if format is 0 or both JSON/Compact, auto detect *)
  let v := Z.land formats (Z.lor fmtJSON fmtCompact) in
  if (v =? 0)%Z || (v =? Z.lor fmtJSON fmtCompact)%Z then detect src src
  else if (Z.land formats fmtCompact =? fmtCompact)%Z then parseCompact src
  else if (Z.land formats fmtJSON =? fmtJSON)%Z then parseJSON src
  else Err "invalid byte sequence".

Definition ParseString (src : string) : result (Message.t Headers) :=
  Parse (list_ascii_of_string src) [].

(** *** Verify

    [WithMessage(dst)] makes [Verify] copy the message to [dst] before it
    returns the payload; [dst] is never read, and the copy is not part of the
    model. The pairs a key provider leaves in the sink carry a signature
    algorithm (the source asserts this type without a check). *)

Inductive VerifyOption :=
| VerifyWithMessage
| VerifyWithDetachedPayload (p : option bytes)
| VerifyWithKey (alg : KeyAlgorithm) (k : Key)
| VerifyWithKeyProvider (kp : KeyProvider)
| VerifyWithKeyUsed (v : KeyUsed)
| VerifyWithContext (c : Context)
| VerifyWithValidateKey (v : bool)
| VerifyWithSerialization (format : Z)
| OtherVerifyOption.

(** Why [Verify] returns an error; [NotVerified] is the [verifyError] with
    the errors of the failed verifications. *)
Inductive VerifyError :=
| KeyNotSignatureAlgorithm
| InvalidVerifyOption
| NoKeyProviders
| ParseFailed (why : string)
| DetachedWithPayload
| MarshalProtectedFailed (i : nat) (why : string)
| KeyProviderFailed (i : nat) (why : string)
| VerifyKeyInvalid (why : string)
| NewVerifierFailed (why : string)
| AssignKeyFailed (why : string)
| NotVerified (errs : list string).

Abbreviation verifyVars := (VerifyVars.t KeyProvider KeyUsed Context).

(** The loop over the options. *)
Fixpoint readVerifyOptions (options : list VerifyOption) (vs : verifyVars)
  : VerifyError + verifyVars :=
  match options with
  | [] => inr vs
  | option :: options' =>
    match option with
    | VerifyWithMessage => readVerifyOptions options' vs
    | VerifyWithDetachedPayload p =>
      readVerifyOptions options'
        (VerifyVars.mk p (VerifyVars.keyProviders vs) (VerifyVars.keyUsed vs)
           (VerifyVars.ctx vs) (VerifyVars.validateKey vs) (VerifyVars.parseOptions vs))
    | VerifyWithKey (OtherAlg _) _ => inl KeyNotSignatureAlgorithm
    | VerifyWithKey (SignatureAlg alg) k =>
      readVerifyOptions options'
        (VerifyVars.mk (VerifyVars.detachedPayload vs)
           (VerifyVars.keyProviders vs ++ [staticKeyProvider alg k])
           (VerifyVars.keyUsed vs) (VerifyVars.ctx vs) (VerifyVars.validateKey vs)
           (VerifyVars.parseOptions vs))
    | VerifyWithKeyProvider kp =>
      readVerifyOptions options'
        (VerifyVars.mk (VerifyVars.detachedPayload vs)
           (VerifyVars.keyProviders vs ++ [kp])
           (VerifyVars.keyUsed vs) (VerifyVars.ctx vs) (VerifyVars.validateKey vs)
           (VerifyVars.parseOptions vs))
    | VerifyWithKeyUsed v =>
      readVerifyOptions options'
        (VerifyVars.mk (VerifyVars.detachedPayload vs) (VerifyVars.keyProviders vs)
           (Some v) (VerifyVars.ctx vs) (VerifyVars.validateKey vs)
           (VerifyVars.parseOptions vs))
    | VerifyWithContext c =>
      readVerifyOptions options'
        (VerifyVars.mk (VerifyVars.detachedPayload vs) (VerifyVars.keyProviders vs)
           (VerifyVars.keyUsed vs) c (VerifyVars.validateKey vs)
           (VerifyVars.parseOptions vs))
    | VerifyWithValidateKey v =>
      readVerifyOptions options'
        (VerifyVars.mk (VerifyVars.detachedPayload vs) (VerifyVars.keyProviders vs)
           (VerifyVars.keyUsed vs) (VerifyVars.ctx vs) v (VerifyVars.parseOptions vs))
    | VerifyWithSerialization f =>
      readVerifyOptions options'
        (VerifyVars.mk (VerifyVars.detachedPayload vs) (VerifyVars.keyProviders vs)
           (VerifyVars.keyUsed vs) (VerifyVars.ctx vs) (VerifyVars.validateKey vs)
           (VerifyVars.parseOptions vs ++ [ParseSerialization f]))
    | OtherVerifyOption => inl InvalidVerifyOption
    end
  end.

(** How a loop of [Verify] ends: with the verified key (and [Verify]
    returns the payload), with an error that [Verify] returns, or at its end,
    with the errors of the verifications that failed. *)
Inductive outcome :=
| Verified (k : Key)
| Failed (err : VerifyError)
| Unverified (errs : list string).

(** The base64 text of the protected header of a signature. *)
Definition encodedProtectedHeader (sig : Signature.t Headers) : string + bytes :=
  let encoded :=
    match rawBuffer (Signature.protected sig) with
    | Some raw => base64_EncodeToString raw
    | None => []
    end in
  match encoded with
  | [] =>
    match json_Marshal_Headers (Signature.protected sig) with
    | inl err => inl err
    | inr protected => inr (base64_EncodeToString protected)
    end
  | _ => inr encoded
  end.

(** The loop over the pairs a key provider has left in the sink. *)
Fixpoint tryKeys (vs : verifyVars) (buf signature : bytes)
    (pairs : list (string * Key)) (errs : list string) : outcome :=
  match pairs with
  | [] => Unverified errs
  | (alg, k) :: pairs' =>
    match (if VerifyVars.validateKey vs then validateKeyBeforeUse (Some k)
           else None) with
    | Some err => Failed (VerifyKeyInvalid err)
    | None =>
      match NewVerifier alg with
      | inl err => Failed (NewVerifierFailed err)
      | inr verifier =>
        match Verifier_Verify verifier buf signature k with
        | Some err => tryKeys vs buf signature pairs' (errs ++ [err])
        | None =>
          match VerifyVars.keyUsed vs with
          | None => Verified k
          | Some ku =>
            match AssignIfCompatible ku k with
            | Some err => Failed (AssignKeyFailed err)
            | None => Verified k
            end
          end
        end
      end
    end
  end.

(** The loop over the key providers, for one signature. *)
Fixpoint tryProviders (vs : verifyVars) (msg : Message.t Headers)
    (sig : Signature.t Headers) (buf : bytes) (i : nat) (kps : list KeyProvider)
    (errs : list string) : outcome :=
  match kps with
  | [] => Unverified errs
  | kp :: kps' =>
    match FetchKeys kp (VerifyVars.ctx vs) sig msg with
    | inl err => Failed (KeyProviderFailed i err)
    | inr pairs =>
      match tryKeys vs buf (Signature.signature sig) pairs errs with
      | Unverified errs' => tryProviders vs msg sig buf (S i) kps' errs'
      | done => done
      end
    end
  end.

(** The loop over the signatures of the message; [payload] is the payload
    as it was signed (in base64 unless the message says otherwise). *)
Fixpoint trySignatures (vs : verifyVars) (msg : Message.t Headers) (payload : bytes)
    (i : nat) (sigs : list (Signature.t Headers)) (errs : list string) : outcome :=
  match sigs with
  | [] => Unverified errs
  | sig :: sigs' =>
    match encodedProtectedHeader sig with
    | inl err => Failed (MarshalProtectedFailed (i + 1) err)
    | inr encoded =>
      let verifyBuf := (encoded ++ "."%char :: payload)%list in
      match tryProviders vs msg sig verifyBuf 0 (VerifyVars.keyProviders vs) errs with
      | Unverified errs' => trySignatures vs msg payload (S i) sigs' errs'
      | done => done
      end
    end
  end.

(** The payload of the message once a detached payload was given: an error
    when the message has a payload of its own. *)
Definition withDetachedPayload (vs : verifyVars) (msg : Message.t Headers)
  : VerifyError + Message.t Headers :=
  match VerifyVars.detachedPayload vs with
  | None => inr msg
  | Some detachedPayload =>
    if negb (length (default [] (Message.payload msg)) =? 0)%nat then
      inl DetachedWithPayload
    else
      inr (Message.mk (Some detachedPayload) (Message.signatures msg)
             (Message.b64 msg))
  end.

(** Pre-compute the base64 encoded version of payload *)
Definition signedPayload (msg : Message.t Headers) : bytes :=
  if Message.b64 msg then base64_EncodeToString (default [] (Message.payload msg))
  else default [] (Message.payload msg).

Definition Verify (buf : bytes) (options : list VerifyOption)
  : VerifyError + option bytes :=
  match readVerifyOptions options (VerifyVars.mk None [] None Background false []) with
  | inl err => inl err
  | inr vs =>
    if (length (VerifyVars.keyProviders vs) <? 1)%nat then inl NoKeyProviders
    else
      match Parse buf (VerifyVars.parseOptions vs) with
      | Err err => inl (ParseFailed err)
      | Ok msg =>
        match withDetachedPayload vs msg with
        | inl err => inl err
        | inr msg =>
          match trySignatures vs msg (signedPayload msg) 0 (Message.signatures msg) [] with
          | Verified _ => inr (Message.payload msg)
          | Failed err => inl err
          | Unverified errs => inl (NotVerified errs)
          end
        end
      end
  end.

(** What the options of [Parse] and of [Verify] ask for. *)
Definition wantsJSON (option : ParseOption) : bool :=
  match option with
  | ParseSerialization f => (f =? fmtJSON)%Z
  | OtherParseOption => false
  end.

Definition wantsCompact (option : ParseOption) : bool :=
  match option with
  | ParseSerialization f => (f =? fmtCompact)%Z
  | OtherParseOption => false
  end.

Definition providersOf (options : list VerifyOption) : list KeyProvider :=
  options ≫= fun option =>
    match option with
    | VerifyWithKey (SignatureAlg alg) k => [staticKeyProvider alg k]
    | VerifyWithKeyProvider kp => [kp]
    | _ => []
    end.

End Functions.

(** *** A small instance of the libraries

    The base64 form of a text is the text after an equals sign, a header is
    the list of its fields, a signature is the name of the algorithm followed
    by the key, and a key provider is the list of its pairs. *)

Definition toyMac (alg key : string) : bytes := list_ascii_of_string (alg +:+ ":" +:+ key).

Definition toyHeaders (data : bytes) : string + list (string * string) :=
  let text := string_of_list_ascii data in
  if String.eqb text "{alg:HS256}" then inr [("alg", "HS256")]
  else if String.eqb text "{alg:HS256,b64:false}" then
    inr [("alg", "HS256"); ("b64", "false")]
  else if String.eqb text "{alg:none}" then inr [("alg", "none")]
  else inl "invalid character".

Fixpoint toyGet (h : list (string * string)) (name : string) : option string :=
  match h with
  | [] => None
  | (n, v) :: h' => if String.eqb n name then Some v else toyGet h' name
  end.

Definition toySpace (r : Z) : bool :=
  (r =? 9)%Z || (r =? 10)%Z || (r =? 11)%Z || (r =? 12)%Z || (r =? 13)%Z
  || (r =? 32)%Z || (r =? 133)%Z || (r =? 160)%Z.

#[export] Instance sample : Lib := {|
  Headers := list (string * string);
  Value := string;
  Key := string;
  JwkKey := string;
  Signer := string;
  Verifier := string;
  KeyProvider := list (string * string);
  Context := unit;
  KeyUsed := unit;
  base64_Decode := fun data =>
    match data with
    | [] => inr []
    | c :: data' => if Ascii.eqb c "="%char then inr data' else inl "illegal base64 data"
    end;
  base64_EncodeToString := fun data =>
    match data with
    | [] => []
    | _ => "="%char :: data
    end;
  json_Unmarshal_Headers := toyHeaders;
  Headers_Get := toyGet;
  Value_bool := fun v =>
    if String.eqb v "true" then Some true
    else if String.eqb v "false" then Some false else None;
  json_Unmarshal_Message := fun _ => inl "unexpected end of JSON input";
  unicode_IsSpace := toySpace;
  utf8_DecodeRune := fun src =>
    match src with
    | b :: _ => if (runeOf b <? 128)%Z then runeOf b else 65533
    | [] => 65533
    end;
  NewSigner := fun alg =>
    if String.eqb alg "HS256" then inr alg else inl "unsupported signature algorithm";
  noneSigner := "none";
  Headers_Set_alg := fun protected sg => inr (("alg", sg) :: default [] protected);
  Headers_Set_kid := fun protected _ => inr protected;
  Key_asJwk := fun _ => None;
  jwk_FromRaw := fun key =>
    match key with
    | Some k => inr k
    | None => inl "nil key"
    end;
  JwkKey_Validate := fun k => if String.eqb k EmptyString then Some "missing key" else None;
  Signature_Sign := fun sig _ sg key =>
    inr (Signature.mk (Signature.headers sig) (Signature.protected sig)
           (toyMac sg (default EmptyString key)) (Signature.detached sig));
  json_Marshal_Message := fun _ => inr (list_ascii_of_string "{}");
  json_MarshalIndent_Message := fun _ => inr (list_ascii_of_string "{ }");
  Compact := fun msg _ =>
    match Message.signatures msg with
    | [sig] =>
      inr (list_ascii_of_string "={alg:HS256}" ++ "."%char
           :: "="%char :: default [] (Message.payload msg) ++ "."%char
           :: "="%char :: Signature.signature sig)%list
    | _ => inl "cannot serialize multiple signatures"
    end;
  staticKeyProvider := fun alg key => [(alg, key)];
  FetchKeys := fun kp _ _ _ => inr kp;
  Background := tt;
  rawBuffer := fun _ => None;
  json_Marshal_Headers := fun _ => inr (list_ascii_of_string "{alg:HS256}");
  NewVerifier := fun alg =>
    if String.eqb alg "HS256" then inr alg else inl "unsupported signature algorithm";
  Verifier_Verify := fun v _ signature key =>
    if bool_decide (signature = toyMac v key) then None
    else Some "failed to match hmac signature";
  AssignIfCompatible := fun _ _ => None
|}.

End jws.

(** ** Facts about the response writer *)

Lemma length_zero_iff (x : string) : (String.length x =? 0)%nat = true <-> x = "".
Proof.
  destruct x; simpl; split; intros H; try reflexivity; discriminate H.
Qed.

Lemma length_zero_false (x : string) : x <> "" -> (String.length x =? 0)%nat = false.
Proof.
  intros Hx. destruct (String.length x =? 0)%nat eqn:E; [|reflexivity].
  apply length_zero_iff in E. contradiction.
Qed.

Lemma list_zero_iff {A : Type} (l : list A) : (length l =? 0)%nat = true <-> l = [].
Proof.
  destruct l; simpl; split; intros H; try reflexivity; discriminate H.
Qed.

Lemma status_WriteHeader (code : Z) (w : ResponseWriter) :
  status (WriteHeader code w) = Some (default code (status w)).
Proof. unfold WriteHeader. destruct (status w) eqn:E; simpl; [exact E | reflexivity]. Qed.

Lemma cookies_WriteHeader (code : Z) (w : ResponseWriter) :
  cookies (WriteHeader code w) = cookies w.
Proof. unfold WriteHeader. destruct (status w); reflexivity. Qed.

Lemma body_WriteHeader (code : Z) (w : ResponseWriter) :
  body (WriteHeader code w) = body w.
Proof. unfold WriteHeader. destruct (status w); reflexivity. Qed.

Lemma status_Write (data : string) (w : ResponseWriter) :
  status (fst (Write data w)) = Some (default StatusOK (status w)).
Proof.
  unfold Write. destruct (writeFails _); simpl; apply status_WriteHeader.
Qed.

Lemma cookies_Write (data : string) (w : ResponseWriter) :
  cookies (fst (Write data w)) = cookies w.
Proof.
  unfold Write. destruct (writeFails _); simpl; apply cookies_WriteHeader.
Qed.

Lemma status_Error (msg : string) (code : Z) (w : ResponseWriter) :
  status w = None -> status (Error msg code w) = Some code.
Proof.
  intros Hw. unfold Error. rewrite status_Write, status_WriteHeader.
  unfold Header_Set, Header_Del. rewrite Hw. reflexivity.
Qed.

Lemma written_fixed (k v msg : string) (code : Z) (c : Cookie.t) (w : ResponseWriter) :
  is_Some (status w) ->
  Header_Set k v w = w /\ Header_Del k w = w /\ SetCookie c w = w
  /\ WriteHeader code w = w.
Proof.
  intros [z Hw]. unfold Header_Set, Header_Del, SetCookie, WriteHeader.
  rewrite Hw. repeat split.
Qed.

Lemma Error_written (msg : string) (code : Z) (w : ResponseWriter) :
  is_Some (status w) -> Error msg code w = fst (Write (msg +:+ LF) w).
Proof.
  intros Hw. unfold Error. cbv zeta.
  destruct (written_fixed "Content-Length" "" "" code (Cookie.mk "" "" 0) w Hw)
    as (_ & -> & _ & _).
  destruct (written_fixed "Content-Type" "text/plain; charset=utf-8" "" code
              (Cookie.mk "" "" 0) w Hw) as (-> & _ & _ & _).
  destruct (written_fixed "X-Content-Type-Options" "nosniff" "" code
              (Cookie.mk "" "" 0) w Hw) as (-> & _ & _ & ->).
  reflexivity.
Qed.

Lemma Header_Set_fields (k v : string) (w : ResponseWriter) :
  status (Header_Set k v w) = status w /\ cookies (Header_Set k v w) = cookies w
  /\ body (Header_Set k v w) = body w /\ writeFails (Header_Set k v w) = writeFails w.
Proof.
  unfold Header_Set. destruct (status w) eqn:E; simpl; rewrite ?E; repeat split.
Qed.

Lemma Header_Del_fields (k : string) (w : ResponseWriter) :
  status (Header_Del k w) = status w /\ cookies (Header_Del k w) = cookies w
  /\ body (Header_Del k w) = body w /\ writeFails (Header_Del k w) = writeFails w.
Proof.
  unfold Header_Del. destruct (status w) eqn:E; simpl; rewrite ?E; repeat split.
Qed.

Lemma cookies_Error (msg : string) (code : Z) (w : ResponseWriter) :
  cookies (Error msg code w) = cookies w.
Proof.
  unfold Error. cbv zeta. rewrite cookies_Write, cookies_WriteHeader.
  rewrite (proj1 (proj2 (Header_Set_fields _ _ _))).
  rewrite (proj1 (proj2 (Header_Set_fields _ _ _))).
  apply Header_Del_fields.
Qed.

Lemma writeFails_WriteHeader (code : Z) (w : ResponseWriter) :
  writeFails (WriteHeader code w) = writeFails w.
Proof. unfold WriteHeader. destruct (status w); reflexivity. Qed.

Lemma body_Write (data : string) (w : ResponseWriter) :
  writeFails w = false -> body (fst (Write data w)) = body w +:+ data.
Proof.
  intros Hf. unfold Write. rewrite writeFails_WriteHeader, Hf. simpl.
  rewrite body_WriteHeader. reflexivity.
Qed.

Lemma body_Error (msg : string) (code : Z) (w : ResponseWriter) :
  writeFails w = false -> body (Error msg code w) = body w +:+ msg +:+ LF.
Proof.
  intros Hf. unfold Error. cbv zeta.
  destruct (Header_Del_fields "Content-Length" w) as (_ & _ & Hb0 & Hf0).
  destruct (Header_Set_fields "Content-Type" "text/plain; charset=utf-8"
              (Header_Del "Content-Length" w)) as (_ & _ & Hb1 & Hf1).
  destruct (Header_Set_fields "X-Content-Type-Options" "nosniff"
              (Header_Set "Content-Type" "text/plain; charset=utf-8"
                 (Header_Del "Content-Length" w))) as (_ & _ & Hb2 & Hf2).
  rewrite body_Write.
  - rewrite body_WriteHeader, Hb2, Hb1, Hb0. reflexivity.
  - rewrite writeFails_WriteHeader, Hf2, Hf1, Hf0. exact Hf.
Qed.

Lemma isError_Error (msg : string) (code : Z) (w : ResponseWriter) :
  status w = None -> isError (Error msg code w) = (400 <=? code)%Z.
Proof. intros Hw. unfold isError. rewrite status_Error by exact Hw. reflexivity. Qed.

(** The check on a decoded book, as a proposition. *)
Lemma invalid_entry_iff (book : Book.t) :
  (String.length (Book.Name book) =? 0)%nat
  || (String.length (Book.ISBN book) =? 0)%nat
  || (length (Book.Authors book) =? 0)%nat = true
  <-> Book.Name book = "" \/ Book.ISBN book = "" \/ Book.Authors book = [].
Proof.
  rewrite !orb_true_iff, !length_zero_iff, list_zero_iff. tauto.
Qed.

Lemma valid_entry (book : Book.t) :
  Book.Name book <> "" -> Book.ISBN book <> "" -> Book.Authors book <> [] ->
  (String.length (Book.Name book) =? 0)%nat
  || (String.length (Book.ISBN book) =? 0)%nat
  || (length (Book.Authors book) =? 0)%nat = false.
Proof.
  intros Hn Hi Ha. apply not_true_is_false. rewrite invalid_entry_iff. tauto.
Qed.

(** ** Adding a book *)

(** The three outcomes of [AddNewBook] on a decoded book, as equations. *)
Lemma AddNewBook_invalid `{L : Libs} (w : ResponseWriter) (r : Request) (s : Store)
    (book : Book.t) :
  decodeBody json_Decode_Book r = Some book ->
  Book.Name book = "" \/ Book.ISBN book = "" \/ Book.Authors book = [] ->
  AddNewBook w r s = (Error "Invalid Data Entry" StatusBadRequest w, s).
Proof.
  intros Hdec Hbad. unfold AddNewBook. rewrite Hdec.
  apply invalid_entry_iff in Hbad. rewrite Hbad. reflexivity.
Qed.

Lemma AddNewBook_exists `{L : Libs} (w : ResponseWriter) (r : Request) (s : Store)
    (book : Book.t) :
  decodeBody json_Decode_Book r = Some book ->
  Book.Name book <> "" -> Book.ISBN book <> "" -> Book.Authors book <> [] ->
  is_Some (BookList s !! Book.ISBN book) ->
  AddNewBook w r s = (Error "Book already exists" StatusConflict w, s).
Proof.
  intros Hdec Hn Hi Ha [old Hold]. unfold AddNewBook.
  rewrite Hdec, valid_entry, Hold by assumption. reflexivity.
Qed.

Lemma AddNewBook_fresh `{L : Libs} (w : ResponseWriter) (r : Request) (s : Store)
    (book : Book.t) :
  decodeBody json_Decode_Book r = Some book ->
  Book.Name book <> "" -> Book.ISBN book <> "" -> Book.Authors book <> [] ->
  BookList s !! Book.ISBN book = None ->
  AddNewBook w r s =
    (WriteHeader StatusCreated w,
     {| CredentialList := CredentialList s;
        BookList := <[Book.ISBN book := book]> (BookList s) |}).
Proof.
  intros Hdec Hn Hi Ha Hnew. unfold AddNewBook.
  rewrite Hdec, valid_entry, Hnew by assumption. reflexivity.
Qed.

(** C1, as amended: for every decoded book with a non-empty name, a
    non-empty author list and a (non-empty) ISBN that is already a key of the
    Book Store, [AddNewBook] answers 409 Conflict with the text
    "Book already exists" and leaves both stores as they were, whatever the
    book's name, authors, genre and publisher are. *)
Theorem AddNewBook_existing_ISBN_conflict `{L : Libs} (w : ResponseWriter)
    (r : Request) (s : Store) (book : Book.t) :
  status w = None ->
  decodeBody json_Decode_Book r = Some book ->
  Book.Name book <> "" -> Book.Authors book <> [] -> Book.ISBN book <> "" ->
  is_Some (BookList s !! Book.ISBN book) ->
  status (AddNewBook w r s).1 = Some StatusConflict
  /\ (writeFails w = false ->
      body (AddNewBook w r s).1 = body w +:+ "Book already exists" +:+ LF)
  /\ (AddNewBook w r s).2 = s.
Proof.
  intros Hw Hdec Hn Ha Hi Hex.
  rewrite (AddNewBook_exists w r s book) by assumption. simpl.
  split; [apply status_Error; exact Hw|].
  split; [intros Hf; apply body_Error; exact Hf | reflexivity].
Qed.

Lemma AddNewBook_existing_ISBN_conflict_witness :
  status (AddNewBook (L := sampleLibs) (NewResponse false)
            (post "{name:Book 1,isbn:ISBN 1,authors:[{name:Shahana}],genre:Poetry}")
            Init).1 = Some StatusConflict
  /\ (AddNewBook (L := sampleLibs) (NewResponse false)
            (post "{name:Book 1,isbn:ISBN 1,authors:[{name:Shahana}],genre:Poetry}")
            Init).2 = Init.
Proof.
  pose proof (AddNewBook_existing_ISBN_conflict (L := sampleLibs) (NewResponse false)
                (post "{name:Book 1,isbn:ISBN 1,authors:[{name:Shahana}],genre:Poetry}")
                Init (Book.mk "Book 1" [Author.mk "Shahana" ""] "ISBN 1" "Poetry" ""))
    as H.
  destruct H as (Hs & _ & Hst);
    [reflexivity | reflexivity | discriminate | discriminate | discriminate
    | exists book1; reflexivity | ].
  split; assumption.
Defined.

(** C1, as stated, fails: "ISBN 1" is a key of the initial Book Store, and a
    book with that ISBN but an empty name and no authors is answered
    400 Bad Request ("Invalid Data Entry"), not 409. *)
Lemma AddNewBook_existing_ISBN_empty_fields :
  decodeBody (json_Decode_Book (Libs := sampleLibs)) (post "{isbn:ISBN 1}")
    = Some (Book.mk "" [] "ISBN 1" "" "")
  /\ BookList Init !! "ISBN 1" = Some book1
  /\ status (AddNewBook (L := sampleLibs) (NewResponse false) (post "{isbn:ISBN 1}")
               Init).1 = Some StatusBadRequest
  /\ status (AddNewBook (L := sampleLibs) (NewResponse false) (post "{isbn:ISBN 1}")
               Init).1 <> Some StatusConflict.
Proof.
  repeat split; try reflexivity. vm_compute. discriminate.
Qed.

(** C4: for a decoded book, [AddNewBook] answers 400 when the name, the
    ISBN or the author list is empty; otherwise 409 when the ISBN is a key of
    the Book Store; otherwise it stores the book under its ISBN and answers
    201 Created. The two failures leave the stores as they were. *)
Theorem AddNewBook_spec `{L : Libs} (w : ResponseWriter) (r : Request) (s : Store)
    (book : Book.t) :
  status w = None ->
  decodeBody json_Decode_Book r = Some book ->
  (Book.Name book = "" \/ Book.ISBN book = "" \/ Book.Authors book = [] ->
     status (AddNewBook w r s).1 = Some StatusBadRequest
     /\ (AddNewBook w r s).2 = s)
  /\ (Book.Name book <> "" -> Book.ISBN book <> "" -> Book.Authors book <> [] ->
      is_Some (BookList s !! Book.ISBN book) ->
      status (AddNewBook w r s).1 = Some StatusConflict
      /\ (AddNewBook w r s).2 = s)
  /\ (Book.Name book <> "" -> Book.ISBN book <> "" -> Book.Authors book <> [] ->
      BookList s !! Book.ISBN book = None ->
      status (AddNewBook w r s).1 = Some StatusCreated
      /\ BookList (AddNewBook w r s).2 = <[Book.ISBN book := book]> (BookList s)
      /\ BookList (AddNewBook w r s).2 !! Book.ISBN book = Some book
      /\ CredentialList (AddNewBook w r s).2 = CredentialList s).
Proof.
  intros Hw Hdec. repeat split.
  - rewrite (AddNewBook_invalid w r s book) by assumption. apply status_Error, Hw.
  - rewrite (AddNewBook_invalid w r s book) by assumption. reflexivity.
  - rewrite (AddNewBook_exists w r s book) by assumption. apply status_Error, Hw.
  - rewrite (AddNewBook_exists w r s book) by assumption. reflexivity.
  - rewrite (AddNewBook_fresh w r s book) by assumption. simpl.
    rewrite status_WriteHeader, Hw. reflexivity.
  - rewrite (AddNewBook_fresh w r s book) by assumption. reflexivity.
  - rewrite (AddNewBook_fresh w r s book) by assumption. simpl.
    apply lookup_insert_eq.
  - rewrite (AddNewBook_fresh w r s book) by assumption. reflexivity.
Qed.

Lemma AddNewBook_spec_witness :
  status (AddNewBook (L := sampleLibs) (NewResponse false)
            (post "{name:Dune,isbn:ISBN-9,authors:[{name:Herbert}]}") Init).1
    = Some StatusCreated
  /\ BookList (AddNewBook (L := sampleLibs) (NewResponse false)
            (post "{name:Dune,isbn:ISBN-9,authors:[{name:Herbert}]}") Init).2
       !! "ISBN-9" = Some dune.
Proof.
  pose proof (AddNewBook_spec (L := sampleLibs) (NewResponse false)
                (post "{name:Dune,isbn:ISBN-9,authors:[{name:Herbert}]}") Init dune)
    as H.
  destruct H as (_ & _ & H); [reflexivity | reflexivity | ].
  destruct H as (Hs & _ & Hl & _);
    [discriminate | discriminate | discriminate | vm_compute; reflexivity | ].
  split; assumption.
Defined.

(** ** Updating a book *)

Lemma updateBook_no_ISBN `{L : Libs} (w : ResponseWriter) (r : Request) (s : Store) :
  URLParam r "ISBN" = "" ->
  updateBook w r s = (Error "Invalid ISBN" StatusBadRequest w, s).
Proof. intros Hk. unfold updateBook. rewrite Hk. reflexivity. Qed.

Lemma updateBook_absent `{L : Libs} (w : ResponseWriter) (r : Request) (s : Store) :
  URLParam r "ISBN" <> "" ->
  BookList s !! URLParam r "ISBN" = None ->
  updateBook w r s = (Error "Book does not exist" StatusNotFound w, s).
Proof.
  intros Hk Hnone. unfold updateBook.
  rewrite (length_zero_false _ Hk), Hnone. reflexivity.
Qed.

Lemma updateBook_bad_body `{L : Libs} (w : ResponseWriter) (r : Request) (s : Store) :
  URLParam r "ISBN" <> "" ->
  is_Some (BookList s !! URLParam r "ISBN") ->
  decodeBody json_Decode_Book r = None ->
  updateBook w r s = (Error "Cannot decode data" StatusBadRequest w, s).
Proof.
  intros Hk [old Hold] Hdec. unfold updateBook.
  rewrite (length_zero_false _ Hk), Hold, Hdec. reflexivity.
Qed.

Lemma updateBook_replaces `{L : Libs} (w : ResponseWriter) (r : Request) (s : Store)
    (newBook : Book.t) :
  status w = None ->
  URLParam r "ISBN" <> "" ->
  is_Some (BookList s !! URLParam r "ISBN") ->
  decodeBody json_Decode_Book r = Some newBook ->
  status (updateBook w r s).1 = Some StatusOK
  /\ cookies (updateBook w r s).1 = cookies w
  /\ (writeFails w = false ->
      body (updateBook w r s).1 = body w +:+ "Book updated successfully")
  /\ (updateBook w r s).2 =
       {| CredentialList := CredentialList s;
          BookList := <[URLParam r "ISBN" := newBook]> (BookList s) |}.
Proof.
  intros Hw Hk [old Hold] Hdec. unfold updateBook.
  rewrite (length_zero_false _ Hk), Hold, Hdec.
  unfold Write. rewrite writeFails_WriteHeader.
  assert (Hh : status (WriteHeader StatusOK w) = Some StatusOK)
    by (rewrite status_WriteHeader, Hw; reflexivity).
  destruct (writeFails w) eqn:Hf; simpl.
  - rewrite Error_written by (rewrite Hh; eexists; reflexivity).
    rewrite status_WriteHeader, status_Write, Hh. simpl.
    rewrite cookies_WriteHeader, cookies_Write, cookies_WriteHeader.
    repeat split. intros Hfalse. discriminate Hfalse.
  - unfold WriteHeader at 1. simpl. rewrite Hh. simpl.
    rewrite cookies_WriteHeader, body_WriteHeader. repeat split; assumption.
Qed.

(** C5, as amended: [updateBook] answers 400 when the ISBN parameter is
    empty; otherwise 404 when the ISBN is not a key of the Book Store, whether
    or not the body decodes; otherwise 400 when the body does not decode as a
    Book; each of these leaves the stores as they were. Otherwise the record
    at that ISBN is replaced by the decoded Book as a whole, the answer is
    200, and its body is the text "Book updated successfully" when the write
    of the body succeeds. *)
Theorem updateBook_spec `{L : Libs} (w : ResponseWriter) (r : Request) (s : Store) :
  status w = None ->
  (URLParam r "ISBN" = "" ->
     status (updateBook w r s).1 = Some StatusBadRequest /\ (updateBook w r s).2 = s)
  /\ (URLParam r "ISBN" <> "" -> BookList s !! URLParam r "ISBN" = None ->
      status (updateBook w r s).1 = Some StatusNotFound /\ (updateBook w r s).2 = s)
  /\ (URLParam r "ISBN" <> "" -> is_Some (BookList s !! URLParam r "ISBN") ->
      decodeBody json_Decode_Book r = None ->
      status (updateBook w r s).1 = Some StatusBadRequest /\ (updateBook w r s).2 = s)
  /\ (forall newBook : Book.t,
      URLParam r "ISBN" <> "" -> is_Some (BookList s !! URLParam r "ISBN") ->
      decodeBody json_Decode_Book r = Some newBook ->
      status (updateBook w r s).1 = Some StatusOK
      /\ (writeFails w = false ->
          body (updateBook w r s).1 = body w +:+ "Book updated successfully")
      /\ BookList (updateBook w r s).2 = <[URLParam r "ISBN" := newBook]> (BookList s)
      /\ BookList (updateBook w r s).2 !! URLParam r "ISBN" = Some newBook
      /\ CredentialList (updateBook w r s).2 = CredentialList s).
Proof.
  intros Hw. split; [|split; [|split]].
  - intros Hk. rewrite updateBook_no_ISBN by exact Hk.
    split; [apply status_Error, Hw | reflexivity].
  - intros Hk Hnone. rewrite updateBook_absent by assumption.
    split; [apply status_Error, Hw | reflexivity].
  - intros Hk Hsome Hdec. rewrite updateBook_bad_body by assumption.
    split; [apply status_Error, Hw | reflexivity].
  - intros newBook Hk Hsome Hdec.
    destruct (updateBook_replaces w r s newBook Hw Hk Hsome Hdec)
      as (Hst & _ & Hbody & Hs).
    rewrite Hs. simpl. repeat split; try assumption.
    apply lookup_insert_eq.
Qed.

Lemma updateBook_spec_witness :
  status (updateBook (L := sampleLibs) (NewResponse false)
            (put "ISBN 2" "{name:Dune,isbn:ISBN-9,authors:[{name:Herbert}]}") Init).1
    = Some StatusOK
  /\ BookList (updateBook (L := sampleLibs) (NewResponse false)
            (put "ISBN 2" "{name:Dune,isbn:ISBN-9,authors:[{name:Herbert}]}") Init).2
       !! "ISBN 2" = Some dune.
Proof.
  pose proof (updateBook_spec (L := sampleLibs) (NewResponse false)
                (put "ISBN 2" "{name:Dune,isbn:ISBN-9,authors:[{name:Herbert}]}") Init)
    as H.
  destruct H as (_ & _ & _ & H); [reflexivity | ].
  destruct (H dune) as (Hs & _ & _ & Hl & _);
    [discriminate | exists book2; reflexivity | reflexivity | ].
  split; assumption.
Defined.

(** C5, as stated, fails: with the ISBN "ISBN 7", which is no key of the
    initial Book Store, and a body that does not decode as a Book, the answer
    is 404 Not Found ("Book does not exist"), not 400: the store is looked up
    before the body is decoded. *)
Lemma updateBook_absent_ISBN_bad_body :
  URLParam (put "ISBN 7" "not a book") "ISBN" = "ISBN 7"
  /\ decodeBody (json_Decode_Book (Libs := sampleLibs)) (put "ISBN 7" "not a book") = None
  /\ BookList Init !! "ISBN 7" = None
  /\ status (updateBook (L := sampleLibs) (NewResponse false)
               (put "ISBN 7" "not a book") Init).1 = Some StatusNotFound
  /\ status (updateBook (L := sampleLibs) (NewResponse false)
               (put "ISBN 7" "not a book") Init).1 <> Some StatusBadRequest.
Proof.
  repeat split; try (vm_compute; reflexivity). vm_compute. discriminate.
Qed.

(** A 200 from [updateBook] can only come from the replacing branch. *)
Lemma updateBook_OK_inv `{L : Libs} (w : ResponseWriter) (r : Request) (s : Store) :
  status w = None ->
  status (updateBook w r s).1 = Some StatusOK ->
  URLParam r "ISBN" <> ""
  /\ is_Some (BookList s !! URLParam r "ISBN")
  /\ is_Some (decodeBody json_Decode_Book r).
Proof.
  intros Hw Hok.
  destruct (String.eqb_spec (URLParam r "ISBN") "") as [Hk | Hk].
  { rewrite updateBook_no_ISBN in Hok by exact Hk. simpl in Hok.
    rewrite status_Error in Hok by exact Hw. discriminate Hok. }
  destruct (BookList s !! URLParam r "ISBN") as [old|] eqn:Hold.
  2:{ rewrite updateBook_absent in Hok by assumption. simpl in Hok.
      rewrite status_Error in Hok by exact Hw. discriminate Hok. }
  destruct (decodeBody json_Decode_Book r) as [nb|] eqn:Hdec.
  2:{ rewrite updateBook_bad_body in Hok; [| exact Hk | rewrite Hold; eauto | exact Hdec].
      simpl in Hok. rewrite status_Error in Hok by exact Hw. discriminate Hok. }
  repeat split; eauto.
Qed.

(** A 201 from [AddNewBook] can only come from the inserting branch. *)
Lemma AddNewBook_Created_inv `{L : Libs} (w : ResponseWriter) (r : Request) (s : Store)
    (book : Book.t) :
  status w = None ->
  decodeBody json_Decode_Book r = Some book ->
  status (AddNewBook w r s).1 = Some StatusCreated ->
  Book.Name book <> "" /\ Book.ISBN book <> "" /\ Book.Authors book <> []
  /\ BookList s !! Book.ISBN book = None.
Proof.
  intros Hw Hdec Hok.
  destruct (String.eqb_spec (Book.Name book) "") as [Hn | Hn].
  { rewrite (AddNewBook_invalid w r s book) in Hok by tauto. simpl in Hok.
    rewrite status_Error in Hok by exact Hw. discriminate Hok. }
  destruct (String.eqb_spec (Book.ISBN book) "") as [Hi | Hi].
  { rewrite (AddNewBook_invalid w r s book) in Hok by tauto. simpl in Hok.
    rewrite status_Error in Hok by exact Hw. discriminate Hok. }
  destruct (Book.Authors book) as [|a l] eqn:Ha.
  { rewrite (AddNewBook_invalid w r s book) in Hok by tauto. simpl in Hok.
    rewrite status_Error in Hok by exact Hw. discriminate Hok. }
  destruct (BookList s !! Book.ISBN book) as [old|] eqn:Hold.
  { rewrite (AddNewBook_exists w r s book) in Hok;
      [| assumption | assumption | assumption | rewrite Ha; discriminate
       | rewrite Hold; eauto ].
    simpl in Hok. rewrite status_Error in Hok by exact Hw. discriminate Hok. }
  repeat split; try assumption. discriminate.
Qed.

(** C10: when [updateBook] succeeds for the ISBN parameter [k] and the
    decoded body [newBook], the Book Store afterwards is the old one with
    [newBook] under the key [k], its set of keys is unchanged, and the record
    read back at [k] is [newBook], whose ISBN field is [newBook]'s own: when
    that differs from [k], the store holds an entry whose key is not its
    record's ISBN. A successful [AddNewBook] stores the book under the book's
    own ISBN field. *)
Theorem updateBook_verbatim `{L : Libs} (w : ResponseWriter) (r : Request) (s : Store)
    (k : string) (newBook : Book.t) :
  status w = None ->
  URLParam r "ISBN" = k ->
  is_Some (BookList s !! k) ->
  decodeBody json_Decode_Book r = Some newBook ->
  status (updateBook w r s).1 = Some StatusOK ->
  BookList (updateBook w r s).2 = <[k := newBook]> (BookList s)
  /\ BookList (updateBook w r s).2 !! k = Some newBook
  /\ dom (BookList (updateBook w r s).2) = dom (BookList s)
  /\ Book.ISBN <$> BookList (updateBook w r s).2 !! k = Some (Book.ISBN newBook)
  /\ (Book.ISBN newBook <> k ->
      exists b, BookList (updateBook w r s).2 !! k = Some b /\ Book.ISBN b <> k)
  /\ (forall (w2 : ResponseWriter) (r2 : Request) (book : Book.t),
      status w2 = None ->
      decodeBody json_Decode_Book r2 = Some book ->
      status (AddNewBook w2 r2 s).1 = Some StatusCreated ->
      BookList (AddNewBook w2 r2 s).2 = <[Book.ISBN book := book]> (BookList s)
      /\ BookList (AddNewBook w2 r2 s).2 !! Book.ISBN book = Some book).
Proof.
  intros Hw Hk Hsome Hdec Hok.
  destruct (updateBook_OK_inv w r s Hw Hok) as (Hne & _ & _).
  rewrite <- Hk in Hsome.
  destruct (updateBook_replaces w r s newBook Hw Hne Hsome Hdec) as (_ & _ & _ & Hs).
  rewrite Hs, Hk. simpl. rewrite Hk in Hsome.
  assert (Hl : <[k := newBook]> (BookList s) !! k = Some newBook)
    by apply lookup_insert_eq.
  split; [reflexivity|]. split; [exact Hl|].
  split; [apply dom_insert_lookup_L; exact Hsome|].
  split; [rewrite Hl; reflexivity|].
  split; [intros Hdiff; exists newBook; split; assumption|].
  intros w2 r2 book Hw2 Hdec2 Hcreated.
  destruct (AddNewBook_Created_inv w2 r2 s book Hw2 Hdec2 Hcreated)
    as (Hn & Hi & Ha & Hnew).
  rewrite (AddNewBook_fresh w2 r2 s book) by assumption. simpl.
  split; [reflexivity | apply lookup_insert_eq].
Qed.

Lemma updateBook_verbatim_witness :
  BookList (updateBook (L := sampleLibs) (NewResponse false)
              (put "ISBN 1" "{name:Dune,isbn:ISBN-9,authors:[{name:Herbert}]}") Init).2
    !! "ISBN 1" = Some dune
  /\ dom (BookList (updateBook (L := sampleLibs) (NewResponse false)
              (put "ISBN 1" "{name:Dune,isbn:ISBN-9,authors:[{name:Herbert}]}") Init).2)
     = dom (BookList Init)
  /\ exists b, BookList (updateBook (L := sampleLibs) (NewResponse false)
              (put "ISBN 1" "{name:Dune,isbn:ISBN-9,authors:[{name:Herbert}]}") Init).2
                 !! "ISBN 1" = Some b /\ Book.ISBN b <> "ISBN 1".
Proof.
  pose proof (updateBook_verbatim (L := sampleLibs) (NewResponse false)
                (put "ISBN 1" "{name:Dune,isbn:ISBN-9,authors:[{name:Herbert}]}")
                Init "ISBN 1" dune) as H.
  destruct H as (_ & Hl & Hd & _ & Hex & _);
    [reflexivity | reflexivity | exists book1; reflexivity | reflexivity
    | vm_compute; reflexivity | ].
  split; [exact Hl|]. split; [exact Hd|]. apply Hex. discriminate.
Defined.

(** ** Registering a user *)

Lemma SignIn_conflict `{L : Libs} (w : ResponseWriter) (r : Request) (s : Store)
    (bytes : string) (user : Credentials.t) :
  Method r = MethodPost -> Body r = Some bytes ->
  json_Unmarshal_Credentials bytes = Some user ->
  is_Some (CredentialList s !! Credentials.Username user) ->
  SignIn w r s = (Error "User already exists" StatusConflict w, s).
Proof.
  intros Hm Hb Hdec [old Hold]. unfold SignIn.
  rewrite Hm, Hb, Hdec, Hold. reflexivity.
Qed.

Lemma SignIn_created `{L : Libs} (w : ResponseWriter) (r : Request) (s : Store)
    (bytes : string) (user : Credentials.t) :
  Method r = MethodPost -> Body r = Some bytes ->
  json_Unmarshal_Credentials bytes = Some user ->
  CredentialList s !! Credentials.Username user = None ->
  SignIn w r s =
    ((Write ("User " +:+ Credentials.Username user +:+ " registered successfully")
        (WriteHeader StatusCreated w)).1,
     {| CredentialList :=
          <[Credentials.Username user := Credentials.Password user]> (CredentialList s);
        BookList := BookList s |}).
Proof.
  intros Hm Hb Hdec Hnew. unfold SignIn.
  rewrite Hm, Hb, Hdec, Hnew. reflexivity.
Qed.

(** C6: for a user name [u] that is no key of the Credential Store,
    [SignIn] with [(u, p)] answers 201 Created (with the confirmation text)
    and the store then maps [u] to [p]; a further [SignIn] with [(u, p')]
    answers 409 Conflict and leaves the stores as the first one left them, so
    [u] still maps to [p]. *)
Theorem SignIn_twice `{L : Libs} (w1 w2 : ResponseWriter) (r1 r2 : Request) (s : Store)
    (u p p' bytes1 bytes2 : string) :
  status w1 = None -> status w2 = None ->
  Method r1 = MethodPost -> Body r1 = Some bytes1 ->
  json_Unmarshal_Credentials bytes1 = Some (Credentials.mk u p) ->
  Method r2 = MethodPost -> Body r2 = Some bytes2 ->
  json_Unmarshal_Credentials bytes2 = Some (Credentials.mk u p') ->
  CredentialList s !! u = None ->
  status (SignIn w1 r1 s).1 = Some StatusCreated
  /\ (writeFails w1 = false ->
      body (SignIn w1 r1 s).1 = body w1 +:+ "User " +:+ u +:+ " registered successfully")
  /\ CredentialList (SignIn w1 r1 s).2 = <[u := p]> (CredentialList s)
  /\ CredentialList (SignIn w1 r1 s).2 !! u = Some p
  /\ BookList (SignIn w1 r1 s).2 = BookList s
  /\ status (SignIn w2 r2 (SignIn w1 r1 s).2).1 = Some StatusConflict
  /\ (SignIn w2 r2 (SignIn w1 r1 s).2).2 = (SignIn w1 r1 s).2
  /\ CredentialList (SignIn w2 r2 (SignIn w1 r1 s).2).2 !! u = Some p.
Proof.
  intros Hw1 Hw2 Hm1 Hb1 Hd1 Hm2 Hb2 Hd2 Hnew.
  rewrite (SignIn_created w1 r1 s bytes1 (Credentials.mk u p)) by assumption.
  simpl.
  assert (Hl : <[u := p]> (CredentialList s) !! u = Some p) by apply lookup_insert_eq.
  rewrite (SignIn_conflict w2 r2 _ bytes2 (Credentials.mk u p'));
    [| assumption | assumption | assumption | simpl; rewrite Hl; eauto ].
  simpl. repeat split; try assumption.
  - rewrite status_Write, status_WriteHeader, Hw1. reflexivity.
  - intros Hf. rewrite body_Write by (rewrite writeFails_WriteHeader; exact Hf).
    rewrite body_WriteHeader. reflexivity.
  - apply status_Error, Hw2.
Qed.

Lemma SignIn_twice_witness :
  status (SignIn (L := sampleLibs) (NewResponse false)
            (post "{username:alice,password:pw1}") Init).1 = Some StatusCreated
  /\ status (SignIn (L := sampleLibs) (NewResponse false)
              (post "{username:alice,password:pw2}")
              (SignIn (L := sampleLibs) (NewResponse false)
                 (post "{username:alice,password:pw1}") Init).2).1
     = Some StatusConflict
  /\ CredentialList
       (SignIn (L := sampleLibs) (NewResponse false)
          (post "{username:alice,password:pw2}")
          (SignIn (L := sampleLibs) (NewResponse false)
             (post "{username:alice,password:pw1}") Init).2).2 !! "alice" = Some "pw1".
Proof.
  pose proof (SignIn_twice (L := sampleLibs) (NewResponse false) (NewResponse false)
                (post "{username:alice,password:pw1}")
                (post "{username:alice,password:pw2}")
                Init "alice" "pw1" "pw2"
                "{username:alice,password:pw1}" "{username:alice,password:pw2}") as H.
  destruct H as (H1 & _ & _ & _ & _ & H2 & _ & H3);
    [reflexivity | reflexivity | reflexivity | reflexivity | reflexivity
    | reflexivity | reflexivity | reflexivity | vm_compute; reflexivity | ].
  split; [exact H1|]. split; [exact H2 | exact H3].
Defined.

(** ** Failures leave the stores alone *)

Lemma SignIn_error_unchanged `{L : Libs} (w : ResponseWriter) (r : Request) (s : Store) :
  status w = None -> isError (SignIn w r s).1 = true -> (SignIn w r s).2 = s.
Proof.
  intros Hw. unfold SignIn. repeat case_match; simpl; try reflexivity.
  unfold isError. rewrite status_Write, status_WriteHeader, Hw. simpl.
  intros Hcontra. discriminate Hcontra.
Qed.

Lemma AddNewBook_error_unchanged `{L : Libs} (w : ResponseWriter) (r : Request)
    (s : Store) :
  status w = None -> isError (AddNewBook w r s).1 = true -> (AddNewBook w r s).2 = s.
Proof.
  intros Hw. unfold AddNewBook. repeat case_match; simpl; try reflexivity.
  unfold isError. rewrite status_WriteHeader, Hw. simpl.
  intros Hcontra. discriminate Hcontra.
Qed.

Lemma deleteBook_error_unchanged (w : ResponseWriter) (r : Request)
    (s : Store) :
  status w = None -> isError (deleteBook w r s).1 = true -> (deleteBook w r s).2 = s.
Proof.
  intros Hw. unfold deleteBook. repeat case_match; simpl; try reflexivity.
  unfold isError. rewrite status_WriteHeader, Hw. simpl.
  intros Hcontra. discriminate Hcontra.
Qed.

Lemma updateBook_error_unchanged `{L : Libs} (w : ResponseWriter) (r : Request)
    (s : Store) :
  status w = None -> isError (updateBook w r s).1 = true -> (updateBook w r s).2 = s.
Proof.
  intros Hw Herr.
  destruct (String.eqb_spec (URLParam r "ISBN") "") as [Hk | Hk].
  { rewrite updateBook_no_ISBN by exact Hk. reflexivity. }
  destruct (BookList s !! URLParam r "ISBN") as [old|] eqn:Hold.
  2:{ rewrite updateBook_absent by assumption. reflexivity. }
  destruct (decodeBody json_Decode_Book r) as [nb|] eqn:Hdec.
  2:{ rewrite updateBook_bad_body; [reflexivity | exact Hk | rewrite Hold; eauto
                                   | exact Hdec]. }
  destruct (updateBook_replaces w r s nb Hw Hk) as (Hst & _);
    [rewrite Hold; eauto | exact Hdec |].
  unfold isError in Herr. rewrite Hst in Herr. discriminate Herr.
Qed.

(** Every handler returns the store it was given or changes one key of it. *)
Lemma SignIn_single_key `{L : Libs} (w : ResponseWriter) (r : Request) (s : Store) :
  (SignIn w r s).2 = s \/ singleKeyChange s (SignIn w r s).2.
Proof.
  unfold SignIn. repeat case_match; simpl; try (left; reflexivity).
  right. left. eexists _, _. split; reflexivity.
Qed.

Lemma AddNewBook_single_key `{L : Libs} (w : ResponseWriter) (r : Request) (s : Store) :
  (AddNewBook w r s).2 = s \/ singleKeyChange s (AddNewBook w r s).2.
Proof.
  unfold AddNewBook. repeat case_match; simpl; try (left; reflexivity).
  right. right. left. eexists _, _. split; reflexivity.
Qed.

Lemma deleteBook_single_key (w : ResponseWriter) (r : Request) (s : Store) :
  (deleteBook w r s).2 = s \/ singleKeyChange s (deleteBook w r s).2.
Proof.
  unfold deleteBook. repeat case_match; simpl; try (left; reflexivity).
  right. right. right. eexists. split; reflexivity.
Qed.

Lemma updateBook_single_key `{L : Libs} (w : ResponseWriter) (r : Request) (s : Store) :
  (updateBook w r s).2 = s \/ singleKeyChange s (updateBook w r s).2.
Proof.
  unfold updateBook. destruct (String.length (URLParam r "ISBN") =? 0)%nat;
    [left; reflexivity|].
  destruct (BookList s !! URLParam r "ISBN"); [|left; reflexivity].
  destruct (decodeBody json_Decode_Book r) as [newBook|]; [|left; reflexivity].
  destruct (Write "Book updated successfully" w) as [w' err]. simpl.
  right. right. left. exists (URLParam r "ISBN"), newBook. split; reflexivity.
Qed.

(** The calls of [http.Error] in [updateBook]: those before the record is
    replaced give an error reply and leave the stores; the one after the
    failed write comes when the record is replaced and the header written. *)
Lemma updateBook_fails_cases `{L : Libs} (w : ResponseWriter) (r : Request)
    (s : Store) :
  status w = None ->
  updateBook_fails w r s = true ->
  (isError (updateBook w r s).1 = true /\ (updateBook w r s).2 = s)
  \/ (writeFails w = true
      /\ status (updateBook w r s).1 = Some StatusOK
      /\ exists newBook : Book.t,
           decodeBody json_Decode_Book r = Some newBook
           /\ is_Some (BookList s !! URLParam r "ISBN")
           /\ (updateBook w r s).2 =
                {| CredentialList := CredentialList s;
                   BookList := <[URLParam r "ISBN" := newBook]> (BookList s) |}).
Proof.
  intros Hw Hfails.
  assert (Herr : forall msg code,
             (400 <=? code)%Z = true -> isError (Error msg code w) = true).
  { intros msg code Hcode. unfold isError. rewrite status_Error by exact Hw.
    exact Hcode. }
  destruct (String.eqb_spec (URLParam r "ISBN") "") as [Hk | Hk].
  { left. rewrite updateBook_no_ISBN by exact Hk. split; [apply Herr|]; reflexivity. }
  destruct (BookList s !! URLParam r "ISBN") as [old|] eqn:Hold.
  2:{ left. rewrite updateBook_absent by assumption.
      split; [apply Herr|]; reflexivity. }
  destruct (decodeBody json_Decode_Book r) as [nb|] eqn:Hdec.
  2:{ left. rewrite updateBook_bad_body;
        [split; [apply Herr|]; reflexivity | exact Hk | rewrite Hold; eauto
         | exact Hdec]. }
  right. unfold updateBook_fails in Hfails.
  rewrite (length_zero_false _ Hk), Hold, Hdec in Hfails.
  unfold Write in Hfails. rewrite writeFails_WriteHeader in Hfails.
  destruct (updateBook_replaces w r s nb Hw Hk) as (Hst & _ & _ & Hstore);
    [rewrite Hold; eauto | exact Hdec |].
  split; [destruct (writeFails w); [reflexivity | discriminate Hfails]|].
  split; [exact Hst|]. exists nb.
  split; [reflexivity|]. split; [eauto | exact Hstore].
Qed.

Lemma updateBook_error_fails `{L : Libs} (w : ResponseWriter) (r : Request)
    (s : Store) :
  status w = None ->
  isError (updateBook w r s).1 = true -> updateBook_fails w r s = true.
Proof.
  intros Hw Herr. unfold updateBook_fails.
  destruct (String.eqb_spec (URLParam r "ISBN") "") as [Hk | Hk];
    [rewrite Hk; reflexivity|].
  rewrite (length_zero_false _ Hk).
  destruct (BookList s !! URLParam r "ISBN") as [old|] eqn:Hold; [|reflexivity].
  destruct (decodeBody json_Decode_Book r) as [nb|] eqn:Hdec; [|reflexivity].
  destruct (updateBook_replaces w r s nb Hw Hk) as (Hst & _);
    [rewrite Hold; eauto | exact Hdec |].
  unfold isError in Herr. rewrite Hst in Herr. discriminate Herr.
Qed.

(** C7, as amended: when [SignIn], [AddNewBook], [updateBook] or
    [deleteBook] answers with an error status (400 or more), the Credential
    Store and the Book Store are exactly those the handler was given; and
    whatever the answer, the stores a handler leaves are the ones it was given
    or differ from them in one key of one map. Of the calls of [http.Error]
    in [updateBook], the three that come before the record is replaced give
    such an error answer; the fourth, after a failed write of the
    confirmation, comes when the record has been replaced, and the status
    stays 200. *)
Theorem failure_leaves_stores `{L : Libs} (w : ResponseWriter) (r : Request)
    (s : Store) :
  status w = None ->
  (isError (SignIn w r s).1 = true -> (SignIn w r s).2 = s)
  /\ (isError (AddNewBook w r s).1 = true -> (AddNewBook w r s).2 = s)
  /\ (isError (updateBook w r s).1 = true -> (updateBook w r s).2 = s)
  /\ (isError (deleteBook w r s).1 = true -> (deleteBook w r s).2 = s)
  /\ ((SignIn w r s).2 = s \/ singleKeyChange s (SignIn w r s).2)
  /\ ((AddNewBook w r s).2 = s \/ singleKeyChange s (AddNewBook w r s).2)
  /\ ((updateBook w r s).2 = s \/ singleKeyChange s (updateBook w r s).2)
  /\ ((deleteBook w r s).2 = s \/ singleKeyChange s (deleteBook w r s).2)
  /\ (isError (updateBook w r s).1 = true -> updateBook_fails w r s = true)
  /\ (updateBook_fails w r s = true ->
      (isError (updateBook w r s).1 = true /\ (updateBook w r s).2 = s)
      \/ (writeFails w = true
          /\ status (updateBook w r s).1 = Some StatusOK
          /\ exists newBook : Book.t,
               decodeBody json_Decode_Book r = Some newBook
               /\ is_Some (BookList s !! URLParam r "ISBN")
               /\ (updateBook w r s).2 =
                    {| CredentialList := CredentialList s;
                       BookList := <[URLParam r "ISBN" := newBook]> (BookList s) |})).
Proof.
  intros Hw.
  split; [apply SignIn_error_unchanged, Hw|].
  split; [apply AddNewBook_error_unchanged, Hw|].
  split; [apply updateBook_error_unchanged, Hw|].
  split; [apply deleteBook_error_unchanged, Hw|].
  split; [apply SignIn_single_key|].
  split; [apply AddNewBook_single_key|].
  split; [apply updateBook_single_key|].
  split; [apply deleteBook_single_key|].
  split; [apply updateBook_error_fails, Hw | apply updateBook_fails_cases, Hw].
Qed.

Lemma failure_leaves_stores_witness :
  isError (updateBook (L := sampleLibs) (NewResponse false)
             (put "ISBN 7" "{name:Dune,isbn:ISBN-9,authors:[{name:Herbert}]}")
             Init).1 = true
  /\ (updateBook (L := sampleLibs) (NewResponse false)
        (put "ISBN 7" "{name:Dune,isbn:ISBN-9,authors:[{name:Herbert}]}") Init).2 = Init.
Proof.
  pose proof (failure_leaves_stores (L := sampleLibs) (NewResponse false)
                (put "ISBN 7" "{name:Dune,isbn:ISBN-9,authors:[{name:Herbert}]}") Init)
    as H.
  destruct H as (_ & _ & H & _); [reflexivity|].
  assert (He : isError (updateBook (L := sampleLibs) (NewResponse false)
             (put "ISBN 7" "{name:Dune,isbn:ISBN-9,authors:[{name:Herbert}]}")
             Init).1 = true) by (vm_compute; reflexivity).
  split; [exact He | exact (H He)].
Defined.

(** A failure after the mutation: on a response whose [Write] fails,
    [updateBook] for "ISBN 1" with a body that decodes reaches its call
    [http.Error(w, "Can not write data", 500)], and the record under "ISBN 1"
    has been replaced: the stores are not those from before the request. *)
Lemma updateBook_write_error_after_replacement :
  updateBook_fails (L := sampleLibs) (NewResponse true)
    (put "ISBN 1" "{name:Dune,isbn:ISBN-9,authors:[{name:Herbert}]}") Init = true
  /\ BookList Init !! "ISBN 1" = Some book1
  /\ BookList (updateBook (L := sampleLibs) (NewResponse true)
                 (put "ISBN 1" "{name:Dune,isbn:ISBN-9,authors:[{name:Herbert}]}")
                 Init).2 !! "ISBN 1" = Some dune
  /\ (updateBook (L := sampleLibs) (NewResponse true)
        (put "ISBN 1" "{name:Dune,isbn:ISBN-9,authors:[{name:Herbert}]}") Init).2
     <> Init.
Proof.
  assert (Hnew : BookList (updateBook (L := sampleLibs) (NewResponse true)
                   (put "ISBN 1" "{name:Dune,isbn:ISBN-9,authors:[{name:Herbert}]}")
                   Init).2 !! "ISBN 1" = Some dune) by (vm_compute; reflexivity).
  assert (Hold : BookList Init !! "ISBN 1" = Some book1) by (vm_compute; reflexivity).
  split; [vm_compute; reflexivity|]. split; [exact Hold|]. split; [exact Hnew|].
  intros Heq. rewrite Heq, Hold in Hnew. discriminate Hnew.
Qed.

(** ** The book handlers never look at the cookies *)

(** C8: two requests that agree on everything but the cookies they carry
    get the same response and leave the same stores, from each of
    [getAllBooks], [AddNewBook], [updateBook] and [deleteBook]. *)
Theorem book_handlers_ignore_cookies `{L : Libs} (w : ResponseWriter)
    (r1 r2 : Request) (s : Store) :
  Method r1 = Method r2 -> Body r1 = Body r2 -> URLParams r1 = URLParams r2 ->
  getAllBooks w r1 s = getAllBooks w r2 s
  /\ AddNewBook w r1 s = AddNewBook w r2 s
  /\ updateBook w r1 s = updateBook w r2 s
  /\ deleteBook w r1 s = deleteBook w r2 s.
Proof.
  intros Hm Hb Hu.
  unfold getAllBooks, AddNewBook, updateBook, deleteBook, URLParam, decodeBody.
  rewrite Hb, Hu. repeat split.
Qed.

Lemma book_handlers_ignore_cookies_witness :
  updateBook (L := sampleLibs) (NewResponse false)
    {| Method := "PUT";
       Body := Some "{name:Dune,isbn:ISBN-9,authors:[{name:Herbert}]}";
       URLParams := [("ISBN", "ISBN 1")];
       Cookies := [Cookie.mk "jwt" "header.payload.signature" 1200000000000] |}
    Init
  = updateBook (L := sampleLibs) (NewResponse false)
      (put "ISBN 1" "{name:Dune,isbn:ISBN-9,authors:[{name:Herbert}]}") Init.
Proof.
  pose proof (book_handlers_ignore_cookies (L := sampleLibs) (NewResponse false)
    {| Method := "PUT";
       Body := Some "{name:Dune,isbn:ISBN-9,authors:[{name:Herbert}]}";
       URLParams := [("ISBN", "ISBN 1")];
       Cookies := [Cookie.mk "jwt" "header.payload.signature" 1200000000000] |}
    (put "ISBN 1" "{name:Dune,isbn:ISBN-9,authors:[{name:Herbert}]}") Init) as H.
  destruct H as (_ & _ & H & _); [reflexivity | reflexivity | reflexivity | exact H].
Defined.

(** ** Logging in *)

Lemma Login_unknown_user `{L : Libs} (w : ResponseWriter) (r : Request) (now : Time)
    (s : Store) (cred : Credentials.t) :
  decodeBody json_Decode_Credentials r = Some cred ->
  CredentialList s !! Credentials.Username cred = None ->
  Login w r now s = (Error "User not found" StatusNotFound w, s).
Proof. intros Hdec Hnone. unfold Login. rewrite Hdec, Hnone. reflexivity. Qed.

Lemma Login_wrong_password `{L : Libs} (w : ResponseWriter) (r : Request) (now : Time)
    (s : Store) (cred : Credentials.t) (password : string) :
  decodeBody json_Decode_Credentials r = Some cred ->
  CredentialList s !! Credentials.Username cred = Some password ->
  password <> Credentials.Password cred ->
  Login w r now s = (Error "Wrong password" StatusNotFound w, s).
Proof.
  intros Hdec Hsome Hne. unfold Login. rewrite Hdec, Hsome.
  apply String.eqb_neq in Hne. rewrite Hne. reflexivity.
Qed.

Lemma Login_password_matches `{L : Libs} (w : ResponseWriter) (r : Request) (now : Time)
    (s : Store) (cred : Credentials.t) :
  decodeBody json_Decode_Credentials r = Some cred ->
  CredentialList s !! Credentials.Username cred = Some (Credentials.Password cred) ->
  Login w r now s = (issue w now, s).
Proof.
  intros Hdec Hsome. unfold Login, issue. rewrite Hdec, Hsome, String.eqb_refl. simpl.
  destruct (jwt_Build _) as [token|]; [|reflexivity].
  destruct (jwt_Sign _ _ _); reflexivity.
Qed.

Lemma status_SetCookie (c : Cookie.t) (w : ResponseWriter) :
  status (SetCookie c w) = status w.
Proof. unfold SetCookie. destruct (status w) eqn:E; simpl; rewrite ?E; reflexivity. Qed.

Lemma cookies_SetCookie (c : Cookie.t) (w : ResponseWriter) :
  status w = None -> cookies (SetCookie c w) = (cookies w ++ [c])%list.
Proof. intros Hw. unfold SetCookie. rewrite Hw. reflexivity. Qed.

Lemma issue_cases `{L : Libs} (w : ResponseWriter) (now : Time) :
  status w = None ->
  (status (issue w now) = Some StatusInternalServerError
   /\ cookies (issue w now) = cookies w
   /\ (jwt_Build [Audience ["sabnaj"]; Expiration (Time_Add now (20 * Minute))] = None
       \/ exists token,
            jwt_Build [Audience ["sabnaj"]; Expiration (Time_Add now (20 * Minute))]
              = Some token
            /\ jwt_Sign token HS256 Secret = None))
  \/ (status (issue w now) = Some StatusOK
      /\ exists token signed,
           jwt_Build [Audience ["sabnaj"]; Expiration (Time_Add now (20 * Minute))]
             = Some token
           /\ jwt_Sign token HS256 Secret = Some signed
           /\ cookies (issue w now) =
                (cookies w ++ [ {| Cookie.Name := "jwt"; Cookie.Value := signed;
                                   Cookie.Expires := Time_Add now (20 * Minute) |} ])%list).
Proof.
  intros Hw. unfold issue.
  destruct (jwt_Build _) as [token|] eqn:Hb.
  2:{ left. rewrite status_Error, cookies_Error by exact Hw. auto. }
  destruct (jwt_Sign token HS256 Secret) as [signed|] eqn:Hs.
  2:{ left. rewrite status_Error, cookies_Error by exact Hw.
      split; [reflexivity|]. split; [reflexivity|].
      right. exists token. split; first [reflexivity | assumption]. }
  right. rewrite status_WriteHeader, status_Write, status_SetCookie, Hw.
  split; [reflexivity|]. exists token, signed.
  rewrite cookies_WriteHeader, cookies_Write, cookies_SetCookie by exact Hw. auto.
Qed.

Lemma Login_store `{L : Libs} (w : ResponseWriter) (r : Request) (now : Time)
    (s : Store) :
  (Login w r now s).2 = s.
Proof. unfold Login. repeat case_match; reflexivity. Qed.

Lemma getAllBooks_store `{L : Libs} (w : ResponseWriter) (r : Request) (s : Store) :
  (getAllBooks w r s).2 = s.
Proof. unfold getAllBooks. repeat case_match; reflexivity. Qed.

(** After decoding, [Login] answers 404 or the stored password matched. *)
Lemma Login_rejected_or_matches `{L : Libs} (w : ResponseWriter) (r : Request)
    (now : Time) (s : Store) (cred : Credentials.t) :
  status w = None ->
  decodeBody json_Decode_Credentials r = Some cred ->
  status (Login w r now s).1 = Some StatusNotFound
  \/ CredentialList s !! Credentials.Username cred = Some (Credentials.Password cred).
Proof.
  intros Hw Hdec.
  destruct (CredentialList s !! Credentials.Username cred) as [password|] eqn:Hlook.
  2:{ left. rewrite (Login_unknown_user w r now s cred) by assumption.
      apply status_Error, Hw. }
  destruct (String.eqb_spec password (Credentials.Password cred)) as [Heq | Hne].
  - right. rewrite Heq. reflexivity.
  - left. rewrite (Login_wrong_password w r now s cred password) by assumption.
    apply status_Error, Hw.
Qed.

(** The outcomes of [Login] once the body has decoded. *)
Lemma Login_decoded `{L : Libs} (w : ResponseWriter) (r : Request) (now : Time)
    (s : Store) (cred : Credentials.t) :
  status w = None ->
  decodeBody json_Decode_Credentials r = Some cred ->
  (CredentialList s !! Credentials.Username cred = None ->
     status (Login w r now s).1 = Some StatusNotFound
     /\ (writeFails w = false ->
         body (Login w r now s).1 = body w +:+ "User not found" +:+ LF))
  /\ (forall password : string,
      CredentialList s !! Credentials.Username cred = Some password ->
      password <> Credentials.Password cred ->
      status (Login w r now s).1 = Some StatusNotFound
      /\ (writeFails w = false ->
          body (Login w r now s).1 = body w +:+ "Wrong password" +:+ LF))
  /\ (status (Login w r now s).1 <> Some StatusNotFound
      <-> CredentialList s !! Credentials.Username cred
          = Some (Credentials.Password cred))
  /\ (CredentialList s !! Credentials.Username cred = Some (Credentials.Password cred) ->
      status (Login w r now s).1 = Some StatusOK
      \/ status (Login w r now s).1 = Some StatusInternalServerError)
  /\ (status (Login w r now s).1 <> Some StatusOK ->
      cookies (Login w r now s).1 = cookies w)
  /\ (Login w r now s).2 = s.
Proof.
  intros Hw Hdec.
  destruct (CredentialList s !! Credentials.Username cred) as [password|] eqn:Hlook.
  2:{ rewrite (Login_unknown_user w r now s cred) by assumption. simpl.
      rewrite status_Error, cookies_Error by exact Hw.
      split; [intros _; split; [reflexivity | intros Hf; apply body_Error, Hf]|].
      split; [intros q Hq; discriminate Hq|].
      split; [split; [intros Hc; contradiction Hc; reflexivity | intros Hc; discriminate Hc]|].
      split; [intros Hc; discriminate Hc|].
      split; reflexivity. }
  destruct (String.eqb_spec password (Credentials.Password cred)) as [Heq | Hne].
  - subst password.
    rewrite (Login_password_matches w r now s cred) by assumption. simpl.
    split; [intros Hc; discriminate Hc|].
    split; [intros q Hq Hq'; congruence|].
    destruct (issue_cases w now Hw) as [(Hst & Hck & _) | (Hst & _)]; rewrite Hst.
    + split; [split; [reflexivity | intros _; discriminate]|].
      split; [intros _; right; reflexivity|].
      split; [intros _; exact Hck | reflexivity].
    + split; [split; [reflexivity | intros _; discriminate]|].
      split; [intros _; left; reflexivity|].
      split; [intros Hc; contradiction Hc; reflexivity | reflexivity].
  - rewrite (Login_wrong_password w r now s cred password) by assumption. simpl.
    rewrite status_Error, cookies_Error by exact Hw.
    split; [intros Hc; discriminate Hc|].
    split; [intros q Hq Hq'; split; [reflexivity | intros Hf; apply body_Error, Hf]|].
    split; [split; [intros Hc; contradiction Hc; reflexivity | intros Hc; congruence]|].
    split; [intros Hc; congruence|].
    split; reflexivity.
Qed.

(** When the credentials are held, [Login] goes on to issue the token: it
    answers 200, with the cookie, exactly when the token is built and signed. *)
Lemma Login_held `{L : Libs} (w : ResponseWriter) (r : Request) (now : Time)
    (s : Store) (cred : Credentials.t) :
  status w = None ->
  decodeBody json_Decode_Credentials r = Some cred ->
  CredentialList s !! Credentials.Username cred = Some (Credentials.Password cred) ->
  (status (Login w r now s).1 = Some StatusOK <->
     exists token signed,
       jwt_Build [Audience ["sabnaj"]; Expiration (now + 20 * Minute)] = Some token
       /\ jwt_Sign token HS256 Secret = Some signed)
  /\ (forall token signed,
        jwt_Build [Audience ["sabnaj"]; Expiration (now + 20 * Minute)] = Some token ->
        jwt_Sign token HS256 Secret = Some signed ->
        cookies (Login w r now s).1 =
          (cookies w ++ [ {| Cookie.Name := "jwt"; Cookie.Value := signed;
                             Cookie.Expires := now + 20 * Minute |} ])%list).
Proof.
  intros Hw Hdec Hheld.
  rewrite (Login_password_matches w r now s cred) by assumption. simpl.
  destruct (issue_cases w now Hw)
    as [(Hst & _ & Hlib) | (Hst & token & signed & Hb & Hs & Hc)];
    rewrite Hst; unfold Time_Add in *.
  - split.
    + split; [intros Hc; discriminate Hc|].
      intros (token & signed & Hb & Hs).
      destruct Hlib as [Hn | (token' & Hb' & Hn)]; congruence.
    + intros token signed Hb Hs.
      destruct Hlib as [Hn | (token' & Hb' & Hn)]; congruence.
  - split.
    + split; [intros _; exists token, signed; auto | reflexivity].
    + intros token' signed' Hb' Hs'.
      assert (token' = token) as -> by congruence.
      assert (signed' = signed) as -> by congruence.
      exact Hc.
Qed.

(** C2: for decoded credentials [(u, p)], [Login] answers 404 with
    "User not found" when [u] is no key of the Credential Store, and 404 with
    "Wrong password" when [u] is a key whose stored password differs from
    [p]; the check passes (the answer is not 404) exactly when the store maps
    [u] to [p]. When it passes, the login succeeds, with status 200 and the
    "jwt" cookie, exactly when the token is built and signed (it is 500
    otherwise). Whenever the answer is not 200, whatever the request, no
    cookie is added; and the stores are never changed. *)
Theorem Login_check `{L : Libs} (w : ResponseWriter) (r : Request) (now : Time)
    (s : Store) :
  status w = None ->
  (forall cred : Credentials.t,
     decodeBody json_Decode_Credentials r = Some cred ->
     (CredentialList s !! Credentials.Username cred = None ->
        status (Login w r now s).1 = Some StatusNotFound
        /\ (writeFails w = false ->
            body (Login w r now s).1 = body w +:+ "User not found" +:+ LF))
     /\ (forall password : string,
         CredentialList s !! Credentials.Username cred = Some password ->
         password <> Credentials.Password cred ->
         status (Login w r now s).1 = Some StatusNotFound
         /\ (writeFails w = false ->
             body (Login w r now s).1 = body w +:+ "Wrong password" +:+ LF))
     /\ (status (Login w r now s).1 <> Some StatusNotFound
         <-> CredentialList s !! Credentials.Username cred
             = Some (Credentials.Password cred))
     /\ (CredentialList s !! Credentials.Username cred
           = Some (Credentials.Password cred) ->
         status (Login w r now s).1 = Some StatusOK
         \/ status (Login w r now s).1 = Some StatusInternalServerError)
     /\ (CredentialList s !! Credentials.Username cred
           = Some (Credentials.Password cred) ->
         (status (Login w r now s).1 = Some StatusOK <->
            exists token signed,
              jwt_Build [Audience ["sabnaj"]; Expiration (now + 20 * Minute)]
                = Some token
              /\ jwt_Sign token HS256 Secret = Some signed)
         /\ (forall token signed,
               jwt_Build [Audience ["sabnaj"]; Expiration (now + 20 * Minute)]
                 = Some token ->
               jwt_Sign token HS256 Secret = Some signed ->
               cookies (Login w r now s).1 =
                 (cookies w ++ [ {| Cookie.Name := "jwt"; Cookie.Value := signed;
                                    Cookie.Expires := now + 20 * Minute |} ])%list))
     /\ (status (Login w r now s).1 = Some StatusOK ->
         CredentialList s !! Credentials.Username cred
           = Some (Credentials.Password cred)))
  /\ (status (Login w r now s).1 <> Some StatusOK ->
      cookies (Login w r now s).1 = cookies w)
  /\ (Login w r now s).2 = s.
Proof.
  intros Hw. split; [|split].
  - intros cred Hdec.
    destruct (Login_decoded w r now s cred Hw Hdec) as (H1 & H2 & H3 & H4 & _).
    split; [exact H1|]. split; [exact H2|]. split; [exact H3|]. split; [exact H4|].
    split; [intros Hheld; exact (Login_held w r now s cred Hw Hdec Hheld)|].
    intros Hok. apply H3. rewrite Hok. discriminate.
  - destruct (decodeBody json_Decode_Credentials r) as [cred|] eqn:Hdec.
    + apply (Login_decoded w r now s cred Hw Hdec).
    + intros _. unfold Login. rewrite Hdec. apply cookies_Error.
  - apply Login_store.
Qed.

Lemma Login_check_witness :
  status (Login (L := sampleLibs) (NewResponse false)
            (post "{username:sabnaj,password:wrong}") 0 Init).1 = Some StatusNotFound
  /\ cookies (Login (L := sampleLibs) (NewResponse false)
            (post "{username:sabnaj,password:wrong}") 0 Init).1 = []
  /\ status (Login (L := sampleLibs) (NewResponse false)
            (post "{username:sabnaj,password:1234}") 0 Init).1 = Some StatusOK
  /\ cookies (Login (L := sampleLibs) (NewResponse false)
            (post "{username:sabnaj,password:1234}") 0 Init).1
     = [Cookie.mk "jwt" "header.payload.signature" 1200000000000].
Proof.
  destruct (Login_check (L := sampleLibs) (NewResponse false)
              (post "{username:sabnaj,password:wrong}") 0 Init)
    as (H & Hck & _); [reflexivity|].
  destruct (H (Credentials.mk "sabnaj" "wrong")) as (_ & Hwrong & _); [reflexivity|].
  destruct (Hwrong "1234") as (Hs & _); [reflexivity | discriminate |].
  split; [exact Hs|]. split; [apply Hck; rewrite Hs; discriminate|].
  destruct (Login_check (L := sampleLibs) (NewResponse false)
              (post "{username:sabnaj,password:1234}") 0 Init)
    as (H' & _); [reflexivity|].
  destruct (H' (Credentials.mk "sabnaj" "1234")) as (_ & _ & _ & _ & Hheld & _);
    [reflexivity|].
  destruct Hheld as (Hok & Hcookie); [reflexivity|].
  split.
  - apply Hok. eexists. eexists. split; reflexivity.
  - exact (Hcookie _ _ eq_refl eq_refl).
Defined.

(** C3: when [Login] answers 200, a token was built from the audience
    "sabnaj" and the expiration [now + 20 minutes], it was signed with HS256
    under [Secret], and the one cookie added to the response is named "jwt",
    holds the signed serialization and expires at that same instant. *)
Theorem Login_issues_token `{L : Libs} (w : ResponseWriter) (r : Request) (now : Time)
    (s : Store) :
  status w = None ->
  status (Login w r now s).1 = Some StatusOK ->
  exists (cred : Credentials.t) (token : Token) (signed : string),
    decodeBody json_Decode_Credentials r = Some cred
    /\ CredentialList s !! Credentials.Username cred = Some (Credentials.Password cred)
    /\ jwt_Build [Audience ["sabnaj"]; Expiration (now + 20 * Minute)] = Some token
    /\ jwt_Sign token HS256 Secret = Some signed
    /\ cookies (Login w r now s).1 =
         (cookies w ++ [ {| Cookie.Name := "jwt"; Cookie.Value := signed;
                            Cookie.Expires := now + 20 * Minute |} ])%list
    /\ 20 * Minute = 1200000000000.
Proof.
  intros Hw Hok.
  destruct (decodeBody json_Decode_Credentials r) as [cred|] eqn:Hdec.
  2:{ unfold Login in Hok. rewrite Hdec in Hok. simpl in Hok.
      rewrite status_Error in Hok by exact Hw. discriminate Hok. }
  assert (Hlook : CredentialList s !! Credentials.Username cred
                  = Some (Credentials.Password cred)).
  { destruct (Login_rejected_or_matches w r now s cred Hw Hdec) as [H404 | Hm];
      [rewrite H404 in Hok; discriminate Hok | exact Hm]. }
  rewrite (Login_password_matches w r now s cred) in * by assumption. simpl in *.
  destruct (issue_cases w now Hw) as [(Hst & _) | (_ & token & signed & Hb & Hs & Hc)].
  { rewrite Hst in Hok. discriminate Hok. }
  exists cred, token, signed. repeat split; assumption.
Qed.

Lemma Login_issues_token_witness :
  cookies (Login (L := sampleLibs) (NewResponse false)
             (post "{username:sabnaj,password:1234}") 1000 Init).1
  = [Cookie.mk "jwt" "header.payload.signature" 1200000001000].
Proof.
  destruct (Login_issues_token (L := sampleLibs) (NewResponse false)
              (post "{username:sabnaj,password:1234}") 1000 Init)
    as (cred & token & signed & _ & _ & _ & Hs & Hc & _);
    [reflexivity | vm_compute; reflexivity |].
  rewrite Hc. simpl in Hs. injection Hs as <-. reflexivity.
Defined.

(** ** Logging out *)




(** ** Deleting a book *)

Lemma deleteBook_no_ISBN (w : ResponseWriter) (r : Request) (s : Store) :
  URLParam r "ISBN" = "" ->
  deleteBook w r s = (Error "Invalid ISBN" StatusBadRequest w, s).
Proof. intros Hk. unfold deleteBook. rewrite Hk. reflexivity. Qed.

Lemma deleteBook_absent (w : ResponseWriter) (r : Request) (s : Store) :
  URLParam r "ISBN" <> "" ->
  BookList s !! URLParam r "ISBN" = None ->
  deleteBook w r s = (Error "Book does not exist" StatusNotFound w, s).
Proof.
  intros Hk Hnone. unfold deleteBook.
  rewrite (length_zero_false _ Hk), Hnone. reflexivity.
Qed.

Lemma deleteBook_removes (w : ResponseWriter) (r : Request) (s : Store) :
  URLParam r "ISBN" <> "" ->
  is_Some (BookList s !! URLParam r "ISBN") ->
  deleteBook w r s =
    (WriteHeader StatusOK w,
     {| CredentialList := CredentialList s;
        BookList := delete (URLParam r "ISBN") (BookList s) |}).
Proof.
  intros Hk [old Hold]. unfold deleteBook.
  rewrite (length_zero_false _ Hk), Hold. reflexivity.
Qed.

(** X1: [deleteBook] answers 400 when the ISBN parameter is empty; otherwise 404 when
    it is no key of the Book Store; otherwise the key is removed and the
    answer is 200, after which the same request is answered 404. *)
Theorem deleteBook_spec (w w2 : ResponseWriter) (r : Request) (s : Store) :
  status w = None -> status w2 = None ->
  (URLParam r "ISBN" = "" ->
     status (deleteBook w r s).1 = Some StatusBadRequest /\ (deleteBook w r s).2 = s)
  /\ (URLParam r "ISBN" <> "" -> BookList s !! URLParam r "ISBN" = None ->
      status (deleteBook w r s).1 = Some StatusNotFound /\ (deleteBook w r s).2 = s)
  /\ (URLParam r "ISBN" <> "" -> is_Some (BookList s !! URLParam r "ISBN") ->
      status (deleteBook w r s).1 = Some StatusOK
      /\ BookList (deleteBook w r s).2 = delete (URLParam r "ISBN") (BookList s)
      /\ BookList (deleteBook w r s).2 !! URLParam r "ISBN" = None
      /\ CredentialList (deleteBook w r s).2 = CredentialList s
      /\ status (deleteBook w2 r (deleteBook w r s).2).1 = Some StatusNotFound).
Proof.
  intros Hw Hw2. split; [|split].
  - intros Hk. rewrite deleteBook_no_ISBN by exact Hk.
    split; [apply status_Error, Hw | reflexivity].
  - intros Hk Hnone. rewrite deleteBook_absent by assumption.
    split; [apply status_Error, Hw | reflexivity].
  - intros Hk Hsome. rewrite (deleteBook_removes w r s) by assumption. simpl.
    assert (Hgone : delete (URLParam r "ISBN") (BookList s) !! URLParam r "ISBN" = None)
      by apply lookup_delete_eq.
    split; [rewrite status_WriteHeader, Hw; reflexivity|].
    split; [reflexivity|]. split; [exact Hgone|]. split; [reflexivity|].
    rewrite deleteBook_absent by assumption. apply status_Error, Hw2.
Qed.

Lemma deleteBook_spec_witness :
  status (deleteBook (NewResponse false) (put "ISBN 2" "") Init).1
    = Some StatusOK
  /\ status (deleteBook (NewResponse false) (put "ISBN 2" "")
               (deleteBook (NewResponse false) (put "ISBN 2" "")
                  Init).2).1 = Some StatusNotFound.
Proof.
  destruct (deleteBook_spec (NewResponse false) (NewResponse false)
              (put "ISBN 2" "") Init) as (_ & _ & H); [reflexivity | reflexivity |].
  destruct H as (H1 & _ & _ & _ & H2); [discriminate | exists book2; reflexivity |].
  split; assumption.
Defined.

(** ** What a routed request carries *)

(** X2: a request without URL parameters (what the patterns "/updateBook" and
    "/deleteBook", which have no placeholder, give the handler) is answered
    400 "Invalid ISBN" by [updateBook] and [deleteBook], whatever its body,
    and changes nothing. *)
Theorem no_URL_parameter_no_ISBN `{L : Libs} (w : ResponseWriter) (r : Request)
    (s : Store) :
  URLParams r = [] ->
  updateBook w r s = (Error "Invalid ISBN" StatusBadRequest w, s)
  /\ deleteBook w r s = (Error "Invalid ISBN" StatusBadRequest w, s).
Proof.
  intros Hnil.
  assert (Hk : URLParam r "ISBN" = "") by (unfold URLParam; rewrite Hnil; reflexivity).
  split; [apply updateBook_no_ISBN, Hk | apply deleteBook_no_ISBN, Hk].
Qed.

Lemma no_URL_parameter_no_ISBN_witness :
  status (updateBook (L := sampleLibs) (NewResponse false)
            (post "{name:Dune,isbn:ISBN-9,authors:[{name:Herbert}]}") Init).1
  = Some StatusBadRequest.
Proof.
  destruct (no_URL_parameter_no_ISBN (L := sampleLibs) (NewResponse false)
              (post "{name:Dune,isbn:ISBN-9,authors:[{name:Herbert}]}") Init)
    as (H & _); [reflexivity|].
  rewrite H. reflexivity.
Defined.

(** ** Invariants of the stores *)

(** X5: [Login], [Logout] and [getAllBooks] only read the stores: each
    returns the store it was given. *)
Theorem readers_leave_stores `{L : Libs} (w : ResponseWriter) (r : Request)
    (now : Time) (s : Store) :
  (Login w r now s).2 = s /\ (Logout w r now s).2 = s /\ (getAllBooks w r s).2 = s.
Proof.
  split; [apply Login_store|]. split; [reflexivity | apply getAllBooks_store].
Qed.

Lemma run_keeps_credentials `{L : Libs} (c : Call) (w : ResponseWriter) (r : Request)
    (s : Store) (u p : string) :
  CredentialList s !! u = Some p ->
  CredentialList (run c w r s).2 !! u = Some p.
Proof.
  intros Hu. destruct c; simpl.
  - unfold SignIn. repeat case_match; simpl; try exact Hu.
    rewrite lookup_insert_ne; [exact Hu | congruence].
  - rewrite Login_store. exact Hu.
  - exact Hu.
  - unfold AddNewBook. repeat case_match; simpl; exact Hu.
  - unfold updateBook. repeat case_match; simpl; exact Hu.
  - unfold deleteBook. repeat case_match; simpl; exact Hu.
  - rewrite getAllBooks_store. exact Hu.
Qed.

(** X3: a credential is never changed or removed: once the Credential Store
    maps [u] to [p], it does so after every sequence of handler calls. *)
Theorem credentials_persist `{L : Libs} (calls : list (Call * ResponseWriter * Request))
    (s : Store) (u p : string) :
  CredentialList s !! u = Some p ->
  CredentialList (runAll calls s) !! u = Some p.
Proof.
  revert s. induction calls as [| [[c w] r] calls IH]; intros s Hu; simpl.
  - exact Hu.
  - apply IH, run_keeps_credentials, Hu.
Qed.

Lemma credentials_persist_witness :
  CredentialList
    (runAll (L := sampleLibs)
       [ (CallSignIn, NewResponse false, post "{username:sabnaj,password:wrong}");
         (CallDeleteBook, NewResponse false, put "ISBN 1" "");
         (CallLogout 7, NewResponse false, post "") ]
       Init) !! "sabnaj" = Some "1234".
Proof.
  apply (credentials_persist (L := sampleLibs)). vm_compute. reflexivity.
Defined.

Lemma run_keeps_keys_nonempty `{L : Libs} (c : Call) (w : ResponseWriter) (r : Request)
    (s : Store) :
  BookList s !! "" = None -> BookList (run c w r s).2 !! "" = None.
Proof.
  intros Hs. destruct c; simpl.
  - unfold SignIn. repeat case_match; simpl; exact Hs.
  - rewrite Login_store. exact Hs.
  - exact Hs.
  - unfold AddNewBook. destruct (decodeBody json_Decode_Book r) as [book|]; [|exact Hs].
    destruct (_ || _) eqn:Hvalid; [exact Hs|].
    destruct (BookList s !! Book.ISBN book); [exact Hs|]. simpl.
    rewrite lookup_insert_ne; [exact Hs|].
    intros Hempty. rewrite Hempty in Hvalid. simpl in Hvalid.
    rewrite orb_true_r in Hvalid. discriminate Hvalid.
  - unfold updateBook.
    destruct (String.length (URLParam r "ISBN") =? 0)%nat eqn:Hlen; [exact Hs|].
    destruct (BookList s !! URLParam r "ISBN"); [|exact Hs].
    destruct (decodeBody json_Decode_Book r) as [newBook|]; [|exact Hs].
    destruct (Write "Book updated successfully" w) as [w' err]. simpl.
    rewrite lookup_insert_ne; [exact Hs|].
    intros Hempty. rewrite Hempty in Hlen. discriminate Hlen.
  - unfold deleteBook. repeat case_match; simpl; try exact Hs.
    rewrite lookup_delete_None. right. exact Hs.
  - rewrite getAllBooks_store. exact Hs.
Qed.

(** X4: in every store the server can reach from [Init], the empty string is
    not a key of the Book Store. *)
Theorem reachable_keys_nonempty `{L : Libs} (s : Store) :
  reachable s -> BookList s !! "" = None.
Proof.
  induction 1 as [| s c w r Hreach IH].
  - vm_compute. reflexivity.
  - apply run_keeps_keys_nonempty, IH.
Qed.

Lemma reachable_keys_nonempty_witness :
  BookList (AddNewBook (L := sampleLibs) (NewResponse false)
              (post "{name:Dune,isbn:ISBN-9,authors:[{name:Herbert}]}") Init).2
    !! "" = None.
Proof.
  apply (reachable_keys_nonempty (L := sampleLibs)).
  apply (reachable_run (L := sampleLibs) Init CallAddNewBook (NewResponse false)
           (post "{name:Dune,isbn:ISBN-9,authors:[{name:Herbert}]}")).
  apply reachable_Init.
Defined.

(** ** Two sessions, run on the table-driven libraries *)

(** Register alice/pw1: 201; register alice/pw2: 409; log in with pw1: 200
    and a cookie; log in with a wrong password: 404 and no cookie. *)
Example session_register_login :
  let fresh := NewResponse false in
  let s1 := (SignIn (L := sampleLibs) fresh (post "{username:alice,password:pw1}") Init).2 in
  let s2 := (SignIn (L := sampleLibs) fresh (post "{username:alice,password:pw2}") s1).2 in
  status (SignIn (L := sampleLibs) fresh (post "{username:alice,password:pw1}") Init).1
    = Some 201
  /\ status (SignIn (L := sampleLibs) fresh (post "{username:alice,password:pw2}") s1).1
      = Some 409
  /\ status (Login (L := sampleLibs) fresh (post "{username:alice,password:pw1}") 0 s2).1
      = Some 200
  /\ cookies (Login (L := sampleLibs) fresh (post "{username:alice,password:pw1}") 0 s2).1
      = [Cookie.mk "jwt" "header.payload.signature" 1200000000000]
  /\ status (Login (L := sampleLibs) fresh (post "{username:alice,password:wrong}") 0 s2).1
      = Some 404
  /\ cookies (Login (L := sampleLibs) fresh (post "{username:alice,password:wrong}") 0 s2).1
      = [].
Proof. vm_compute. repeat split. Qed.

(** Add Dune under ISBN-9: 201, and the store has the key; delete it: 200;
    delete it again: 404. *)
Example session_add_delete :
  let fresh := NewResponse false in
  let body := "{name:Dune,isbn:ISBN-9,authors:[{name:Herbert}]}" in
  let s1 := (AddNewBook (L := sampleLibs) fresh (post body) Init).2 in
  let s2 := (deleteBook fresh (put "ISBN-9" "") s1).2 in
  status (AddNewBook (L := sampleLibs) fresh (post body) Init).1 = Some 201
  /\ BookList s1 !! "ISBN-9" = Some dune
  /\ status (deleteBook fresh (put "ISBN-9" "") s1).1 = Some 200
  /\ BookList s2 !! "ISBN-9" = None
  /\ status (deleteBook fresh (put "ISBN-9" "") s2).1 = Some 404.
Proof. vm_compute. repeat split. Qed.

(** ** Listing the books *)

Lemma Header_Set_header (k v : string) (w : ResponseWriter) :
  status w = None -> header (Header_Set k v w) = <[k := v]> (header w).
Proof. intros Hw. unfold Header_Set. rewrite Hw. reflexivity. Qed.

Lemma header_WriteHeader (code : Z) (w : ResponseWriter) :
  header (WriteHeader code w) = header w.
Proof. unfold WriteHeader. destruct (status w); reflexivity. Qed.

Lemma header_Write (data : string) (w : ResponseWriter) :
  header (Write data w).1 = header w.
Proof.
  unfold Write. destruct (writeFails _); simpl; apply header_WriteHeader.
Qed.

Lemma Write_err (data : string) (w : ResponseWriter) :
  (Write data w).2 = writeFails w.
Proof.
  unfold Write. rewrite writeFails_WriteHeader. destruct (writeFails w); reflexivity.
Qed.

Lemma body_Write_fails (data : string) (w : ResponseWriter) :
  writeFails w = true -> body (Write data w).1 = body w.
Proof.
  intros Hf. unfold Write. rewrite writeFails_WriteHeader, Hf. simpl.
  apply body_WriteHeader.
Qed.

Lemma header_Error (msg : string) (code : Z) (w : ResponseWriter) :
  status w = None ->
  header (Error msg code w) !! "Content-Type" = Some "text/plain; charset=utf-8".
Proof.
  intros Hw. unfold Error. cbv zeta. rewrite header_Write, header_WriteHeader.
  destruct (Header_Del_fields "Content-Length" w) as (Hs0 & _).
  destruct (Header_Set_fields "Content-Type" "text/plain; charset=utf-8"
              (Header_Del "Content-Length" w)) as (Hs1 & _).
  rewrite Header_Set_header by (rewrite Hs1, Hs0; exact Hw).
  rewrite Header_Set_header by (rewrite Hs0; exact Hw).
  rewrite lookup_insert_ne by discriminate. apply lookup_insert_eq.
Qed.

(** X6: on a fresh response [getAllBooks] answers 200 with the content type
    "application/json" and the encoded Book Store followed by a line feed
    when the store encodes and the body can be written; 500 as plain text
    ("Cannot encode data") when the store does not encode; and when the
    encoded store cannot be written the status stays 200 with nothing added
    to the body, since the error reply comes after the header. The request is
    never read. *)
Theorem getAllBooks_spec `{L : Libs} (w : ResponseWriter) (r r' : Request) (s : Store) :
  status w = None ->
  (forall bytes : string,
     json_Marshal_BookDB (BookList s) = Some bytes -> writeFails w = false ->
     status (getAllBooks w r s).1 = Some StatusOK
     /\ header (getAllBooks w r s).1 = <["Content-Type" := "application/json"]> (header w)
     /\ body (getAllBooks w r s).1 = body w +:+ bytes +:+ LF)
  /\ (json_Marshal_BookDB (BookList s) = None ->
      status (getAllBooks w r s).1 = Some StatusInternalServerError
      /\ header (getAllBooks w r s).1 !! "Content-Type"
         = Some "text/plain; charset=utf-8"
      /\ (writeFails w = false ->
          body (getAllBooks w r s).1 = body w +:+ "Cannot encode data" +:+ LF))
  /\ (forall bytes : string,
      json_Marshal_BookDB (BookList s) = Some bytes -> writeFails w = true ->
      status (getAllBooks w r s).1 = Some StatusOK
      /\ body (getAllBooks w r s).1 = body w)
  /\ getAllBooks w r s = getAllBooks w r' s.
Proof.
  intros Hw.
  destruct (Header_Set_fields "Content-Type" "application/json" w)
    as (Hs & Hc & Hb & Hf).
  split; [|split; [|split]].
  - intros bytes Hm Hok. unfold getAllBooks. rewrite Hm.
    destruct (Write (bytes +:+ LF) (Header_Set "Content-Type" "application/json" w))
      as [w1 err] eqn:Hwr.
    assert (Herr : err = false).
    { change err with (w1, err).2. rewrite <- Hwr, Write_err, Hf. exact Hok. }
    assert (Hw1 : w1 = (Write (bytes +:+ LF)
                          (Header_Set "Content-Type" "application/json" w)).1)
      by (rewrite Hwr; reflexivity).
    rewrite Herr. simpl.
    rewrite status_WriteHeader, header_WriteHeader, body_WriteHeader, Hw1.
    rewrite status_Write, header_Write, Hs, Hw, Header_Set_header by exact Hw.
    rewrite body_Write by (rewrite Hf; exact Hok). rewrite Hb.
    repeat split.
  - intros Hm. unfold getAllBooks. rewrite Hm. simpl.
    split; [apply status_Error; rewrite Hs; exact Hw|].
    split; [apply header_Error; rewrite Hs; exact Hw|].
    intros Hok. rewrite body_Error by (rewrite Hf; exact Hok). rewrite Hb. reflexivity.
  - intros bytes Hm Hbad. unfold getAllBooks. rewrite Hm.
    destruct (Write (bytes +:+ LF) (Header_Set "Content-Type" "application/json" w))
      as [w1 err] eqn:Hwr.
    assert (Herr : err = true).
    { change err with (w1, err).2. rewrite <- Hwr, Write_err, Hf. exact Hbad. }
    assert (Hw1 : w1 = (Write (bytes +:+ LF)
                          (Header_Set "Content-Type" "application/json" w)).1)
      by (rewrite Hwr; reflexivity).
    rewrite Herr. simpl.
    assert (Hst1 : status w1 = Some StatusOK)
      by (rewrite Hw1, status_Write, Hs, Hw; reflexivity).
    assert (Hf1 : writeFails w1 = true).
    { rewrite Hw1. unfold Write. rewrite writeFails_WriteHeader, Hf, Hbad. simpl.
      rewrite writeFails_WriteHeader, Hf. exact Hbad. }
    rewrite Error_written by (rewrite Hst1; eexists; reflexivity).
    rewrite status_Write, Hst1. split; [reflexivity|].
    rewrite body_Write_fails by exact Hf1.
    rewrite Hw1, body_Write_fails by (rewrite Hf; exact Hbad). exact Hb.
  - reflexivity.
Qed.

Lemma getAllBooks_spec_witness :
  status (getAllBooks (L := sampleLibs) (NewResponse false) (post "") Init).1
    = Some StatusOK
  /\ body (getAllBooks (L := sampleLibs) (NewResponse false) (post "") Init).1
     = "{}" +:+ LF.
Proof.
  destruct (getAllBooks_spec (L := sampleLibs) (NewResponse false) (post "") (post "")
              Init) as (H & _); [reflexivity|].
  destruct (H "{}") as (Hs & _ & Hb); [reflexivity | reflexivity |].
  split; [exact Hs | exact Hb].
Defined.

(** ** The outcomes of [SignIn] and [Login], case by case *)

(** Closes the equivalences of an outcome table once the status is known. *)
Ltac settle_outcome :=
  repeat split; intros;
  repeat match goal with
         | H : _ /\ _ |- _ => destruct H
         | H : exists _, _ |- _ => destruct H
         | H : _ \/ _ |- _ => destruct H
         | H : is_Some _ |- _ => destruct H
         end;
  simplify_eq; try discriminate; try tauto; try congruence; try naive_solver.

Lemma SignIn_wrong_method `{L : Libs} (w : ResponseWriter) (r : Request) (s : Store) :
  Method r <> MethodPost ->
  SignIn w r s = (Error "Invalid request method" StatusMethodNotAllowed w, s).
Proof.
  intros Hm. unfold SignIn. apply String.eqb_neq in Hm. rewrite Hm. reflexivity.
Qed.

Lemma SignIn_unreadable `{L : Libs} (w : ResponseWriter) (r : Request) (s : Store) :
  Method r = MethodPost -> Body r = None ->
  SignIn w r s = (Error "Unable to read request body" StatusBadRequest w, s).
Proof. intros Hm Hb. unfold SignIn. rewrite Hm, Hb. reflexivity. Qed.

Lemma SignIn_invalid_JSON `{L : Libs} (w : ResponseWriter) (r : Request) (s : Store)
    (bytes : string) :
  Method r = MethodPost -> Body r = Some bytes ->
  json_Unmarshal_Credentials bytes = None ->
  SignIn w r s = (Error "Invalid JSON format" StatusBadRequest w, s).
Proof. intros Hm Hb Hd. unfold SignIn. rewrite Hm, Hb, Hd. reflexivity. Qed.

(** X7: the status of [SignIn] on a fresh response, case by case. It is 405
    exactly when the method is not POST (whatever the body and the store),
    400 exactly when the method is POST and the body cannot be read or does
    not unmarshal, 409 exactly when the unmarshalled user name is a key of the
    Credential Store, and 201 exactly when it is not: nothing else is
    checked, an empty user name or password included. *)
Theorem SignIn_outcomes `{L : Libs} (w : ResponseWriter) (r : Request) (s : Store) :
  status w = None ->
  (status (SignIn w r s).1 = Some StatusMethodNotAllowed <-> Method r <> MethodPost)
  /\ (status (SignIn w r s).1 = Some StatusBadRequest <->
      Method r = MethodPost
      /\ (Body r = None
          \/ exists bytes, Body r = Some bytes
                           /\ json_Unmarshal_Credentials bytes = None))
  /\ (status (SignIn w r s).1 = Some StatusConflict <->
      Method r = MethodPost
      /\ exists bytes user, Body r = Some bytes
           /\ json_Unmarshal_Credentials bytes = Some user
           /\ is_Some (CredentialList s !! Credentials.Username user))
  /\ (status (SignIn w r s).1 = Some StatusCreated <->
      Method r = MethodPost
      /\ exists bytes user, Body r = Some bytes
           /\ json_Unmarshal_Credentials bytes = Some user
           /\ CredentialList s !! Credentials.Username user = None).
Proof.
  intros Hw.
  destruct (String.eqb_spec (Method r) MethodPost) as [Hm | Hm].
  2:{ rewrite SignIn_wrong_method by exact Hm. simpl.
      rewrite status_Error by exact Hw.
      settle_outcome. }
  destruct (Body r) as [bytes|] eqn:Hb.
  2:{ rewrite SignIn_unreadable by assumption. simpl.
      rewrite status_Error by exact Hw.
      settle_outcome. }
  destruct (json_Unmarshal_Credentials bytes) as [user|] eqn:Hd.
  2:{ rewrite (SignIn_invalid_JSON w r s bytes) by assumption. simpl.
      rewrite status_Error by exact Hw.
      settle_outcome. }
  destruct (CredentialList s !! Credentials.Username user) as [old|] eqn:Hu.
  - rewrite (SignIn_conflict w r s bytes user);
      [| assumption | assumption | assumption | rewrite Hu; eauto ].
    simpl. rewrite status_Error by exact Hw.
    settle_outcome.
  - rewrite (SignIn_created w r s bytes user) by assumption. simpl.
    rewrite status_Write, status_WriteHeader, Hw. simpl.
    settle_outcome.
Qed.

Lemma SignIn_outcomes_witness :
  status (SignIn (L := sampleLibs) (NewResponse false)
            (put "" "{username:alice,password:pw1}") Init).1
  = Some StatusMethodNotAllowed.
Proof.
  destruct (SignIn_outcomes (L := sampleLibs) (NewResponse false)
              (put "" "{username:alice,password:pw1}") Init) as (H & _);
    [reflexivity|].
  apply H. discriminate.
Defined.

Lemma Login_undecodable `{L : Libs} (w : ResponseWriter) (r : Request) (now : Time)
    (s : Store) :
  decodeBody json_Decode_Credentials r = None ->
  Login w r now s = (Error "Cannot decode data" StatusBadRequest w, s).
Proof. intros Hd. unfold Login. rewrite Hd. reflexivity. Qed.

(** X8: the status of [Login] on a fresh response, case by case. It is 400
    exactly when the body does not decode; 404 exactly when it decodes to
    credentials the Credential Store does not hold; 500 exactly when the
    credentials are held and the token cannot be built or signed; and 200
    exactly when they are held and the token is built and signed. *)
Theorem Login_outcomes `{L : Libs} (w : ResponseWriter) (r : Request) (now : Time)
    (s : Store) :
  status w = None ->
  (status (Login w r now s).1 = Some StatusBadRequest <->
     decodeBody json_Decode_Credentials r = None)
  /\ (status (Login w r now s).1 = Some StatusNotFound <->
      exists cred, decodeBody json_Decode_Credentials r = Some cred
        /\ CredentialList s !! Credentials.Username cred
           <> Some (Credentials.Password cred))
  /\ (status (Login w r now s).1 = Some StatusInternalServerError <->
      exists cred, decodeBody json_Decode_Credentials r = Some cred
        /\ CredentialList s !! Credentials.Username cred
           = Some (Credentials.Password cred)
        /\ (jwt_Build [Audience ["sabnaj"]; Expiration (now + 20 * Minute)] = None
            \/ exists token,
                 jwt_Build [Audience ["sabnaj"]; Expiration (now + 20 * Minute)]
                   = Some token
                 /\ jwt_Sign token HS256 Secret = None))
  /\ (status (Login w r now s).1 = Some StatusOK <->
      exists cred token signed,
        decodeBody json_Decode_Credentials r = Some cred
        /\ CredentialList s !! Credentials.Username cred
           = Some (Credentials.Password cred)
        /\ jwt_Build [Audience ["sabnaj"]; Expiration (now + 20 * Minute)] = Some token
        /\ jwt_Sign token HS256 Secret = Some signed).
Proof.
  intros Hw.
  destruct (decodeBody json_Decode_Credentials r) as [cred|] eqn:Hd.
  2:{ rewrite Login_undecodable by exact Hd. simpl. rewrite status_Error by exact Hw.
      settle_outcome. }
  destruct (CredentialList s !! Credentials.Username cred) as [password|] eqn:Hu.
  2:{ rewrite (Login_unknown_user w r now s cred) by assumption. simpl.
      rewrite status_Error by exact Hw.
      settle_outcome. }
  destruct (String.eqb_spec password (Credentials.Password cred)) as [Heq | Hne].
  2:{ rewrite (Login_wrong_password w r now s cred password) by assumption. simpl.
      rewrite status_Error by exact Hw.
      settle_outcome. }
  subst password.
  rewrite (Login_password_matches w r now s cred) by assumption. simpl.
  destruct (issue_cases w now Hw)
    as [(Hst & _ & Hlib) | (Hst & token & signed & Hb & Hs & _)];
    rewrite Hst; unfold Time_Add in *.
  - settle_outcome.
  - settle_outcome.
Qed.

Lemma Login_outcomes_witness :
  status (Login (L := sampleLibs) (NewResponse false)
            (post "{username:sabnaj,password:1234}") 0 Init).1 = Some StatusOK.
Proof.
  destruct (Login_outcomes (L := sampleLibs) (NewResponse false)
              (post "{username:sabnaj,password:1234}") 0 Init) as (_ & _ & _ & H);
    [reflexivity|].
  apply H. exists (Credentials.mk "sabnaj" "1234").
  eexists. eexists. repeat split.
Defined.

(** ** How the handlers compose *)





Lemma Store_eq (s : Store) :
  {| CredentialList := CredentialList s; BookList := BookList s |} = s.
Proof. destruct s; reflexivity. Qed.

(** X10: deleting the book that [AddNewBook] has just added (201) answers
    200 and gives back exactly the stores from before the addition; and
    adding again, with its own record, a book that [deleteBook] has just
    removed (200) answers 201 and gives back the stores from before the
    removal, provided the record had been stored under its own ISBN with a
    name and an author. *)
Theorem add_delete_round_trip `{L : Libs} (w1 w2 : ResponseWriter) (r1 r2 : Request)
    (s : Store) (book : Book.t) :
  status w1 = None -> status w2 = None ->
  decodeBody json_Decode_Book r1 = Some book ->
  URLParam r2 "ISBN" = Book.ISBN book ->
  (status (AddNewBook w1 r1 s).1 = Some StatusCreated ->
     status (deleteBook w2 r2 (AddNewBook w1 r1 s).2).1 = Some StatusOK
     /\ (deleteBook w2 r2 (AddNewBook w1 r1 s).2).2 = s)
  /\ (status (deleteBook w2 r2 s).1 = Some StatusOK ->
      BookList s !! Book.ISBN book = Some book ->
      Book.Name book <> "" -> Book.Authors book <> [] ->
      status (AddNewBook w1 r1 (deleteBook w2 r2 s).2).1 = Some StatusCreated
      /\ (AddNewBook w1 r1 (deleteBook w2 r2 s).2).2 = s).
Proof.
  intros Hw1 Hw2 Hd Hk. split.
  - intros Hok.
    destruct (AddNewBook_Created_inv w1 r1 s book Hw1 Hd Hok) as (Hn & Hi & Ha & Hnew).
    rewrite (AddNewBook_fresh w1 r1 s book) by assumption.
    rewrite deleteBook_removes;
      [| rewrite Hk; exact Hi | rewrite Hk; simpl; rewrite lookup_insert_eq; eauto ].
    simpl. rewrite status_WriteHeader, Hw2, Hk.
    split; [reflexivity|].
    rewrite delete_insert_id by exact Hnew. apply Store_eq.
  - intros Hok Hheld Hn Ha.
    assert (Hi : Book.ISBN book <> "").
    { intros Hempty. rewrite deleteBook_no_ISBN in Hok by (rewrite Hk; exact Hempty).
      simpl in Hok. rewrite status_Error in Hok by exact Hw2. discriminate Hok. }
    rewrite deleteBook_removes;
      [| rewrite Hk; exact Hi | rewrite Hk, Hheld; eauto ].
    rewrite (AddNewBook_fresh w1 r1 _ book);
      [| assumption | assumption | assumption | assumption
       | simpl; rewrite Hk; apply lookup_delete_eq ].
    simpl. rewrite status_WriteHeader, Hw1, Hk.
    split; [reflexivity|].
    rewrite insert_delete_id by exact Hheld. apply Store_eq.
Qed.

Lemma add_delete_round_trip_witness :
  (deleteBook (NewResponse false) (put "ISBN-9" "")
     (AddNewBook (L := sampleLibs) (NewResponse false)
        (post "{name:Dune,isbn:ISBN-9,authors:[{name:Herbert}]}") Init).2).2 = Init.
Proof.
  destruct (add_delete_round_trip (L := sampleLibs) (NewResponse false)
              (NewResponse false)
              (post "{name:Dune,isbn:ISBN-9,authors:[{name:Herbert}]}")
              (put "ISBN-9" "") Init dune) as (H & _);
    [reflexivity | reflexivity | reflexivity | reflexivity |].
  apply H. vm_compute. reflexivity.
Defined.

(** X11: the last write to an ISBN wins. After an [updateBook] that
    succeeded (200) for an ISBN, a second [updateBook] for the same ISBN
    answers as it would have without the first and, when its body decodes,
    leaves the stores it would have left without the first; a [deleteBook]
    for the same ISBN answers and leaves the stores exactly as it would have
    without the update. *)
Theorem update_is_overwritten `{L : Libs} (w1 w2 : ResponseWriter) (r1 r2 : Request)
    (s : Store) :
  status w1 = None ->
  URLParam r2 "ISBN" = URLParam r1 "ISBN" ->
  status (updateBook w1 r1 s).1 = Some StatusOK ->
  (updateBook w2 r2 (updateBook w1 r1 s).2).1 = (updateBook w2 r2 s).1
  /\ (is_Some (decodeBody json_Decode_Book r2) ->
      updateBook w2 r2 (updateBook w1 r1 s).2 = updateBook w2 r2 s)
  /\ deleteBook w2 r2 (updateBook w1 r1 s).2 = deleteBook w2 r2 s.
Proof.
  intros Hw1 Hk Hok.
  destruct (updateBook_OK_inv w1 r1 s Hw1 Hok) as (Hne & Hsome & [nb Hd]).
  destruct (updateBook_replaces w1 r1 s nb Hw1 Hne Hsome Hd) as (_ & _ & _ & Hs).
  rewrite Hs. destruct Hsome as [old Hold]. split; [|split].
  - unfold updateBook. rewrite Hk, (length_zero_false _ Hne). simpl.
    rewrite lookup_insert_eq, Hold.
    destruct (decodeBody json_Decode_Book r2) as [nb2|]; [|reflexivity].
    destruct (Write "Book updated successfully" w2); reflexivity.
  - intros [nb2 Hd2]. unfold updateBook. rewrite Hk, (length_zero_false _ Hne). simpl.
    rewrite lookup_insert_eq, Hold, Hd2, insert_insert_eq. reflexivity.
  - unfold deleteBook. rewrite Hk, (length_zero_false _ Hne). simpl.
    rewrite lookup_insert_eq, Hold, delete_insert_eq. reflexivity.
Qed.

Lemma update_is_overwritten_witness :
  deleteBook (NewResponse false) (put "ISBN 1" "")
    (updateBook (L := sampleLibs) (NewResponse false)
       (put "ISBN 1" "{name:Dune,isbn:ISBN-9,authors:[{name:Herbert}]}") Init).2
  = deleteBook (NewResponse false) (put "ISBN 1" "") Init.
Proof.
  destruct (update_is_overwritten (L := sampleLibs) (NewResponse false)
              (NewResponse false)
              (put "ISBN 1" "{name:Dune,isbn:ISBN-9,authors:[{name:Herbert}]}")
              (put "ISBN 1" "") Init) as (_ & _ & H);
    [reflexivity | reflexivity | vm_compute; reflexivity | exact H].
Defined.

(** ** The shape of the Book Store *)

Lemma Init_wellFormed : wellFormed Init.
Proof.
  unfold wellFormed, Init. simpl.
  apply map_Forall_insert_2; [repeat split; discriminate|].
  apply map_Forall_insert_2; [repeat split; discriminate|].
  apply map_Forall_empty.
Qed.

Lemma run_keeps_wellFormed `{L : Libs} (c : Call) (w : ResponseWriter) (r : Request)
    (s : Store) :
  isUpdate c = false -> wellFormed s -> wellFormed (run c w r s).2.
Proof.
  intros Hc Hs. destruct c; simpl; try discriminate Hc.
  - unfold SignIn. repeat case_match; simpl; exact Hs.
  - rewrite Login_store. exact Hs.
  - exact Hs.
  - unfold AddNewBook. destruct (decodeBody json_Decode_Book r) as [book|]; [|exact Hs].
    destruct (_ || _) eqn:Hvalid; [exact Hs|].
    destruct (BookList s !! Book.ISBN book); [exact Hs|].
    unfold wellFormed. simpl. apply map_Forall_insert_2; [|exact Hs].
    apply not_true_iff_false in Hvalid. rewrite invalid_entry_iff in Hvalid.
    repeat split; tauto.
  - unfold deleteBook. repeat case_match; simpl; try exact Hs.
    unfold wellFormed. simpl. apply map_Forall_delete. exact Hs.
  - rewrite getAllBooks_store. exact Hs.
Qed.

(** X12: as long as [updateBook] is not called, the Book Store keeps the
    shape [AddNewBook] gives it: starting from a store in which every record
    sits under its own, non-empty ISBN and has a name and an author (as in
    [Init]), any sequence of the other six handlers leaves such a store. *)
Theorem wellFormed_without_update `{L : Libs}
    (calls : list (Call * ResponseWriter * Request)) (s : Store) :
  wellFormed s ->
  forallb (fun x => negb (isUpdate x.1.1)) calls = true ->
  wellFormed (runAll calls s).
Proof.
  revert s. induction calls as [| [[c w] r] calls IH]; intros s Hs Hcalls; simpl.
  - exact Hs.
  - simpl in Hcalls. apply andb_true_iff in Hcalls as [Hc Hrest].
    apply IH; [|exact Hrest].
    apply run_keeps_wellFormed; [|exact Hs].
    apply negb_true_iff. exact Hc.
Qed.

Lemma wellFormed_without_update_witness :
  wellFormed
    (runAll (L := sampleLibs)
       [ (CallAddNewBook, NewResponse false,
          post "{name:Dune,isbn:ISBN-9,authors:[{name:Herbert}]}");
         (CallDeleteBook, NewResponse false, put "ISBN 1" "");
         (CallSignIn, NewResponse false, post "{username:alice,password:pw1}") ]
       Init).
Proof.
  apply (wellFormed_without_update (L := sampleLibs));
    [apply Init_wellFormed | reflexivity].
Defined.

(** X13: a successful [updateBook] (200) keeps that shape exactly when the
    decoded book carries the ISBN it is stored under and has a name and an
    author; the handler checks none of this. *)
Theorem updateBook_wellFormed_iff `{L : Libs} (w : ResponseWriter) (r : Request)
    (s : Store) (newBook : Book.t) :
  status w = None ->
  wellFormed s ->
  decodeBody json_Decode_Book r = Some newBook ->
  status (updateBook w r s).1 = Some StatusOK ->
  (wellFormed (updateBook w r s).2 <->
   Book.ISBN newBook = URLParam r "ISBN" /\ Book.Name newBook <> ""
   /\ Book.Authors newBook <> []).
Proof.
  intros Hw Hs Hd Hok.
  destruct (updateBook_OK_inv w r s Hw Hok) as (Hne & Hsome & _).
  destruct (updateBook_replaces w r s newBook Hw Hne Hsome Hd) as (_ & _ & _ & Hs').
  rewrite Hs'. unfold wellFormed. simpl. split.
  - intros Hall. apply map_Forall_insert_1_1 in Hall. tauto.
  - intros (Hi & Hn & Ha). unfold wellFormed in Hs.
    intros k b Hkb. destruct (decide (URLParam r "ISBN" = k)) as [<- | Hk].
    + rewrite lookup_insert_eq in Hkb. injection Hkb as <-. tauto.
    + rewrite lookup_insert_ne in Hkb by exact Hk. apply (Hs k b Hkb).
Qed.

Lemma updateBook_wellFormed_iff_witness :
  ~ wellFormed
      (updateBook (L := sampleLibs) (NewResponse false)
         (put "ISBN 1" "{name:Dune,isbn:ISBN-9,authors:[{name:Herbert}]}") Init).2.
Proof.
  destruct (updateBook_wellFormed_iff (L := sampleLibs) (NewResponse false)
              (put "ISBN 1" "{name:Dune,isbn:ISBN-9,authors:[{name:Herbert}]}")
              Init dune) as (H & _);
    [reflexivity | apply Init_wellFormed | reflexivity | vm_compute; reflexivity |].
  intros Hwf. destruct (H Hwf) as (Hi & _). discriminate Hi.
Defined.

(** X14: how many books there are. A 201 from [AddNewBook] adds exactly one
    key to the Book Store and a 200 from [deleteBook] removes exactly one,
    while [updateBook] never changes the number of books; and each of the
    three leaves the record under every other ISBN, and the Credential Store,
    as they were. *)
Theorem book_count_and_frame `{L : Libs} (w : ResponseWriter) (r : Request)
    (s : Store) :
  status w = None ->
  (status (AddNewBook w r s).1 = Some StatusCreated ->
     size (BookList (AddNewBook w r s).2) = S (size (BookList s)))
  /\ (status (deleteBook w r s).1 = Some StatusOK ->
      S (size (BookList (deleteBook w r s).2)) = size (BookList s))
  /\ size (BookList (updateBook w r s).2) = size (BookList s)
  /\ (forall (book : Book.t) (k : string),
      decodeBody json_Decode_Book r = Some book -> k <> Book.ISBN book ->
      BookList (AddNewBook w r s).2 !! k = BookList s !! k)
  /\ (forall k : string,
      k <> URLParam r "ISBN" ->
      BookList (updateBook w r s).2 !! k = BookList s !! k
      /\ BookList (deleteBook w r s).2 !! k = BookList s !! k)
  /\ CredentialList (AddNewBook w r s).2 = CredentialList s
  /\ CredentialList (updateBook w r s).2 = CredentialList s
  /\ CredentialList (deleteBook w r s).2 = CredentialList s.
Proof.
  intros Hw. repeat split.
  - intros Hok. destruct (decodeBody json_Decode_Book r) as [book|] eqn:Hd.
    2:{ unfold AddNewBook in Hok. rewrite Hd in Hok. simpl in Hok.
        rewrite status_Error in Hok by exact Hw. discriminate Hok. }
    destruct (AddNewBook_Created_inv w r s book Hw Hd Hok) as (Hn & Hi & Ha & Hnew).
    rewrite (AddNewBook_fresh w r s book) by assumption. simpl.
    apply map_size_insert_None, Hnew.
  - intros Hok. destruct (String.eqb_spec (URLParam r "ISBN") "") as [Hk | Hk].
    { rewrite deleteBook_no_ISBN in Hok by exact Hk. simpl in Hok.
      rewrite status_Error in Hok by exact Hw. discriminate Hok. }
    destruct (BookList s !! URLParam r "ISBN") as [old|] eqn:Hold.
    2:{ rewrite deleteBook_absent in Hok by assumption. simpl in Hok.
        rewrite status_Error in Hok by exact Hw. discriminate Hok. }
    rewrite deleteBook_removes; [| exact Hk | rewrite Hold; eauto ]. simpl.
    rewrite map_size_delete, Hold. simpl.
    assert (size (BookList s) <> 0%nat).
    { intros Hz. apply map_size_empty_inv in Hz. rewrite Hz in Hold.
      rewrite lookup_empty in Hold. discriminate Hold. }
    lia.
  - unfold updateBook. destruct (String.length (URLParam r "ISBN") =? 0)%nat;
      [reflexivity|].
    destruct (BookList s !! URLParam r "ISBN") as [old|] eqn:Hold; [|reflexivity].
    destruct (decodeBody json_Decode_Book r) as [nb|]; [|reflexivity].
    destruct (Write "Book updated successfully" w). simpl.
    apply map_size_insert_Some. rewrite Hold. eauto.
  - intros book k Hd Hk. unfold AddNewBook. rewrite Hd.
    repeat case_match; simpl; try reflexivity.
    apply lookup_insert_ne. congruence.
  - unfold updateBook. destruct (String.length (URLParam r "ISBN") =? 0)%nat;
      [reflexivity|].
    destruct (BookList s !! URLParam r "ISBN"); [|reflexivity].
    destruct (decodeBody json_Decode_Book r) as [nb|]; [|reflexivity].
    destruct (Write "Book updated successfully" w). simpl.
    apply lookup_insert_ne. congruence.
  - unfold deleteBook. repeat case_match; simpl; try reflexivity.
    apply lookup_delete_ne. congruence.
  - unfold AddNewBook. repeat case_match; reflexivity.
  - unfold updateBook. destruct (String.length (URLParam r "ISBN") =? 0)%nat;
      [reflexivity|].
    destruct (BookList s !! URLParam r "ISBN"); [|reflexivity].
    destruct (decodeBody json_Decode_Book r) as [nb|]; [|reflexivity].
    destruct (Write "Book updated successfully" w). reflexivity.
  - unfold deleteBook. repeat case_match; reflexivity.
Qed.

Lemma book_count_and_frame_witness :
  size (BookList (AddNewBook (L := sampleLibs) (NewResponse false)
                    (post "{name:Dune,isbn:ISBN-9,authors:[{name:Herbert}]}")
                    Init).2) = 3%nat.
Proof.
  destruct (book_count_and_frame (L := sampleLibs) (NewResponse false)
              (post "{name:Dune,isbn:ISBN-9,authors:[{name:Herbert}]}") Init)
    as (H & _); [reflexivity|].
  rewrite H by (vm_compute; reflexivity). vm_compute. reflexivity.
Defined.

(** ** What the handlers answer and what they read *)

Lemma updateBook_status `{L : Libs} (w : ResponseWriter) (r : Request) (s : Store) :
  status w = None ->
  status (updateBook w r s).1 = Some StatusOK
  \/ status (updateBook w r s).1 = Some StatusBadRequest
  \/ status (updateBook w r s).1 = Some StatusNotFound.
Proof.
  intros Hw. destruct (String.eqb_spec (URLParam r "ISBN") "") as [Hk | Hk].
  { rewrite updateBook_no_ISBN by exact Hk. simpl. rewrite status_Error by exact Hw.
    auto. }
  destruct (BookList s !! URLParam r "ISBN") as [old|] eqn:Hold.
  2:{ rewrite updateBook_absent by assumption. simpl.
      rewrite status_Error by exact Hw. auto. }
  destruct (decodeBody json_Decode_Book r) as [nb|] eqn:Hd.
  2:{ rewrite updateBook_bad_body; [| exact Hk | rewrite Hold; eauto | exact Hd ].
      simpl. rewrite status_Error by exact Hw. auto. }
  left. apply (updateBook_replaces w r s nb Hw Hk); [rewrite Hold; eauto | exact Hd].
Qed.

(** X15: on a fresh response every handler writes a status, and only these:
    [SignIn] 201, 400, 405 or 409; [Login] 200, 400, 404 or 500; [Logout]
    200; [getAllBooks] 200 or 500; [AddNewBook] 201, 400 or 409; [updateBook]
    and [deleteBook] 200, 400 or 404. In particular [updateBook] never
    answers 500, although it has a branch that asks for it. *)
Theorem handlers_statuses `{L : Libs} (w : ResponseWriter) (r : Request) (now : Time)
    (s : Store) :
  status w = None ->
  (exists code, status (SignIn w r s).1 = Some code
     /\ code ∈ [StatusCreated; StatusBadRequest; StatusMethodNotAllowed; StatusConflict])
  /\ (exists code, status (Login w r now s).1 = Some code
        /\ code ∈ [StatusOK; StatusBadRequest; StatusNotFound;
                    StatusInternalServerError])
  /\ status (Logout w r now s).1 = Some StatusOK
  /\ (exists code, status (getAllBooks w r s).1 = Some code
        /\ code ∈ [StatusOK; StatusInternalServerError])
  /\ (exists code, status (AddNewBook w r s).1 = Some code
        /\ code ∈ [StatusCreated; StatusBadRequest; StatusConflict])
  /\ (exists code, status (updateBook w r s).1 = Some code
        /\ code ∈ [StatusOK; StatusBadRequest; StatusNotFound])
  /\ (exists code, status (deleteBook w r s).1 = Some code
        /\ code ∈ [StatusOK; StatusBadRequest; StatusNotFound]).
Proof.
  intros Hw.
  assert (Herr : forall msg code, status (Error msg code w) = Some code)
    by (intros; apply status_Error, Hw).
  split; [|split; [|split; [|split; [|split; [|split]]]]].
  - unfold SignIn. repeat case_match; simpl; rewrite ?Herr;
      try (eexists; split; [reflexivity | set_solver]).
    rewrite status_Write, status_WriteHeader, Hw.
    eexists; split; [reflexivity | set_solver].
  - destruct (decodeBody json_Decode_Credentials r) as [cred|] eqn:Hd.
    2:{ rewrite Login_undecodable by exact Hd. simpl. rewrite Herr.
        eexists; split; [reflexivity | set_solver]. }
    destruct (Login_rejected_or_matches w r now s cred Hw Hd) as [H404 | Hm].
    { rewrite H404. eexists; split; [reflexivity | set_solver]. }
    rewrite (Login_password_matches w r now s cred) by assumption. simpl.
    destruct (issue_cases w now Hw) as [(Hst & _) | (Hst & _)]; rewrite Hst;
      eexists; split; try reflexivity; set_solver.
  - unfold Logout. simpl. rewrite status_WriteHeader, status_SetCookie, Hw. reflexivity.
  - destruct (Header_Set_fields "Content-Type" "application/json" w) as (Hs & _).
    unfold getAllBooks. destruct (json_Marshal_BookDB (BookList s)) as [bytes|].
    2:{ simpl. rewrite status_Error by (rewrite Hs; exact Hw).
        eexists; split; [reflexivity | set_solver]. }
    destruct (Write (bytes +:+ LF) (Header_Set "Content-Type" "application/json" w))
      as [w1 err] eqn:Hwr.
    assert (Hst1 : status w1 = Some StatusOK).
    { change w1 with (w1, err).1. rewrite <- Hwr, status_Write, Hs, Hw. reflexivity. }
    destruct err; simpl.
    + rewrite Error_written by (rewrite Hst1; eexists; reflexivity).
      rewrite status_Write, Hst1. eexists; split; [reflexivity | set_solver].
    + rewrite status_WriteHeader, Hst1. eexists; split; [reflexivity | set_solver].
  - unfold AddNewBook. repeat case_match; simpl; rewrite ?Herr;
      try (eexists; split; [reflexivity | set_solver]).
    rewrite status_WriteHeader, Hw. eexists; split; [reflexivity | set_solver].
  - destruct (updateBook_status w r s Hw) as [H | [H | H]]; rewrite H;
      eexists; split; try reflexivity; set_solver.
  - unfold deleteBook. repeat case_match; simpl; rewrite ?Herr;
      try (eexists; split; [reflexivity | set_solver]).
    rewrite status_WriteHeader, Hw. eexists; split; [reflexivity | set_solver].
Qed.

Lemma handlers_statuses_witness :
  status (updateBook (L := sampleLibs) (NewResponse true)
            (put "ISBN 1" "{name:Dune,isbn:ISBN-9,authors:[{name:Herbert}]}") Init).1
  <> Some StatusInternalServerError.
Proof.
  destruct (handlers_statuses (L := sampleLibs) (NewResponse true)
              (put "ISBN 1" "{name:Dune,isbn:ISBN-9,authors:[{name:Herbert}]}") 0 Init)
    as (_ & _ & _ & _ & _ & (code & Hc & Hin) & _); [reflexivity|].
  rewrite Hc. intros Heq. injection Heq as ->.
  apply list_elem_of_In in Hin. simpl in Hin.
  destruct Hin as [H | [H | [H | []]]]; discriminate H.
Defined.

(** X16: what each handler reads of a request. [SignIn] reads the method
    and the body; [Login] and [AddNewBook] the body only (neither checks the
    method); [deleteBook] the ISBN parameter only; [updateBook] the ISBN
    parameter and the body; [Logout] and [getAllBooks] nothing. None reads
    the cookies, so [Login] issues a token and [Logout] answers whether or
    not a session cookie came with the request. *)
Theorem handlers_inputs `{L : Libs} (w : ResponseWriter) (r r' : Request) (now : Time)
    (s : Store) :
  (Method r = Method r' -> Body r = Body r' -> SignIn w r s = SignIn w r' s)
  /\ (Body r = Body r' -> Login w r now s = Login w r' now s)
  /\ Logout w r now s = Logout w r' now s
  /\ getAllBooks w r s = getAllBooks w r' s
  /\ (Body r = Body r' -> AddNewBook w r s = AddNewBook w r' s)
  /\ (URLParam r "ISBN" = URLParam r' "ISBN" -> deleteBook w r s = deleteBook w r' s)
  /\ (URLParam r "ISBN" = URLParam r' "ISBN" -> Body r = Body r' ->
      updateBook w r s = updateBook w r' s).
Proof.
  unfold SignIn, Login, Logout, getAllBooks, AddNewBook, deleteBook, updateBook,
    decodeBody.
  split; [intros -> ->; reflexivity|].
  split; [intros ->; reflexivity|].
  split; [reflexivity|]. split; [reflexivity|].
  split; [intros ->; reflexivity|].
  split; [intros ->; reflexivity|].
  intros -> ->. reflexivity.
Qed.

(** ** jwx/jws: splitting a compact serialization *)

Lemma IndexByte_None (s : jws.bytes) (c : ascii) :
  jws.IndexByte s c = None <-> c ∉ s.
Proof.
  induction s as [|b s IH]; simpl.
  - split; [intros _; apply not_elem_of_nil | reflexivity].
  - destruct (Ascii.eqb_spec b c) as [-> | Hne].
    + split; [discriminate | intros Hn; contradict Hn; left].
    + destruct (jws.IndexByte s c) eqn:E; simpl.
      * split; [discriminate|]. intros Hn. exfalso.
        assert (Hs : c ∉ s) by (intros Hin; apply Hn; right; exact Hin).
        apply IH in Hs. discriminate Hs.
      * split; [|reflexivity]. intros _ Hin.
        apply elem_of_cons in Hin as [-> | Hin]; [contradiction|].
        revert Hin. apply IH. reflexivity.
Qed.

Lemma IndexByte_found (p q : jws.bytes) (c : ascii) :
  c ∉ p -> jws.IndexByte (p ++ c :: q)%list c = Some (length p).
Proof.
  induction p as [|b p IH]; intros Hp; simpl.
  - rewrite Ascii.eqb_refl. reflexivity.
  - destruct (Ascii.eqb_spec b c) as [-> | Hne].
    + contradict Hp. left.
    + rewrite IH; [reflexivity|]. intros Hin. apply Hp. right. exact Hin.
Qed.

Lemma IndexByte_Some (s : jws.bytes) (c : ascii) (i : nat) :
  jws.IndexByte s c = Some i ->
  s = (take i s ++ c :: drop (i + 1) s)%list /\ (c ∉ take i s) /\ (i < length s)%nat.
Proof.
  revert i. induction s as [|b s IH]; intros i; simpl; [discriminate|].
  destruct (Ascii.eqb_spec b c) as [-> | Hne].
  - intros [= <-]. simpl. rewrite drop_0.
    split; [reflexivity|]. split; [apply not_elem_of_nil | lia].
  - destruct (jws.IndexByte s c) as [j|] eqn:E; simpl; [|discriminate].
    intros [= <-]. destruct (IH j eq_refl) as (Hs & Hn & Hl). simpl.
    split; [f_equal; exact Hs|].
    split; [|lia]. intros Hin. apply elem_of_cons in Hin as [-> | Hin]; auto.
Qed.

Lemma Index_byte (s : jws.bytes) (c : ascii) : jws.Index s [c] = jws.IndexByte s c.
Proof.
  induction s as [|b s IH]; simpl; [reflexivity|].
  destruct (Ascii.eqb_spec b c) as [-> | Hne].
  - rewrite bool_decide_eq_true_2; [reflexivity|].
    exists s. reflexivity.
  - rewrite bool_decide_eq_false_2, IH; [reflexivity|].
    intros [k Hk]. simpl in Hk. injection Hk as Hb _. congruence.
Qed.

Lemma Cut_found (p q : jws.bytes) (c : ascii) :
  c ∉ p -> jws.Cut (p ++ c :: q)%list [c] = (p, q, true).
Proof.
  intros Hp. unfold jws.Cut. rewrite Index_byte, IndexByte_found by exact Hp.
  rewrite take_app_length. simpl.
  replace (length p + 1)%nat with (length p + length [c])%nat by reflexivity.
  rewrite <- drop_drop, drop_app_length. reflexivity.
Qed.

Lemma Cut_missing (s : jws.bytes) (c : ascii) :
  c ∉ s -> jws.Cut s [c] = (s, [], false).
Proof.
  intros Hs. unfold jws.Cut. rewrite Index_byte.
  apply IndexByte_None in Hs. rewrite Hs. reflexivity.
Qed.

(** Every byte string is free of [c] or splits at its first [c]. *)
Lemma first_split (s : jws.bytes) (c : ascii) :
  c ∉ s \/ exists p q, s = (p ++ c :: q)%list /\ c ∉ p.
Proof.
  destruct (jws.IndexByte s c) as [i|] eqn:E.
  - right. apply IndexByte_Some in E as (Hs & Hn & _). eauto.
  - left. apply IndexByte_None. exact E.
Qed.

Lemma SplitCompact_Ok (src p q g : jws.bytes) :
  jws.SplitCompact src = jws.Ok (p, q, g) <->
  src = (p ++ "."%char :: q ++ "."%char :: g)%list
  /\ ("."%char ∉ p) /\ ("."%char ∉ q) /\ ("."%char ∉ g).
Proof.
  unfold jws.SplitCompact, jws.tokenDelim. split.
  - destruct (first_split src "."%char) as [Hn | (p1 & s1 & -> & Hp1)].
    { rewrite Cut_missing by exact Hn. discriminate. }
    rewrite Cut_found by exact Hp1. simpl.
    destruct (first_split s1 "."%char) as [Hn | (q1 & s2 & -> & Hq1)].
    { rewrite Cut_missing by exact Hn. discriminate. }
    rewrite Cut_found by exact Hq1. simpl.
    destruct (first_split s2 "."%char) as [Hn | (g1 & s3 & -> & Hg1)].
    + rewrite Cut_missing by exact Hn. simpl. intros [= <- <- <-]. auto.
    + rewrite Cut_found by exact Hg1. discriminate.
  - intros (-> & Hp & Hq & Hg).
    rewrite Cut_found by exact Hp. simpl.
    rewrite Cut_found by exact Hq. simpl.
    rewrite Cut_missing by exact Hg. reflexivity.
Qed.

(** X17: [SplitCompact] succeeds exactly on the inputs that hold two
    periods, and then returns what stands before, between and after them:
    it returns [(p, q, g)] if and only if the input is [p.q.g] with no period
    in [p], [q] or [g]. Every failure is "invalid number of segments". *)
Theorem SplitCompact_spec (src p q g : jws.bytes) (msg : string) :
  (jws.SplitCompact src = jws.Ok (p, q, g) <->
   src = (p ++ "."%char :: q ++ "."%char :: g)%list
   /\ ("."%char ∉ p) /\ ("."%char ∉ q) /\ ("."%char ∉ g))
  /\ (jws.SplitCompact src = jws.Err msg -> msg = "invalid number of segments").
Proof.
  split; [apply SplitCompact_Ok|].
  unfold jws.SplitCompact, jws.tokenDelim.
  destruct (jws.Cut src ["."%char]) as [[p1 s1] [|]]; simpl; [|congruence].
  destruct (jws.Cut s1 ["."%char]) as [[q1 s2] [|]]; simpl; [|congruence].
  destruct (jws.Cut s2 ["."%char]) as [[g1 s3] [|]]; simpl; congruence.
Qed.

Lemma SplitCompact_spec_witness :
  jws.SplitCompactString "ab.cd.ef"
  = jws.Ok (list_ascii_of_string "ab", list_ascii_of_string "cd",
            list_ascii_of_string "ef")
  /\ jws.SplitCompactString "ab.cd" = jws.Err "invalid number of segments".
Proof.
  split.
  - apply (SplitCompact_spec (list_ascii_of_string "ab.cd.ef")
             (list_ascii_of_string "ab") (list_ascii_of_string "cd")
             (list_ascii_of_string "ef") EmptyString).
    vm_compute. repeat split; intros H; repeat (apply elem_of_cons in H as [H | H];
      [discriminate H|]); apply elem_of_nil in H; exact H.
  - destruct (jws.SplitCompactString "ab.cd") as [x | msg] eqn:E; [discriminate E|].
    f_equal.
    apply (SplitCompact_spec (list_ascii_of_string "ab.cd") [] [] [] msg). exact E.
Defined.

(** ** The streaming splitter *)

Lemma capture_sofar (sp : jws.Splitter.t) (i : nat) :
  (i < length (jws.Splitter.sofar sp))%nat ->
  jws.Splitter.sofar (jws.capture (jws.countPeriod sp) i) = drop (i + 1) (jws.Splitter.sofar sp).
Proof.
  intros Hi. unfold jws.capture, jws.countPeriod. simpl.
  destruct (jws.Splitter.state sp) as [|[|[|n]]]; simpl;
    apply Nat.ltb_lt in Hi; rewrite Hi; reflexivity.
Qed.

Lemma innerLoop_enough (n m : nat) (eof : bool) (sp : jws.Splitter.t) :
  (length (jws.Splitter.sofar sp) < n)%nat -> (length (jws.Splitter.sofar sp) < m)%nat ->
  jws.innerLoop n eof sp = jws.innerLoop m eof sp.
Proof.
  revert m sp. induction n as [|n IH]; intros m sp Hn Hm; [lia|].
  destruct m as [|m]; [lia|]. simpl.
  destruct (jws.IndexByte (jws.Splitter.sofar sp) "."%char) as [i|] eqn:E; [|reflexivity].
  apply IndexByte_Some in E as (_ & _ & Hi).
  apply IH; rewrite capture_sofar by exact Hi; rewrite length_drop; lia.
Qed.

Lemma turn_unfold (eof : bool) (sp : jws.Splitter.t) :
  jws.turn eof sp =
    match jws.IndexByte (jws.Splitter.sofar sp) "."%char with
    | None => if eof then jws.capture sp (length (jws.Splitter.sofar sp)) else sp
    | Some i => jws.turn eof (jws.capture (jws.countPeriod sp) i)
    end.
Proof.
  unfold jws.turn at 1. simpl.
  destruct (jws.IndexByte (jws.Splitter.sofar sp) "."%char) as [i|] eqn:E; [|reflexivity].
  apply IndexByte_Some in E as (_ & _ & Hi).
  apply innerLoop_enough; rewrite capture_sofar by exact Hi; rewrite length_drop; lia.
Qed.

Lemma capture_append (sp : jws.Splitter.t) (chunk : jws.bytes) (i : nat) :
  (i < length (jws.Splitter.sofar sp))%nat ->
  jws.capture (jws.countPeriod (jws.append sp chunk)) i
  = jws.append (jws.capture (jws.countPeriod sp) i) chunk.
Proof.
  intros Hi. unfold jws.capture, jws.countPeriod, jws.append.
  assert (H1 : (i <? length (jws.Splitter.sofar sp ++ chunk))%nat = true)
    by (apply Nat.ltb_lt; rewrite length_app; lia).
  assert (H2 : (i <? length (jws.Splitter.sofar sp))%nat = true) by (apply Nat.ltb_lt; lia).
  destruct (jws.Splitter.state sp) as [|[|[|n]]]; simpl; rewrite H1, H2;
    rewrite ?take_app_le by lia; rewrite ?drop_app_le by lia; reflexivity.
Qed.

(** Reading in two steps or in one gives the same state. *)
Lemma turn_merge (eof : bool) (chunk : jws.bytes) (sp : jws.Splitter.t) :
  jws.turn eof (jws.append (jws.turn false sp) chunk) = jws.turn eof (jws.append sp chunk).
Proof.
  remember (length (jws.Splitter.sofar sp)) as n eqn:Hn.
  revert sp Hn. induction (lt_wf n) as [n _ IH]. intros sp Hn.
  rewrite (turn_unfold false sp).
  destruct (jws.IndexByte (jws.Splitter.sofar sp) "."%char) as [i|] eqn:E; [|reflexivity].
  pose proof (IndexByte_Some _ _ _ E) as (Hs & Hnot & Hi).
  rewrite (IH (length (jws.Splitter.sofar (jws.capture (jws.countPeriod sp) i))));
    [| rewrite capture_sofar by exact Hi; rewrite length_drop; lia | reflexivity ].
  rewrite (turn_unfold eof (jws.append sp chunk)).
  assert (E' : jws.IndexByte (jws.Splitter.sofar (jws.append sp chunk)) "."%char = Some i).
  { simpl. rewrite Hs, <- app_assoc. simpl.
    rewrite IndexByte_found by exact Hnot.
    rewrite length_take. f_equal. lia. }
  rewrite E', capture_append by exact Hi. reflexivity.
Qed.

Lemma append_append (sp : jws.Splitter.t) (c1 c2 : jws.bytes) :
  jws.append (jws.append sp c1) c2 = jws.append sp (c1 ++ c2).
Proof. unfold jws.append. simpl. rewrite app_assoc. reflexivity. Qed.

Lemma readLoop_more (chunk : jws.bytes) (reads : list (jws.bytes * option jws.ioError))
    (sp : jws.Splitter.t) :
  jws.readLoop ((chunk, None) :: reads) sp
  = jws.readLoop reads (jws.turn false (jws.append sp chunk)).
Proof. reflexivity. Qed.

Lemma readLoop_EOF (chunk : jws.bytes) (reads : list (jws.bytes * option jws.ioError))
    (sp : jws.Splitter.t) :
  jws.readLoop ((chunk, Some jws.EOF) :: reads) sp
  = Some (jws.Ok (jws.turn true (jws.append sp chunk))).
Proof. reflexivity. Qed.

Lemma readLoop_chunks (chunks : list jws.bytes) (last : jws.bytes) (sp : jws.Splitter.t) :
  jws.readLoop (((fun c => (c, None)) <$> chunks) ++ [(last, Some jws.EOF)]) sp
  = Some (jws.Ok (jws.turn true (jws.append sp (concat chunks ++ last)))).
Proof.
  revert sp. induction chunks as [|c chunks IH]; intros sp.
  - apply readLoop_EOF.
  - rewrite fmap_cons, <- app_comm_cons, readLoop_more, IH, turn_merge, append_append.
    simpl. rewrite app_assoc. reflexivity.
Qed.

Lemma periods_innerLoop (n : nat) (eof : bool) (sp : jws.Splitter.t) :
  (jws.Splitter.periods sp <= jws.Splitter.periods (jws.innerLoop n eof sp))%nat.
Proof.
  revert sp. induction n as [|n IH]; intros sp; simpl; [lia|].
  assert (Hcap : forall sp' i, jws.Splitter.periods (jws.capture sp' i) = jws.Splitter.periods sp').
  { intros sp' i. unfold jws.capture.
    destruct (jws.Splitter.state sp') as [|[|[|k]]]; simpl;
      destruct (i <? _)%nat; reflexivity. }
  destruct (jws.IndexByte (jws.Splitter.sofar sp) "."%char) as [i|].
  - etransitivity; [|apply IH]. rewrite Hcap. simpl. lia.
  - destruct eof; [rewrite Hcap|]; lia.
Qed.

Lemma turn_periods (eof : bool) (sp : jws.Splitter.t) :
  (jws.Splitter.periods sp <= jws.Splitter.periods (jws.turn eof sp))%nat.
Proof. apply periods_innerLoop. Qed.

Lemma capture_at (pr pa sg : jws.bytes) (n st : nat) (p q : jws.bytes) (c : ascii) :
  jws.capture (jws.Splitter.mk pr pa sg n st (p ++ c :: q)%list) (length p)
  = match st with
    | 0%nat => jws.Splitter.mk p pa sg n 1 q
    | 1%nat => jws.Splitter.mk pr p sg n 2 q
    | 2%nat => jws.Splitter.mk pr pa p n 2 q
    | _ => jws.Splitter.mk pr pa sg n st q
    end.
Proof.
  assert (Hlt : (length p <? length (p ++ c :: q))%nat = true)
    by (apply Nat.ltb_lt; rewrite length_app; simpl; lia).
  assert (Hd : drop (length p + 1) (p ++ c :: q) = q).
  { replace (length p + 1)%nat with (length p + length [c])%nat by reflexivity.
    rewrite <- drop_drop, drop_app_length. reflexivity. }
  unfold jws.capture.
  destruct st as [|[|[|k]]]; simpl; rewrite Hlt, ?take_app_length, Hd; reflexivity.
Qed.

Lemma capture_rest (pr pa sg : jws.bytes) (n st : nat) (rest : jws.bytes) :
  jws.capture (jws.Splitter.mk pr pa sg n st rest) (length rest)
  = match st with
    | 0%nat => jws.Splitter.mk rest pa sg n 1 rest
    | 1%nat => jws.Splitter.mk pr rest sg n 2 rest
    | 2%nat => jws.Splitter.mk pr pa rest n 2 rest
    | _ => jws.Splitter.mk pr pa sg n st rest
    end.
Proof.
  unfold jws.capture.
  destruct st as [|[|[|k]]]; simpl; rewrite Nat.ltb_irrefl, ?firstn_all; reflexivity.
Qed.

Lemma turn_period (eof : bool) (pr pa sg : jws.bytes) (n st : nat) (p q : jws.bytes) :
  "."%char ∉ p ->
  jws.turn eof (jws.Splitter.mk pr pa sg n st (p ++ "."%char :: q)%list)
  = jws.turn eof
      (jws.capture (jws.Splitter.mk pr pa sg (S n) st (p ++ "."%char :: q)%list)
         (length p)).
Proof.
  intros Hp. rewrite turn_unfold. simpl. rewrite IndexByte_found by exact Hp.
  reflexivity.
Qed.

Lemma turn_rest (pr pa sg : jws.bytes) (n st : nat) (rest : jws.bytes) :
  "."%char ∉ rest ->
  jws.turn true (jws.Splitter.mk pr pa sg n st rest)
  = jws.capture (jws.Splitter.mk pr pa sg n st rest) (length rest).
Proof.
  intros Hr. rewrite turn_unfold. simpl. apply IndexByte_None in Hr. rewrite Hr.
  reflexivity.
Qed.

(** Reading the whole input at once. *)
Lemma turn_whole (src : jws.bytes) :
  (let sp := jws.turn true (jws.append jws.newSplitter src) in
   if negb (jws.Splitter.periods sp =? 2)%nat then
     jws.Err "invalid number of segments"
   else jws.Ok (jws.Splitter.protected sp, jws.Splitter.payload sp,
                jws.Splitter.signature sp))
  = jws.SplitCompact src.
Proof.
  cbv zeta. unfold jws.SplitCompact, jws.tokenDelim, jws.append, jws.newSplitter.
  cbn [jws.Splitter.protected jws.Splitter.payload jws.Splitter.signature
       jws.Splitter.periods jws.Splitter.state jws.Splitter.sofar app].
  destruct (first_split src "."%char) as [Hn | (p1 & s1 & -> & Hp1)].
  { rewrite Cut_missing, turn_rest, capture_rest by exact Hn. reflexivity. }
  rewrite Cut_found, turn_period, capture_at by exact Hp1.
  cbn [negb].
  destruct (first_split s1 "."%char) as [Hn | (q1 & s2 & -> & Hq1)].
  { rewrite Cut_missing, turn_rest, capture_rest by exact Hn. reflexivity. }
  rewrite Cut_found, turn_period, capture_at by exact Hq1.
  cbn [negb].
  destruct (first_split s2 "."%char) as [Hn | (g1 & s3 & -> & Hg1)].
  { rewrite Cut_missing, turn_rest, capture_rest by exact Hn. reflexivity. }
  rewrite Cut_found, turn_period, capture_at by exact Hg1.
  pose proof (turn_periods true (jws.Splitter.mk p1 q1 g1 3 2 s3)) as Hp.
  cbn [jws.Splitter.periods] in Hp.
  destruct (Nat.eqb_spec
              (jws.Splitter.periods (jws.turn true (jws.Splitter.mk p1 q1 g1 3 2 s3)))
              2) as [H2 | H2];
    [lia | reflexivity].
Qed.

(** X18: [SplitCompactReader] is [SplitCompact] on what the reader
    delivers. Whatever the chunks in which a reader hands over its bytes
    before it reports the end of the input (with or without a last chunk),
    the result is that of [SplitCompact] on their concatenation; an
    in-memory reader is split at once; and a read error other than the end of
    the input ends the call with "unexpected end of input", whatever was read
    before. *)
Theorem SplitCompactReader_agrees (chunks : list jws.bytes) (last data : jws.bytes)
    (msg : string) (reads : list (jws.bytes * option jws.ioError)) :
  jws.SplitCompactReader
    (jws.Stream (((fun c => (c, None)) <$> chunks) ++ [(last, Some jws.EOF)]))
  = Some (jws.SplitCompact (concat chunks ++ last))
  /\ jws.SplitCompactReader (jws.InMemory data) = Some (jws.SplitCompact data)
  /\ jws.SplitCompactReader
       (jws.Stream (((fun c => (c, None)) <$> chunks)
                    ++ (last, Some (jws.ReadError msg)) :: reads))
     = Some (jws.Err ("unexpected end of input: " +:+ msg)).
Proof.
  split; [|split].
  - unfold jws.SplitCompactReader. simpl. rewrite readLoop_chunks.
    rewrite <- turn_whole. cbv zeta. unfold jws.append. simpl.
    destruct (negb _); reflexivity.
  - reflexivity.
  - unfold jws.SplitCompactReader. simpl.
    generalize jws.newSplitter. induction chunks as [|c chunks IH]; intros sp.
    + reflexivity.
    + rewrite fmap_cons, <- app_comm_cons, readLoop_more. apply IH.
Qed.

Lemma SplitCompactReader_agrees_witness :
  jws.SplitCompactReader
    (jws.Stream [(list_ascii_of_string "ab.c", None);
                 (list_ascii_of_string "d.", None);
                 (list_ascii_of_string "ef", Some jws.EOF)])
  = Some (jws.Ok (list_ascii_of_string "ab", list_ascii_of_string "cd",
                  list_ascii_of_string "ef")).
Proof.
  exact (proj1 (SplitCompactReader_agrees
                  [list_ascii_of_string "ab.c"; list_ascii_of_string "d."]
                  (list_ascii_of_string "ef") [] EmptyString [])).
Defined.

(** ** Signing *)

Lemma readOptions_Ok `{Lb : jws.Lib} (options : list jws.SignOption)
    (st st' : jws.settings) (table table' : gmap string jws.Signer) :
  jws.readOptions options st table = (inr st', table') ->
  Forall jws.usableKey options
  /\ length (jws.signers st')
     = (length (jws.signers st)
        + length (filter (fun o => jws.isKey o = true) options))%nat
  /\ (is_Some (jws.noneSignature st') <->
      is_Some (jws.noneSignature st) \/ existsb jws.isNone options = true)
  /\ (existsb jws.isSerialization options = false -> jws.format st' = jws.format st)
  /\ (is_Some (jws.payload st) -> existsb jws.isDetached options = false)
  /\ jws.key <$> jws.signers st'
     = ((jws.key <$> jws.signers st) ++ jws.keysOf options)%list
  /\ (forall ps, jws.noneSignature st' = Some ps ->
      jws.noneSignature st = Some ps \/ jws.key ps = None)
  /\ jws.validateKey st' = jws.validating options (jws.validateKey st)
  /\ table ⊆ table'.
Proof.
  revert st table. induction options as [|o options IH]; intros st table Hrun.
  - simpl in Hrun. injection Hrun as <- <-. simpl.
    split; [constructor|]. split; [lia|].
    split; [split; [auto | intros [H | H]; [exact H | discriminate]]|].
    split; [reflexivity|]. split; [reflexivity|].
    split; [rewrite app_nil_r; reflexivity|]. split; [auto|].
    split; reflexivity.
  - destruct o as [f | prot | [alg | name] k pub prot | p | v |]; simpl in Hrun.
    + apply IH in Hrun as (Hall & Hlen & Hnone & Hfmt & Hpay & Hkeys & Hnk & Hval & Hsub).
      split; [constructor; [exact I | exact Hall]|].
      split; [rewrite filter_cons_False by (simpl; discriminate); exact Hlen|].
      split; [exact Hnone|]. split; [discriminate|]. split; [exact Hpay|].
      split; [exact Hkeys|]. split; [exact Hnk|]. split; [exact Hval | exact Hsub].
    + apply IH in Hrun as (Hall & Hlen & Hnone & Hfmt & Hpay & Hkeys & Hnk & Hval & Hsub).
      split; [constructor; [exact I | exact Hall]|].
      split; [rewrite filter_cons_False by (simpl; discriminate); exact Hlen|].
      split; [simpl; split; [auto|]; intros _; apply Hnone; left; simpl; eauto|].
      split; [exact Hfmt|]. split; [exact Hpay|]. split; [exact Hkeys|].
      split; [|split; [exact Hval | exact Hsub]].
      intros ps Hps. destruct (Hnk ps Hps) as [H | H]; [|right; exact H].
      simpl in H. injection H as <-. right. reflexivity.
    + destruct (String.eqb_spec alg jws.NoSignature) as [Heq | Hne];
        [discriminate Hrun|].
      unfold jws.makeSigner in Hrun.
      destruct (table !! alg) as [sg|] eqn:Htab.
      * apply IH in Hrun
          as (Hall & Hlen & Hnone & Hfmt & Hpay & Hkeys & Hnk & Hval & Hsub).
        split; [constructor; [exact Hne | exact Hall]|].
        split; [rewrite filter_cons_True by reflexivity; simpl in *;
                rewrite length_app in Hlen; simpl in Hlen; lia|].
        split; [exact Hnone|]. split; [exact Hfmt|]. split; [exact Hpay|].
        split; [simpl in *; rewrite Hkeys, fmap_app, <- app_assoc; reflexivity|].
        split; [exact Hnk|]. split; [exact Hval | exact Hsub].
      * destruct (jws.NewSigner alg) as [err | v]; [discriminate Hrun|].
        apply IH in Hrun
          as (Hall & Hlen & Hnone & Hfmt & Hpay & Hkeys & Hnk & Hval & Hsub).
        split; [constructor; [exact Hne | exact Hall]|].
        split; [rewrite filter_cons_True by reflexivity; simpl in *;
                rewrite length_app in Hlen; simpl in Hlen; lia|].
        split; [exact Hnone|]. split; [exact Hfmt|]. split; [exact Hpay|].
        split; [simpl in *; rewrite Hkeys, fmap_app, <- app_assoc; reflexivity|].
        split; [exact Hnk|]. split; [exact Hval|].
        etransitivity; [|exact Hsub]. apply insert_subseteq. exact Htab.
    + discriminate Hrun.
    + destruct (jws.payload st) as [old|] eqn:Hp; [discriminate Hrun|].
      apply IH in Hrun as (Hall & Hlen & Hnone & Hfmt & Hpay & Hkeys & Hnk & Hval & Hsub).
      split; [constructor; [exact I | exact Hall]|].
      split; [rewrite filter_cons_False by (simpl; discriminate); exact Hlen|].
      split; [exact Hnone|]. split; [exact Hfmt|].
      split; [intros [x Hx]; discriminate Hx|].
      split; [exact Hkeys|]. split; [exact Hnk|]. split; [exact Hval | exact Hsub].
    + apply IH in Hrun as (Hall & Hlen & Hnone & Hfmt & Hpay & Hkeys & Hnk & Hval & Hsub).
      split; [constructor; [exact I | exact Hall]|].
      split; [rewrite filter_cons_False by (simpl; discriminate); exact Hlen|].
      split; [exact Hnone|]. split; [exact Hfmt|]. split; [exact Hpay|].
      split; [exact Hkeys|]. split; [exact Hnk|]. split; [exact Hval | exact Hsub].
    + apply IH in Hrun as (Hall & Hlen & Hnone & Hfmt & Hpay & Hkeys & Hnk & Hval & Hsub).
      split; [constructor; [exact I | exact Hall]|].
      split; [rewrite filter_cons_False by (simpl; discriminate); exact Hlen|].
      split; [exact Hnone|]. split; [exact Hfmt|]. split; [exact Hpay|].
      split; [exact Hkeys|]. split; [exact Hnk|]. split; [exact Hval | exact Hsub].
Qed.

Lemma signAll_Ok `{Lb : jws.Lib} (st : jws.settings) (i : nat)
    (todo : list jws.payloadSigner) (done sigs : list (jws.Signature.t jws.Headers)) :
  jws.signAll st i todo done = inr sigs ->
  length sigs = (length done + length todo)%nat
  /\ (jws.validateKey st = true ->
      Forall (fun ps => jws.validateKeyBeforeUse (jws.key ps) = None) todo).
Proof.
  revert i done. induction todo as [|ps todo IH]; intros i done Hrun; simpl in Hrun.
  - injection Hrun as <-. split; [simpl; lia | constructor].
  - destruct (jws.signOne st i ps) as [err | sig] eqn:Hone; [discriminate Hrun|].
    apply IH in Hrun as (Hlen & Hval).
    split; [rewrite length_app in Hlen; simpl in *; lia|].
    intros Hv. constructor; [|apply Hval, Hv].
    unfold jws.signOne in Hone.
    destruct (jws.Headers_Set_alg _ _) as [e | h]; [discriminate Hone|].
    destruct (jws.Headers_Set_kid _ _) as [e | h']; [discriminate Hone|].
    rewrite Hv in Hone.
    destruct (jws.validateKeyBeforeUse (jws.key ps)); [discriminate Hone | reflexivity].
Qed.

Lemma readOptions_table `{Lb : jws.Lib} (options : list jws.SignOption)
    (st : jws.settings) (table : gmap string jws.Signer) :
  table ⊆ (jws.readOptions options st table).2.
Proof.
  revert st table. induction options as [|o options IH]; intros st table.
  - reflexivity.
  - destruct o as [f | prot | [alg | name] k pub prot | p | v |]; simpl;
      try apply IH; try reflexivity.
    + destruct (String.eqb alg jws.NoSignature); [reflexivity|].
      unfold jws.makeSigner. destruct (table !! alg) as [sg|] eqn:Htab; [apply IH|].
      destruct (jws.NewSigner alg) as [err | v]; [reflexivity|].
      etransitivity; [|apply IH]. apply insert_subseteq. exact Htab.
    + destruct (jws.payload st); [reflexivity | apply IH].
Qed.

(** X19: when [Sign] returns a serialization, every [WithKey] among its
    options names a signature algorithm other than "none"; the options name
    at least one signer (a key, or the insecure "none" signature), and
    exactly one unless a serialization format was chosen; no detached payload
    was given along with a payload; and when the last [WithValidateKey] asks
    for it, every key handed over has passed [validateKeyBeforeUse]. Whether
    it fails or not, the table of signers is only ever extended. *)
Theorem Sign_Ok_inv `{Lb : jws.Lib} (data : option jws.bytes)
    (options : list jws.SignOption) (table : gmap string jws.Signer) :
  (forall out table',
     jws.Sign data options table = (inr out, table') ->
     Forall jws.usableKey options
     /\ (1 <= jws.signerCount options)%nat
     /\ (existsb jws.isSerialization options = false ->
         jws.signerCount options = 1%nat)
     /\ (is_Some data -> existsb jws.isDetached options = false)
     /\ (jws.validating options false = true ->
         Forall (fun k => jws.validateKeyBeforeUse k = None) (jws.keysOf options)))
  /\ table ⊆ (jws.Sign data options table).2.
Proof.
  split.
  - intros out table'. unfold jws.Sign. intros Hsign.
    destruct (jws.readOptions options _ table) as [[err | st] table1] eqn:Hopts;
      [discriminate Hsign|].
    apply readOptions_Ok in Hopts
      as (Hall & Hlen & Hnone & Hfmt & Hpay & Hkeys & Hnk & Hval & _).
    simpl in Hlen, Hnone, Hfmt, Hpay, Hkeys, Hval.
    assert (Hcount : length (match jws.noneSignature st with
                             | Some none => (jws.signers st ++ [none])%list
                             | None => jws.signers st
                             end) = jws.signerCount options).
    { unfold jws.signerCount. destruct (jws.noneSignature st) as [none|] eqn:Hn.
      - rewrite length_app, Hlen. simpl.
        destruct (existsb jws.isNone options) eqn:He; [reflexivity|].
        destruct Hnone as [Hnone _].
        destruct Hnone as [[x Hx] | Hx]; eauto; discriminate.
      - rewrite Hlen. destruct (existsb jws.isNone options) eqn:He; [|lia].
        destruct Hnone as [_ Hnone].
        destruct Hnone as [x Hx]; [auto | discriminate Hx]. }
    cbv zeta in Hsign. rewrite Hcount in Hsign.
    destruct (jws.signerCount options =? 0)%nat eqn:H0; [discriminate Hsign|].
    apply Nat.eqb_neq in H0.
    destruct ((jws.format st =? jws.fmtCompact)%Z
              && negb (jws.signerCount options =? 1)%nat) eqn:Hmulti;
      [discriminate Hsign|].
    destruct (jws.signAll st 0 _ []) as [err | sigs] eqn:Hsigs; [discriminate Hsign|].
    apply signAll_Ok in Hsigs as (_ & Hvalid).
    split; [exact Hall|]. split; [lia|].
    split; [|split; [exact Hpay|]].
    + intros Hns. rewrite (Hfmt Hns) in Hmulti. simpl in Hmulti.
      apply negb_false_iff, Nat.eqb_eq in Hmulti. exact Hmulti.
    + intros Hv. rewrite <- Hval in Hv. specialize (Hvalid Hv).
      destruct (jws.noneSignature st) as [none|].
      * apply Forall_app in Hvalid as [Hvalid _].
        rewrite <- Hkeys. apply Forall_fmap. exact Hvalid.
      * rewrite <- Hkeys. apply Forall_fmap. exact Hvalid.
  - unfold jws.Sign.
    pose proof (readOptions_table options
                  (jws.mkSettings data jws.fmtCompact [] false None false) table)
      as Hsub.
    destruct (jws.readOptions options _ table) as [[err | st] table1];
      [exact Hsub|].
    cbv zeta. repeat case_match; exact Hsub.
Qed.

Lemma Sign_Ok_inv_witness :
  let options :=
    [jws.WithValidateKey (Lb := jws.sample) true;
     jws.WithKey (Lb := jws.sample) (jws.SignatureAlg "HS256") "k" None None] in
  (jws.Sign (Some (list_ascii_of_string "hello")) options ∅).1
  = inr (list_ascii_of_string "={alg:HS256}.=hello.=HS256:k")
  /\ jws.signerCount options = 1%nat
  /\ Forall (fun k => jws.validateKeyBeforeUse k = None) (jws.keysOf options).
Proof.
  intros options. split; [reflexivity|].
  destruct (proj1 (Sign_Ok_inv (Some (list_ascii_of_string "hello")) options ∅)
              (list_ascii_of_string "={alg:HS256}.=hello.=HS256:k")
              (jws.Sign (Some (list_ascii_of_string "hello")) options ∅).2)
    as (_ & _ & H1 & _ & Hv).
  { rewrite (surjective_pairing (jws.Sign _ options ∅)) at 1. reflexivity. }
  split; [apply H1; reflexivity | apply Hv; reflexivity].
Defined.

(** ** Parsing *)

Lemma parse_Ok `{Lb : jws.Lib} (p q g : jws.bytes) (msg : jws.Message.t jws.Headers) :
  jws.parse p q g = jws.Ok msg <->
  exists dh hdr dp dsig,
    jws.base64_Decode p = inr dh
    /\ jws.json_Unmarshal_Headers dh = inr hdr
    /\ (if jws.getB64Value hdr then jws.base64_Decode q else inr q) = inr dp
    /\ jws.base64_Decode g = inr dsig
    /\ msg = jws.Message.mk (Some dp) [jws.Signature.mk None (Some hdr) dsig false]
               (jws.getB64Value hdr).
Proof.
  unfold jws.parse. split.
  - destruct (jws.base64_Decode p) as [e | dh] eqn:Hp; [discriminate|].
    destruct (jws.json_Unmarshal_Headers dh) as [e | hdr] eqn:Hh; [discriminate|].
    cbv zeta. destruct (jws.getB64Value hdr) eqn:Hb; simpl.
    + destruct (jws.base64_Decode q) as [e | dp] eqn:Hq; [discriminate|].
      destruct (jws.base64_Decode g) as [e | dsig] eqn:Hg; [discriminate|].
      intros [= <-]. exists dh, hdr, dp, dsig. rewrite Hh, Hb. auto.
    + destruct (jws.base64_Decode g) as [e | dsig] eqn:Hg; [discriminate|].
      intros [= <-]. exists dh, hdr, q, dsig. rewrite Hh, Hb. auto.
  - intros (dh & hdr & dp & dsig & -> & -> & Hq & -> & ->). cbv zeta.
    destruct (jws.getB64Value hdr); simpl.
    + rewrite Hq. reflexivity.
    + injection Hq as ->. reflexivity.
Qed.

(** X20: [parseCompact] returns a message exactly for an input [p.q.g]
    of three segments without a period in which [p] decodes from base64 to
    JOSE headers that unmarshal, [g] decodes from base64, and [q] decodes
    from base64 unless the headers carry b64 = false, in which case [q] is
    taken as it is. The message then has that payload, the b64 value of the
    headers, and exactly one signature, with the headers as its protected
    headers and no public headers. *)
Theorem parseCompact_Ok `{Lb : jws.Lib} (data : jws.bytes)
    (msg : jws.Message.t jws.Headers) :
  jws.parseCompact data = jws.Ok msg <->
  exists p q g dh hdr dp dsig,
    data = (p ++ "."%char :: q ++ "."%char :: g)%list
    /\ ("."%char ∉ p) /\ ("."%char ∉ q) /\ ("."%char ∉ g)
    /\ jws.base64_Decode p = inr dh
    /\ jws.json_Unmarshal_Headers dh = inr hdr
    /\ (if jws.getB64Value hdr then jws.base64_Decode q else inr q) = inr dp
    /\ jws.base64_Decode g = inr dsig
    /\ msg = jws.Message.mk (Some dp) [jws.Signature.mk None (Some hdr) dsig false]
               (jws.getB64Value hdr).
Proof.
  unfold jws.parseCompact. split.
  - destruct (jws.SplitCompact data) as [[[p q] g] | e] eqn:Hsplit; [|discriminate].
    apply SplitCompact_Ok in Hsplit as (-> & Hp & Hq & Hg).
    intros Hparse. apply parse_Ok in Hparse as (dh & hdr & dp & dsig & H).
    exists p, q, g, dh, hdr, dp, dsig. tauto.
  - intros (p & q & g & dh & hdr & dp & dsig & Hdata & Hp & Hq & Hg & H).
    assert (Hsplit : jws.SplitCompact data = jws.Ok (p, q, g))
      by (apply SplitCompact_Ok; auto).
    rewrite Hsplit. apply parse_Ok. exists dh, hdr, dp, dsig. exact H.
Qed.

Lemma parseCompact_Ok_witness :
  exists hdr,
    jws.parseCompact (Lb := jws.sample)
      (list_ascii_of_string "={alg:HS256,b64:false}.hello.=HS256:k")
    = jws.Ok (jws.Message.mk (Some (list_ascii_of_string "hello"))
                [jws.Signature.mk None (Some hdr) (list_ascii_of_string "HS256:k") false]
                false).
Proof.
  exists [("alg", "HS256"); ("b64", "false")].
  apply (parseCompact_Ok (Lb := jws.sample)).
  exists (list_ascii_of_string "={alg:HS256,b64:false}"), (list_ascii_of_string "hello"),
    (list_ascii_of_string "=HS256:k"), (list_ascii_of_string "{alg:HS256,b64:false}"),
    [("alg", "HS256"); ("b64", "false")], (list_ascii_of_string "hello"),
    (list_ascii_of_string "HS256:k").
  split; [reflexivity|].
  repeat split; try reflexivity;
    intros H; repeat (apply elem_of_cons in H as [H | H]; [discriminate H|]);
    apply elem_of_nil in H; exact H.
Defined.

Lemma formatsOf_lor (options : list jws.ParseOption) (formats : Z) :
  jws.formatsOf options formats
  = Z.lor formats
      (Z.lor (if existsb jws.wantsJSON options then jws.fmtJSON else 0)
             (if existsb jws.wantsCompact options then jws.fmtCompact else 0)).
Proof.
  revert formats. induction options as [|o options IH]; intros formats.
  - simpl. rewrite Z.lor_0_r. reflexivity.
  - destruct o as [f|]; simpl; [|apply IH].
    rewrite IH. destruct (f =? jws.fmtJSON)%Z eqn:Hj.
    + apply Z.eqb_eq in Hj. subst f. simpl.
      rewrite <- Z.lor_assoc. f_equal.
      destruct (existsb jws.wantsJSON options), (existsb jws.wantsCompact options);
        reflexivity.
    + destruct (f =? jws.fmtCompact)%Z eqn:Hc; simpl; [|reflexivity].
      rewrite <- Z.lor_assoc. f_equal.
      destruct (existsb jws.wantsJSON options), (existsb jws.wantsCompact options);
        reflexivity.
Qed.

Lemma Parse_choice `{Lb : jws.Lib} (src : jws.bytes) (options : list jws.ParseOption) :
  jws.Parse src options
  = match existsb jws.wantsJSON options, existsb jws.wantsCompact options with
    | true, false => jws.parseJSON src
    | false, true => jws.parseCompact src
    | _, _ => jws.detect src src
    end.
Proof.
  unfold jws.Parse. rewrite formatsOf_lor.
  destruct (existsb jws.wantsJSON options), (existsb jws.wantsCompact options);
    reflexivity.
Qed.

(** The detection loop passes over the bytes whose rune is a white space
    and decides on the first byte whose rune is not. *)
Lemma detect_scan `{Lb : jws.Lib} (src ws : jws.bytes) (b : ascii) (rest : jws.bytes) :
  let rune (x : ascii) :=
    if (jws.RuneSelf <=? jws.runeOf x)%Z then jws.utf8_DecodeRune src else jws.runeOf x in
  Forall (fun x => jws.unicode_IsSpace (rune x) = true) ws ->
  jws.unicode_IsSpace (rune b) = false ->
  jws.detect src (ws ++ b :: rest)
  = if (rune b =? 123)%Z then jws.parseJSON src else jws.parseCompact src.
Proof.
  intros rune Hws Hb. induction Hws as [|x ws Hx Hws IH]; simpl.
  - fold (rune b). rewrite Hb. reflexivity.
  - fold (rune x). rewrite Hx. simpl. exact IH.
Qed.

Lemma detect_blank `{Lb : jws.Lib} (src ws : jws.bytes) :
  Forall (fun x => jws.unicode_IsSpace
                     (if (jws.RuneSelf <=? jws.runeOf x)%Z then jws.utf8_DecodeRune src
                      else jws.runeOf x) = true) ws ->
  jws.detect src ws = jws.Err "invalid byte sequence".
Proof.
  intros Hws. induction Hws as [|x ws Hx Hws IH]; simpl; [reflexivity|].
  rewrite Hx. simpl. exact IH.
Qed.

(** X21: which format [Parse] reads. With [WithJSON()] and not
    [WithCompact()] among the options the input is read as JSON, with
    [WithCompact()] and not [WithJSON()] as a compact serialization, whatever
    the input is. With neither or both, an input of ASCII white space followed
    by an ASCII byte that is not white space is read as JSON when that byte is
    an opening brace and as a compact serialization otherwise, in both cases
    from its first byte, the white space included; and an input that is
    nothing but ASCII white space is "invalid byte sequence". *)
Theorem Parse_format `{Lb : jws.Lib} (options : list jws.ParseOption)
    (src ws : jws.bytes) (b : ascii) (rest : jws.bytes) :
  (existsb jws.wantsJSON options = true -> existsb jws.wantsCompact options = false ->
   jws.Parse src options = jws.parseJSON src)
  /\ (existsb jws.wantsJSON options = false -> existsb jws.wantsCompact options = true ->
      jws.Parse src options = jws.parseCompact src)
  /\ (existsb jws.wantsJSON options = existsb jws.wantsCompact options ->
      Forall (fun x => (jws.runeOf x < 128)%Z /\ jws.unicode_IsSpace (jws.runeOf x) = true) ws ->
      ((jws.runeOf b < 128)%Z -> jws.unicode_IsSpace (jws.runeOf b) = false ->
       jws.Parse (ws ++ b :: rest) options
       = if Ascii.eqb b "{"%char then jws.parseJSON (ws ++ b :: rest)
         else jws.parseCompact (ws ++ b :: rest))
      /\ jws.Parse ws options = jws.Err "invalid byte sequence").
Proof.
  split; [|split].
  - intros Hj Hc. rewrite Parse_choice, Hj, Hc. reflexivity.
  - intros Hj Hc. rewrite Parse_choice, Hj, Hc. reflexivity.
  - intros Hsame Hws.
    assert (Hauto : forall s, jws.Parse s options = jws.detect s s).
    { intros s. rewrite Parse_choice, Hsame.
      destruct (existsb jws.wantsCompact options); reflexivity. }
    assert (Hws' : forall s,
               Forall (fun x => jws.unicode_IsSpace
                                  (if (jws.RuneSelf <=? jws.runeOf x)%Z
                                   then jws.utf8_DecodeRune s
                                   else jws.runeOf x) = true) ws).
    { intros s. eapply Forall_impl; [exact Hws|]. intros x [Hx Hsp]. simpl.
      unfold jws.RuneSelf. destruct (128 <=? jws.runeOf x)%Z eqn:E; [lia | exact Hsp]. }
    split.
    + intros Hb Hnsp. rewrite Hauto.
      pose proof (detect_scan (ws ++ b :: rest) ws b rest) as Hscan. cbv zeta in Hscan.
      unfold jws.RuneSelf in Hscan.
      destruct (128 <=? jws.runeOf b)%Z eqn:E; [lia|].
      rewrite Hscan; [|apply Hws' | exact Hnsp].
      destruct (Ascii.eqb_spec b "{"%char) as [-> | Hne]; [reflexivity|].
      destruct (jws.runeOf b =? 123)%Z eqn:E'; [|reflexivity].
      exfalso. apply Hne. apply Z.eqb_eq in E'. unfold jws.runeOf in E'.
      rewrite <- (ascii_nat_embedding b).
      replace (nat_of_ascii b) with 123%nat by lia. reflexivity.
    + rewrite Hauto. apply detect_blank, Hws'.
Qed.

Lemma Parse_format_witness :
  let token := list_ascii_of_string "={alg:HS256}.=hello.=HS256:k" in
  jws.Parse (Lb := jws.sample) (" "%char :: token) []
  = jws.parseCompact (" "%char :: token)
  /\ jws.Parse (Lb := jws.sample) (" "%char :: "{"%char :: token) []
     = jws.parseJSON (" "%char :: "{"%char :: token)
  /\ jws.Parse (Lb := jws.sample) ("{"%char :: token)
       [jws.ParseSerialization jws.fmtCompact]
     = jws.parseCompact ("{"%char :: token).
Proof.
  intros token. split; [|split].
  - destruct (Parse_format (Lb := jws.sample) [] [] [" "%char] "="%char
                (List.tl token)) as (_ & _ & H).
    destruct (H eq_refl) as [H1 _].
    { constructor; [split; [reflexivity | reflexivity] | constructor]. }
    exact (H1 eq_refl eq_refl).
  - destruct (Parse_format (Lb := jws.sample) [] [] [" "%char] "{"%char token)
      as (_ & _ & H).
    destruct (H eq_refl) as [H1 _].
    { constructor; [split; [reflexivity | reflexivity] | constructor]. }
    exact (H1 eq_refl eq_refl).
  - destruct (Parse_format (Lb := jws.sample) [jws.ParseSerialization jws.fmtCompact]
                ("{"%char :: token) [] " "%char []) as (_ & H & _).
    exact (H eq_refl eq_refl).
Defined.

(** X22: the detection loop of [Parse] decodes a byte of 0x80 or more
    with [utf8.DecodeRune(src)], that is, at the start of the input and not at
    the byte. So when the input begins with an ASCII white space, and
    [utf8.DecodeRune] returns the rune of that byte for it, every later byte of
    0x80 or more is passed over like white space: the format is chosen by the
    first ASCII byte that is not white space. *)
Theorem Parse_passes_over_high_bytes `{Lb : jws.Lib} (options : list jws.ParseOption)
    (c : ascii) (ws : jws.bytes) (b : ascii) (rest : jws.bytes) :
  let src := (c :: ws ++ b :: rest)%list in
  existsb jws.wantsJSON options = existsb jws.wantsCompact options ->
  (jws.runeOf c < 128)%Z -> jws.unicode_IsSpace (jws.runeOf c) = true ->
  jws.utf8_DecodeRune src = jws.runeOf c ->
  Forall (fun x => (128 <= jws.runeOf x)%Z \/ jws.unicode_IsSpace (jws.runeOf x) = true) ws ->
  (jws.runeOf b < 128)%Z -> jws.unicode_IsSpace (jws.runeOf b) = false ->
  jws.Parse src options
  = if (jws.runeOf b =? 123)%Z then jws.parseJSON src else jws.parseCompact src.
Proof.
  intros src Hsame Hc Hcsp Hdec Hws Hb Hbsp.
  rewrite Parse_choice, Hsame.
  assert (Hscan := detect_scan src (c :: ws) b rest). cbv zeta in Hscan.
  unfold jws.RuneSelf in Hscan.
  destruct (128 <=? jws.runeOf b)%Z eqn:E; [lia|].
  change (jws.detect src src) with (jws.detect src ((c :: ws) ++ b :: rest)).
  rewrite Hscan.
  - destruct (existsb jws.wantsCompact options); reflexivity.
  - constructor.
    + destruct (128 <=? jws.runeOf c)%Z; [rewrite Hdec|]; exact Hcsp.
    + eapply Forall_impl; [exact Hws|]. intros x Hx. simpl.
      destruct (128 <=? jws.runeOf x)%Z eqn:Ex.
      * rewrite Hdec. exact Hcsp.
      * destruct Hx as [Hx | Hx]; [lia | exact Hx].
  - exact Hbsp.
Qed.

Lemma Parse_passes_over_high_bytes_witness :
  let token := list_ascii_of_string "{alg:HS256}" in
  let src := (" "%char :: [ascii_of_nat 195; ascii_of_nat 169] ++ token)%list in
  jws.Parse (Lb := jws.sample) src [] = jws.parseJSON src.
Proof.
  intros token src.
  apply (Parse_passes_over_high_bytes (Lb := jws.sample) [] " "%char
           [ascii_of_nat 195; ascii_of_nat 169] "{"%char
           (list_ascii_of_string "alg:HS256}")); try reflexivity.
  constructor; [left; vm_compute; discriminate|].
  constructor; [left; vm_compute; discriminate | constructor].
Defined.

(** ** Verifying *)

Lemma readVerifyOptions_providers `{Lb : jws.Lib} (options : list jws.VerifyOption)
    (vs vs' : jws.VerifyVars.t jws.KeyProvider jws.KeyUsed jws.Context) :
  jws.readVerifyOptions options vs = inr vs' ->
  jws.VerifyVars.keyProviders vs'
  = (jws.VerifyVars.keyProviders vs ++ jws.providersOf options)%list.
Proof.
  revert vs. induction options as [|o options IH]; intros vs Hrun.
  - simpl in Hrun. injection Hrun as <-. unfold jws.providersOf. simpl.
    rewrite app_nil_r. reflexivity.
  - unfold jws.providersOf in *.
    destruct o as [| p | [alg | name] k | kp | v | c | v | f |]; simpl in Hrun;
      try discriminate Hrun; apply IH in Hrun; rewrite Hrun; simpl;
      rewrite <- ?app_assoc; reflexivity.
Qed.

Lemma tryKeys_Verified `{Lb : jws.Lib}
    (vs : jws.VerifyVars.t jws.KeyProvider jws.KeyUsed jws.Context)
    (buf signature : jws.bytes) (pairs : list (string * jws.Key))
    (errs : list string) (k : jws.Key) :
  jws.tryKeys vs buf signature pairs errs = jws.Verified k ->
  exists alg verifier,
    (alg, k) ∈ pairs
    /\ jws.NewVerifier alg = inr verifier
    /\ jws.Verifier_Verify verifier buf signature k = None
    /\ (jws.VerifyVars.validateKey vs = true ->
        jws.validateKeyBeforeUse (Some k) = None).
Proof.
  revert errs. induction pairs as [|[alg k'] pairs IH]; intros errs Hrun;
    simpl in Hrun; [discriminate Hrun|].
  destruct (if jws.VerifyVars.validateKey vs then jws.validateKeyBeforeUse (Some k')
            else None) as [e|] eqn:Hval; [discriminate Hrun|].
  destruct (jws.NewVerifier alg) as [e | verifier] eqn:Hnew; [discriminate Hrun|].
  destruct (jws.Verifier_Verify verifier buf signature k') as [e|] eqn:Hver.
  - apply IH in Hrun as (alg' & verifier' & Hin & H).
    exists alg', verifier'. split; [right; exact Hin | exact H].
  - assert (k' = k) as ->.
    { destruct (jws.VerifyVars.keyUsed vs) as [ku|]; [|congruence].
      destruct (jws.AssignIfCompatible ku k'); [discriminate Hrun | congruence]. }
    exists alg, verifier. split; [left|]. split; [exact Hnew|]. split; [exact Hver|].
    intros Hv. rewrite Hv in Hval. exact Hval.
Qed.

Lemma tryKeys_Unverified `{Lb : jws.Lib}
    (vs : jws.VerifyVars.t jws.KeyProvider jws.KeyUsed jws.Context)
    (buf signature : jws.bytes) (pairs : list (string * jws.Key))
    (errs errs' : list string) :
  jws.tryKeys vs buf signature pairs errs = jws.Unverified errs' ->
  exists more,
    errs' = (errs ++ more)%list
    /\ Forall (fun pair =>
                 exists verifier err,
                   jws.NewVerifier pair.1 = inr verifier
                   /\ jws.Verifier_Verify verifier buf signature pair.2 = Some err
                   /\ err ∈ more) pairs.
Proof.
  revert errs. induction pairs as [|[alg k] pairs IH]; intros errs Hrun; simpl in Hrun.
  - injection Hrun as <-. exists []. rewrite app_nil_r. split; [reflexivity | constructor].
  - destruct (if jws.VerifyVars.validateKey vs then jws.validateKeyBeforeUse (Some k)
              else None) as [e|]; [discriminate Hrun|].
    destruct (jws.NewVerifier alg) as [e | verifier] eqn:Hnew; [discriminate Hrun|].
    destruct (jws.Verifier_Verify verifier buf signature k) as [e|] eqn:Hver.
    + apply IH in Hrun as (more & -> & Hall).
      exists (e :: more). split; [rewrite <- app_assoc; reflexivity|].
      constructor.
      * exists verifier, e. split; [exact Hnew|]. split; [exact Hver | left].
      * eapply Forall_impl; [exact Hall|].
        intros pair (v & err & H1 & H2 & H3). exists v, err.
        split; [exact H1|]. split; [exact H2 | right; exact H3].
    + destruct (jws.VerifyVars.keyUsed vs) as [ku|]; [|discriminate Hrun].
      destruct (jws.AssignIfCompatible ku k); discriminate Hrun.
Qed.

Lemma tryProviders_Verified `{Lb : jws.Lib}
    (vs : jws.VerifyVars.t jws.KeyProvider jws.KeyUsed jws.Context)
    (msg : jws.Message.t jws.Headers) (sig : jws.Signature.t jws.Headers)
    (buf : jws.bytes) (i : nat) (kps : list jws.KeyProvider) (errs : list string)
    (k : jws.Key) :
  jws.tryProviders vs msg sig buf i kps errs = jws.Verified k ->
  exists kp pairs alg verifier,
    kp ∈ kps
    /\ jws.FetchKeys kp (jws.VerifyVars.ctx vs) sig msg = inr pairs
    /\ (alg, k) ∈ pairs
    /\ jws.NewVerifier alg = inr verifier
    /\ jws.Verifier_Verify verifier buf (jws.Signature.signature sig) k = None
    /\ (jws.VerifyVars.validateKey vs = true ->
        jws.validateKeyBeforeUse (Some k) = None).
Proof.
  revert i errs. induction kps as [|kp kps IH]; intros i errs Hrun; simpl in Hrun;
    [discriminate Hrun|].
  destruct (jws.FetchKeys kp (jws.VerifyVars.ctx vs) sig msg) as [e | pairs] eqn:Hfetch;
    [discriminate Hrun|].
  destruct (jws.tryKeys vs buf (jws.Signature.signature sig) pairs errs)
    as [k' | e | errs'] eqn:Hkeys; [|discriminate Hrun|].
  - injection Hrun as ->.
    apply tryKeys_Verified in Hkeys as (alg & verifier & H).
    exists kp, pairs, alg, verifier. split; [left|]. split; [exact Hfetch | exact H].
  - apply IH in Hrun as (kp' & pairs' & alg & verifier & Hin & H).
    exists kp', pairs', alg, verifier. split; [right; exact Hin | exact H].
Qed.

Lemma tryProviders_Unverified `{Lb : jws.Lib}
    (vs : jws.VerifyVars.t jws.KeyProvider jws.KeyUsed jws.Context)
    (msg : jws.Message.t jws.Headers) (sig : jws.Signature.t jws.Headers)
    (buf : jws.bytes) (i : nat) (kps : list jws.KeyProvider) (errs errs' : list string) :
  jws.tryProviders vs msg sig buf i kps errs = jws.Unverified errs' ->
  exists more,
    errs' = (errs ++ more)%list
    /\ Forall (fun kp =>
                 exists pairs,
                   jws.FetchKeys kp (jws.VerifyVars.ctx vs) sig msg = inr pairs
                   /\ Forall (fun pair =>
                                exists verifier err,
                                  jws.NewVerifier pair.1 = inr verifier
                                  /\ jws.Verifier_Verify verifier buf
                                       (jws.Signature.signature sig) pair.2 = Some err
                                  /\ err ∈ more) pairs) kps.
Proof.
  revert i errs. induction kps as [|kp kps IH]; intros i errs Hrun; simpl in Hrun.
  - injection Hrun as <-. exists []. rewrite app_nil_r. split; [reflexivity | constructor].
  - destruct (jws.FetchKeys kp (jws.VerifyVars.ctx vs) sig msg) as [e | pairs] eqn:Hfetch;
      [discriminate Hrun|].
    destruct (jws.tryKeys vs buf (jws.Signature.signature sig) pairs errs)
      as [k' | e | errs1] eqn:Hkeys; [discriminate Hrun | discriminate Hrun|].
    apply tryKeys_Unverified in Hkeys as (more1 & -> & Hall1).
    apply IH in Hrun as (more2 & -> & Hall2).
    exists (more1 ++ more2)%list. split; [rewrite app_assoc; reflexivity|].
    constructor.
    + exists pairs. split; [exact Hfetch|].
      eapply Forall_impl; [exact Hall1|].
      intros pair (v & err & H1 & H2 & H3). exists v, err.
      split; [exact H1|]. split; [exact H2 | apply elem_of_app; left; exact H3].
    + eapply Forall_impl; [exact Hall2|].
      intros kp' (pairs' & Hf & Hall'). exists pairs'. split; [exact Hf|].
      eapply Forall_impl; [exact Hall'|].
      intros pair (v & err & H1 & H2 & H3). exists v, err.
      split; [exact H1|]. split; [exact H2 | apply elem_of_app; right; exact H3].
Qed.

Lemma trySignatures_Verified `{Lb : jws.Lib}
    (vs : jws.VerifyVars.t jws.KeyProvider jws.KeyUsed jws.Context)
    (msg : jws.Message.t jws.Headers) (payload : jws.bytes) (i : nat)
    (sigs : list (jws.Signature.t jws.Headers)) (errs : list string) (k : jws.Key) :
  jws.trySignatures vs msg payload i sigs errs = jws.Verified k ->
  exists sig encoded kp pairs alg verifier,
    sig ∈ sigs
    /\ jws.encodedProtectedHeader sig = inr encoded
    /\ kp ∈ jws.VerifyVars.keyProviders vs
    /\ jws.FetchKeys kp (jws.VerifyVars.ctx vs) sig msg = inr pairs
    /\ (alg, k) ∈ pairs
    /\ jws.NewVerifier alg = inr verifier
    /\ jws.Verifier_Verify verifier (encoded ++ "."%char :: payload)%list
         (jws.Signature.signature sig) k = None
    /\ (jws.VerifyVars.validateKey vs = true ->
        jws.validateKeyBeforeUse (Some k) = None).
Proof.
  revert i errs. induction sigs as [|sig sigs IH]; intros i errs Hrun; simpl in Hrun;
    [discriminate Hrun|].
  destruct (jws.encodedProtectedHeader sig) as [e | encoded] eqn:Henc;
    [discriminate Hrun|].
  cbv zeta in Hrun.
  destruct (jws.tryProviders vs msg sig _ 0 _ errs) as [k' | e | errs'] eqn:Hkps;
    [|discriminate Hrun|].
  - injection Hrun as ->.
    apply tryProviders_Verified in Hkps as (kp & pairs & alg & verifier & Hin & H).
    exists sig, encoded, kp, pairs, alg, verifier.
    split; [left|]. split; [exact Henc|]. split; [exact Hin | exact H].
  - apply IH in Hrun as (sig' & encoded' & kp & pairs & alg & verifier & Hin & H).
    exists sig', encoded', kp, pairs, alg, verifier. split; [right; exact Hin | exact H].
Qed.

Lemma trySignatures_Unverified `{Lb : jws.Lib}
    (vs : jws.VerifyVars.t jws.KeyProvider jws.KeyUsed jws.Context)
    (msg : jws.Message.t jws.Headers) (payload : jws.bytes) (i : nat)
    (sigs : list (jws.Signature.t jws.Headers)) (errs errs' : list string) :
  jws.trySignatures vs msg payload i sigs errs = jws.Unverified errs' ->
  exists more,
    errs' = (errs ++ more)%list
    /\ Forall (fun sig =>
         exists encoded,
           jws.encodedProtectedHeader sig = inr encoded
           /\ Forall (fun kp =>
                exists pairs,
                  jws.FetchKeys kp (jws.VerifyVars.ctx vs) sig msg = inr pairs
                  /\ Forall (fun pair =>
                       exists verifier err,
                         jws.NewVerifier pair.1 = inr verifier
                         /\ jws.Verifier_Verify verifier
                              (encoded ++ "."%char :: payload)%list
                              (jws.Signature.signature sig) pair.2 = Some err
                         /\ err ∈ more) pairs)
                (jws.VerifyVars.keyProviders vs)) sigs.
Proof.
  revert i errs. induction sigs as [|sig sigs IH]; intros i errs Hrun; simpl in Hrun.
  - injection Hrun as <-. exists []. rewrite app_nil_r. split; [reflexivity | constructor].
  - destruct (jws.encodedProtectedHeader sig) as [e | encoded] eqn:Henc;
      [discriminate Hrun|].
    cbv zeta in Hrun.
    destruct (jws.tryProviders vs msg sig _ 0 _ errs) as [k' | e | errs1] eqn:Hkps;
      [discriminate Hrun | discriminate Hrun|].
    apply tryProviders_Unverified in Hkps as (more1 & -> & Hall1).
    apply IH in Hrun as (more2 & -> & Hall2).
    exists (more1 ++ more2)%list. split; [rewrite app_assoc; reflexivity|].
    constructor.
    + exists encoded. split; [exact Henc|].
      eapply Forall_impl; [exact Hall1|].
      intros kp (pairs & Hf & Hall'). exists pairs. split; [exact Hf|].
      eapply Forall_impl; [exact Hall'|].
      intros pair (v & err & H1 & H2 & H3). exists v, err.
      split; [exact H1|]. split; [exact H2 | apply elem_of_app; left; exact H3].
    + eapply Forall_impl; [exact Hall2|].
      intros sig' (encoded' & He & Hall'). exists encoded'. split; [exact He|].
      eapply Forall_impl; [exact Hall'|].
      intros kp (pairs & Hf & Hall''). exists pairs. split; [exact Hf|].
      eapply Forall_impl; [exact Hall''|].
      intros pair (v & err & H1 & H2 & H3). exists v, err.
      split; [exact H1|]. split; [exact H2 | apply elem_of_app; right; exact H3].
Qed.

Lemma Verify_inv `{Lb : jws.Lib} (buf : jws.bytes) (options : list jws.VerifyOption)
    (r : jws.VerifyError + option jws.bytes) :
  jws.Verify buf options = r ->
  (exists out, r = inr out) \/ (exists errs, r = inl (jws.NotVerified errs)) ->
  exists vs parsed msg,
    jws.readVerifyOptions options (jws.VerifyVars.mk None [] None jws.Background false [])
    = inr vs
    /\ jws.VerifyVars.keyProviders vs = jws.providersOf options
    /\ jws.Parse buf (jws.VerifyVars.parseOptions vs) = jws.Ok parsed
    /\ jws.withDetachedPayload vs parsed = inr msg
    /\ match jws.trySignatures vs msg (jws.signedPayload msg) 0
               (jws.Message.signatures msg) [] with
       | jws.Verified _ => r = inr (jws.Message.payload msg)
       | jws.Failed _ => False
       | jws.Unverified errs => r = inl (jws.NotVerified errs)
       end.
Proof.
  unfold jws.Verify. intros Hrun Hr.
  destruct (jws.readVerifyOptions options _) as [e | vs] eqn:Hopts.
  { subst r. destruct Hr as [[? H] | [? H]]; [discriminate H|].
    injection H as ->. exfalso. clear -Hopts.
    revert Hopts. generalize (jws.VerifyVars.mk (KeyProvider := jws.KeyProvider)
                                (KeyUsed := jws.KeyUsed) None [] None jws.Background false []).
    induction options as [|o options IH]; intros vs Hrun; [discriminate Hrun|].
    destruct o as [| p | [alg | name] k | kp | v | c | v | f |]; simpl in Hrun;
      try discriminate Hrun; eapply IH; exact Hrun. }
  pose proof (readVerifyOptions_providers _ _ _ Hopts) as Hkps. simpl in Hkps.
  destruct (length (jws.VerifyVars.keyProviders vs) <? 1)%nat.
  { subst r. destruct Hr as [[? H] | [? H]]; discriminate H. }
  destruct (jws.Parse buf (jws.VerifyVars.parseOptions vs)) as [parsed | e] eqn:Hparse.
  2: { subst r. destruct Hr as [[? H] | [? H]]; discriminate H. }
  destruct (jws.withDetachedPayload vs parsed) as [e | msg] eqn:Hdet.
  { subst r. destruct Hr as [[? H] | [? H]]; [discriminate H|].
    unfold jws.withDetachedPayload in Hdet.
    destruct (jws.VerifyVars.detachedPayload vs); [|discriminate Hdet].
    destruct (negb _); [|discriminate Hdet]. congruence. }
  exists vs, parsed, msg. split; [reflexivity|]. split; [exact Hkps|].
  split; [exact Hparse|]. split; [exact Hdet|].
  destruct (jws.trySignatures vs msg _ 0 _ []) as [k | e | errs] eqn:Hsigs.
  - symmetry. exact Hrun.
  - subst r. destruct Hr as [[? H] | [? H]]; [discriminate H|].
    injection H as ->. clear -Hsigs.
    assert (Hno : forall sigs i errs errs',
               jws.trySignatures vs msg (jws.signedPayload msg) i sigs errs
               <> jws.Failed (jws.NotVerified errs')).
    { assert (Hk : forall buf s pairs errs errs',
                 jws.tryKeys vs buf s pairs errs <> jws.Failed (jws.NotVerified errs')).
      { intros buf s pairs. induction pairs as [|[alg k] pairs IH]; intros errs errs';
          simpl; [discriminate|].
        repeat case_match; try discriminate; apply IH. }
      assert (Hp : forall sig buf kps i errs errs',
                 jws.tryProviders vs msg sig buf i kps errs
                 <> jws.Failed (jws.NotVerified errs')).
      { intros sig buf kps. induction kps as [|kp kps IH]; intros i errs errs';
          simpl; [discriminate|].
        destruct (jws.FetchKeys _ _ _ _); [discriminate|].
        destruct (jws.tryKeys _ _ _ _ _) eqn:E; [discriminate| |apply IH].
        rewrite <- E. apply Hk. }
      intros sigs. induction sigs as [|sig sigs IH]; intros i errs errs';
        simpl; [discriminate|].
      destruct (jws.encodedProtectedHeader sig); [discriminate|]. cbv zeta.
      destruct (jws.tryProviders _ _ _ _ _ _ _) eqn:E; [discriminate| |apply IH].
      rewrite <- E. apply Hp. }
    eapply Hno. exact Hsigs.
  - symmetry. exact Hrun.
Qed.

(** X23: [Verify] returns a payload only when a signature was verified.
    If [Verify] returns [out] without an error, then the options hold at
    least one key or key provider; the input parses to a message; [out] is the
    payload of that message, or the detached payload given in the options when
    the message has none; and there are a signature of the message, a key
    provider of the options, a pair of algorithm and key that this provider
    fetched for the signature, and a verifier made by [NewVerifier] for that
    algorithm, for which [verifier.Verify] accepted the signature over the
    signing input "protected header, period, payload" under that key. When key
    validation is asked for, the key has passed it. *)
Theorem Verify_sound `{Lb : jws.Lib} (buf : jws.bytes) (options : list jws.VerifyOption)
    (out : option jws.bytes) :
  jws.Verify buf options = inr out ->
  exists vs parsed msg sig encoded kp pairs alg k verifier,
    jws.readVerifyOptions options (jws.VerifyVars.mk None [] None jws.Background false [])
    = inr vs
    /\ jws.Parse buf (jws.VerifyVars.parseOptions vs) = jws.Ok parsed
    /\ jws.withDetachedPayload vs parsed = inr msg
    /\ out = jws.Message.payload msg
    /\ sig ∈ jws.Message.signatures parsed
    /\ jws.encodedProtectedHeader sig = inr encoded
    /\ kp ∈ jws.providersOf options
    /\ jws.FetchKeys kp (jws.VerifyVars.ctx vs) sig msg = inr pairs
    /\ (alg, k) ∈ pairs
    /\ jws.NewVerifier alg = inr verifier
    /\ jws.Verifier_Verify verifier (encoded ++ "."%char :: jws.signedPayload msg)%list
         (jws.Signature.signature sig) k = None
    /\ (jws.VerifyVars.validateKey vs = true ->
        jws.validateKeyBeforeUse (Some k) = None).
Proof.
  intros Hrun.
  destruct (Verify_inv buf options (inr out) Hrun)
    as (vs & parsed & msg & Hopts & Hkps & Hparse & Hdet & Hsigs); [left; eauto|].
  destruct (jws.trySignatures vs msg _ 0 _ []) as [k | e | errs] eqn:Hloop;
    [|contradiction | discriminate Hsigs].
  injection Hsigs as ->.
  apply trySignatures_Verified in Hloop
    as (sig & encoded & kp & pairs & alg & verifier & Hsig & Henc & Hkp & H).
  exists vs, parsed, msg, sig, encoded, kp, pairs, alg, k, verifier.
  split; [exact Hopts|]. split; [exact Hparse|]. split; [exact Hdet|].
  split; [reflexivity|]. split.
  { unfold jws.withDetachedPayload in Hdet.
    destruct (jws.VerifyVars.detachedPayload vs).
    - destruct (negb _); [discriminate Hdet|]. injection Hdet as <-. exact Hsig.
    - injection Hdet as <-. exact Hsig. }
  split; [exact Henc|]. split; [rewrite <- Hkps; exact Hkp | exact H].
Qed.

Lemma Verify_sound_witness :
  let token := list_ascii_of_string "={alg:HS256}.=hello.=HS256:k" in
  let options := [jws.VerifyWithKey (Lb := jws.sample) (jws.SignatureAlg "HS256") "k"] in
  jws.Verify token options = inr (Some (list_ascii_of_string "hello"))
  /\ exists (sig : jws.Signature.t (@jws.Headers jws.sample)) (buf : jws.bytes)
        (alg k verifier : string),
       jws.NewVerifier (Lib := jws.sample) alg = inr verifier
       /\ jws.Verifier_Verify (Lib := jws.sample) verifier buf
            (jws.Signature.signature sig) k = None.
Proof.
  intros token options. split; [reflexivity|].
  destruct (Verify_sound token options (Some (list_ascii_of_string "hello")) eq_refl)
    as (vs & parsed & msg & sig & encoded & kp & pairs & alg & k & verifier
        & _ & _ & _ & _ & _ & _ & _ & _ & _ & Hnew & Hver & _).
  exists sig, (encoded ++ "."%char :: jws.signedPayload msg)%list, alg, k, verifier.
  split; [exact Hnew | exact Hver].
Defined.

(** X24: when [Verify] fails with its verification error ("could not
    verify message using any of the signatures or keys"), every attempt was
    made and failed: for every signature of the message and every key provider
    of the options the keys were fetched, and for every pair fetched a verifier
    was made and [verifier.Verify] rejected the signature, with an error that
    is among the errors the verification error carries. *)
Theorem Verify_error_is_exhaustive `{Lb : jws.Lib} (buf : jws.bytes)
    (options : list jws.VerifyOption) (errs : list string) :
  jws.Verify buf options = inl (jws.NotVerified errs) ->
  exists vs parsed msg,
    jws.readVerifyOptions options (jws.VerifyVars.mk None [] None jws.Background false [])
    = inr vs
    /\ jws.Parse buf (jws.VerifyVars.parseOptions vs) = jws.Ok parsed
    /\ jws.withDetachedPayload vs parsed = inr msg
    /\ forall sig kp,
         sig ∈ jws.Message.signatures parsed -> kp ∈ jws.providersOf options ->
         exists encoded pairs,
           jws.encodedProtectedHeader sig = inr encoded
           /\ jws.FetchKeys kp (jws.VerifyVars.ctx vs) sig msg = inr pairs
           /\ forall alg k,
                (alg, k) ∈ pairs ->
                exists verifier err,
                  jws.NewVerifier alg = inr verifier
                  /\ jws.Verifier_Verify verifier
                       (encoded ++ "."%char :: jws.signedPayload msg)%list
                       (jws.Signature.signature sig) k = Some err
                  /\ err ∈ errs.
Proof.
  intros Hrun.
  destruct (Verify_inv buf options _ Hrun)
    as (vs & parsed & msg & Hopts & Hkps & Hparse & Hdet & Hsigs); [right; eauto|].
  destruct (jws.trySignatures vs msg _ 0 _ []) as [k | e | errs'] eqn:Hloop;
    [discriminate Hsigs | contradiction|].
  injection Hsigs as ->.
  apply trySignatures_Unverified in Hloop as (more & Hmore & Hall).
  simpl in Hmore. subst more.
  exists vs, parsed, msg. split; [exact Hopts|]. split; [exact Hparse|].
  split; [exact Hdet|]. intros sig kp Hsig Hkp.
  assert (Hsig' : sig ∈ jws.Message.signatures msg).
  { unfold jws.withDetachedPayload in Hdet.
    destruct (jws.VerifyVars.detachedPayload vs).
    - destruct (negb _); [discriminate Hdet|]. injection Hdet as <-. exact Hsig.
    - injection Hdet as <-. exact Hsig. }
  rewrite Forall_forall in Hall.
  destruct (Hall sig Hsig') as (encoded & Henc & Hkps').
  rewrite Forall_forall in Hkps'. rewrite <- Hkps in Hkp.
  destruct (Hkps' kp Hkp) as (pairs & Hfetch & Hpairs).
  exists encoded, pairs. split; [exact Henc|]. split; [exact Hfetch|].
  intros alg k Hin. rewrite Forall_forall in Hpairs. exact (Hpairs (alg, k) Hin).
Qed.

Lemma Verify_error_is_exhaustive_witness :
  let token := list_ascii_of_string "={alg:HS256}.=hello.=HS256:k" in
  let options :=
    [jws.VerifyWithKey (Lb := jws.sample) (jws.SignatureAlg "HS256") "k1";
     jws.VerifyWithKey (Lb := jws.sample) (jws.SignatureAlg "HS256") "k2"] in
  jws.Verify token options
  = inl (jws.NotVerified ["failed to match hmac signature";
                          "failed to match hmac signature"])
  /\ exists vs parsed msg,
       jws.Parse (Lb := jws.sample) token (jws.VerifyVars.parseOptions vs)
       = jws.Ok parsed
       /\ jws.withDetachedPayload vs parsed = inr msg.
Proof.
  intros token options. split; [reflexivity|].
  destruct (Verify_error_is_exhaustive token options _ eq_refl)
    as (vs & parsed & msg & _ & Hparse & Hdet & _).
  exists vs, parsed, msg. split; [exact Hparse | exact Hdet].
Defined.
